(** * A shallow embedding of the SecConNet proof of concept

    The development follows the Python sources.  Two generations of the
    code base are covered:

    - the current one: [definitions/identifier.py],
      [definitions/registry.py], [components/asset_store.py],
      [components/step_runner.py];
    - the earlier one: [poc/asset_store.py], [local_workflow_runner.py],
      [registry.py].

    Python exceptions are values of an error monad; objects with mutable
    attributes are threaded explicitly as state, and a raised exception
    keeps the state reached so far. *)

From Stdlib Require Import String Ascii List ZArith Bool Lia.
From stdpp Require Import base option list strings gmap.

Open Scope string_scope.

(** ** Exceptions and the error monad *)

Inductive exn : Type :=
  | KeyError | ValueError | RuntimeError | TypeError | IndexError
  | AttributeError | ZeroDivisionError.

Inductive result (A : Type) : Type :=
  | Ok (a : A)
  | Raise (e : exn).
Arguments Ok {A} a.
Arguments Raise {A} e.

#[global] Instance result_ret : MRet result := fun A a => Ok a.
#[global] Instance result_bind : MBind result := fun A B f m =>
  match m with
  | Ok a => f a
  | Raise e => Raise e
  end.

(** [d[k]] on a Python dict. *)
Definition getitem {V : Type} (d : gmap string V) (k : string) : result V :=
  match d !! k with
  | Some v => Ok v
  | None => Raise KeyError
  end.

(** [l[i]] on a Python list. *)
Definition index {A : Type} (l : list A) (i : nat) : result A :=
  match l !! i with
  | Some v => Ok v
  | None => Raise IndexError
  end.

(** [for x in l: body(x)] where the body may raise. *)
Fixpoint for_each {A : Type} (body : A -> result unit) (l : list A)
  : result unit :=
  match l with
  | [] => Ok tt
  | x :: rest => _ ← body x; for_each body rest
  end.

(** State and exceptions together: a method of an object whose state has
    type [S].  The state component of the answer is the object after the
    call, also when the call raises. *)
Definition py (S A : Type) : Type := S -> result A * S.

Definition py_ret {S A : Type} (a : A) : py S A := fun s => (Ok a, s).
Definition py_raise {S A : Type} (e : exn) : py S A := fun s => (Raise e, s).
Definition py_bind {S A B : Type} (m : py S A) (k : A -> py S B) : py S B :=
  fun s =>
    match m s with
    | (Ok a, s') => k a s'
    | (Raise e, s') => (Raise e, s')
    end.
Definition py_lift {S A : Type} (r : result A) : py S A := fun s => (r, s).
Definition py_gets {S A : Type} (f : S -> A) : py S A := fun s => (Ok (f s), s).
Definition py_modify {S : Type} (f : S -> S) : py S unit :=
  fun s => (Ok tt, f s).

(** [try: body except E: handler]. *)
Definition exn_eqb (a b : exn) : bool :=
  match a, b with
  | KeyError, KeyError | ValueError, ValueError
  | RuntimeError, RuntimeError | TypeError, TypeError
  | IndexError, IndexError | AttributeError, AttributeError
  | ZeroDivisionError, ZeroDivisionError => true
  | _, _ => false
  end.

Definition py_try_except {S A : Type} (body : py S A) (E : exn)
    (handler : py S A) : py S A :=
  fun s =>
    match body s with
    | (Ok a, s') => (Ok a, s')
    | (Raise e, s') => if exn_eqb e E then handler s' else (Raise e, s')
    end.

Declare Scope py_scope.
Delimit Scope py_scope with py.
Notation "x <~ m ; k" := (py_bind m (fun x => k))
  (at level 20, m at level 100, k at level 200, right associativity,
   only parsing) : py_scope.
Notation "m ;; k" := (py_bind m (fun _ => k))
  (at level 100, k at level 200, right associativity, only parsing)
  : py_scope.

(** Unfolds the combinators of the [py] monad in the goal. *)
Ltac py_unfold :=
  unfold py_bind, py_lift, py_gets, py_ret, py_raise, py_modify,
    py_try_except, getitem.

(** ** Strings *)

(** [s.split(sep)] for a one-character separator. *)
Fixpoint split (sep : ascii) (s : string) : list string :=
  match s with
  | EmptyString => [EmptyString]
  | String c rest =>
      if Ascii.eqb c sep then EmptyString :: split sep rest
      else match split sep rest with
           | p :: ps => String c p :: ps
           | [] => [String c EmptyString]
           end
  end.

(** [c in s] for a one-character needle. *)
Fixpoint contains (c : ascii) (s : string) : bool :=
  match s with
  | EmptyString => false
  | String c' rest => Ascii.eqb c' c || contains c rest
  end.

(** [x in t] for a tuple or list of strings. *)
Definition str_in (x : string) (t : list string) : bool :=
  existsb (String.eqb x) t.

(** ** The regular expressions the code uses

    [definitions/identifier.py] compiles one pattern, a starred character
    class.  [re.match] anchors the match at the start of the subject only
    and returns a match object for the longest prefix the star consumes;
    a match object is truthy, [None] is what a failed match returns. *)

Definition char_class := ascii -> bool.

Fixpoint star_prefix (cls : char_class) (s : string) : string :=
  match s with
  | EmptyString => EmptyString
  | String c rest =>
      if cls c then String c (star_prefix cls rest) else EmptyString
  end.

(** [re.compile('[cls]*').match(s)]: the matched text, or [None]. *)
Definition re_match_star (cls : char_class) (s : string) : option string :=
  Some (star_prefix cls s).

(** Truthiness of an optional match object. *)
Definition truthy {A : Type} (m : option A) : bool :=
  match m with Some _ => true | None => false end.

(** ** definitions/identifier.py *)

Module Identifier.

(** [Identifier] is a subclass of [str]. *)
Abbreviation t := string (only parsing).

Definition _kinds : list string :=
  ["party"; "party_collection"; "site"; "asset"; "asset_collection";
   "result"].

Definition _lengths : gmap string nat :=
  list_to_map
    [("party", 3); ("party_collection", 3); ("site", 3); ("asset", 5);
     ("asset_collection", 3); ("result", 2)].

(** The class [[a-zA-Z0-9_.-]]. *)
Definition part_class : char_class := fun c =>
  let n := nat_of_ascii c in
  (Nat.leb 97 n && Nat.leb n 122) || (Nat.leb 65 n && Nat.leb n 90)
  || (Nat.leb 48 n && Nat.leb n 57)
  || Ascii.eqb c "_" || Ascii.eqb c "." || Ascii.eqb c "-".

Definition _part_regex_match : string -> option string :=
  re_match_star part_class.

(** [Identifier.__new__]. *)
Definition new (seq : string) : result t :=
  let data := seq in
  if negb (String.eqb data "*") then
    let parts := split ":" data in
    p0 ← index parts 0;
    if negb (str_in p0 _kinds) then Raise ValueError else
    len ← getitem _lengths p0;
    if negb (Nat.eqb (length parts) len) then Raise ValueError else
    _ ← for_each
          (fun part =>
             if negb (truthy (_part_regex_match part))
             then Raise ValueError else Ok tt)
          parts;
    Ok seq
  else Ok seq.

Definition from_id_hash (id_hash : string) : result t :=
  new ("result:" ++ id_hash).

Definition parts (self : t) : list string := split ":" self.

Definition namespace (self : t) : result string :=
  p0 ← index (parts self) 0;
  if String.eqb p0 "result" then Raise RuntimeError
  else index (parts self) 1.

Definition location (self : t) : result t :=
  p0 ← index (parts self) 0;
  if negb (String.eqb p0 "asset") then Raise RuntimeError else
  p3 ← index (parts self) 3;
  p4 ← index (parts self) 4;
  new ("site:" ++ p3 ++ ":" ++ p4).

(** What the class documents as a valid part: every character is in the
    class (the whole part, not a prefix of it). *)
Fixpoint all_in_class (cls : char_class) (s : string) : bool :=
  match s with
  | EmptyString => true
  | String c rest => cls c && all_in_class cls rest
  end.

End Identifier.

(** ** Workflows, jobs and assets

    The classes of [definitions/workflows.py] and [definitions/assets.py]
    are imported by the runner and the store; they are records here, with
    the attributes the code reads.  A dict that the code iterates is an
    association list in insertion order, a dict that is only indexed is a
    finite map. *)

Module WorkflowStep.
Record t : Type := mk {
  name : string;
  inputs : list (string * string);
  outputs : list string;
  compute_asset_id : Identifier.t;
}.
End WorkflowStep.

Module Workflow.
Record t : Type := mk {
  steps : list (string * WorkflowStep.t);
}.
End Workflow.

Module Job.
Record t : Type := mk {
  workflow : Workflow.t;
  inputs : gmap string Identifier.t;
}.
End Job.

Module Plan.
Record t : Type := mk {
  step_sites : gmap string Identifier.t;
}.
End Plan.

Module JobSubmission.
Record t : Type := mk {
  job : Job.t;
  plan : Plan.t;
}.
End JobSubmission.

Module Metadata.
Record t : Type := mk {
  job : Job.t;
  item : string;
}.
End Metadata.

(** The input and output bundles of a compute asset: dicts keyed by input
    and output name, in insertion order. *)
Definition bundle (Any : Type) : Type := list (string * Any).

Module Asset.
(** Modelled from the spec: the classes [DataAsset] and [ComputeAsset],
    "Either DataAsset{id, data, metadata} or ComputeAsset{id, callable,
    metadata}". *)
Inductive t (Any : Type) : Type :=
  | DataAsset (id : Identifier.t) (data : Any) (metadata : Metadata.t)
  | ComputeAsset (id : Identifier.t)
      (callable : bundle Any -> result (bundle Any))
      (metadata : Metadata.t).
Arguments DataAsset {Any} id data metadata.
Arguments ComputeAsset {Any} id callable metadata.

Definition id {Any} (a : t Any) : Identifier.t :=
  match a with
  | DataAsset i _ _ => i
  | ComputeAsset i _ _ => i
  end.

Definition metadata {Any} (a : t Any) : Metadata.t :=
  match a with
  | DataAsset _ _ m => m
  | ComputeAsset _ _ m => m
  end.

Definition data {Any} (a : t Any) : result Any :=
  match a with
  | DataAsset _ d _ => Ok d
  | ComputeAsset _ _ _ => Raise AttributeError
  end.

(** [isinstance(asset, ComputeAsset)]. *)
Definition is_compute {Any} (a : t Any) : bool :=
  match a with
  | DataAsset _ _ _ => false
  | ComputeAsset _ _ _ => true
  end.

(** [ComputeAsset.run(inputs)]. *)
Definition run {Any} (a : t Any) (inputs : bundle Any)
  : result (bundle Any) :=
  match a with
  | DataAsset _ _ _ => Raise AttributeError
  | ComputeAsset _ f _ => f inputs
  end.
End Asset.

(** ** Collaborators that are passed in

    [policy/evaluation.py] provides the permission calculator and the
    policy evaluator; the job class provides [id_hashes] and [subjob]. *)

Class PolicyEvaluator : Type := {
  Permissions : Type;
  calculate_permissions : Job.t -> result (gmap string Permissions);
  may_access : Permissions -> string -> bool;
}.

Class JobMethods : Type := {
  id_hashes : Job.t -> gmap string string;
  subjob : Job.t -> WorkflowStep.t -> Job.t;
}.

(** ** components/asset_store.py *)

Module AssetStore.
Section AssetStore.
Context {Any : Type} {PE : PolicyEvaluator}.

Record t : Type := mk {
  _assets : gmap string (Asset.t Any);
}.

(** [AssetStore.__init__]. *)
Definition init : t := {| _assets := ∅ |}.

(** [AssetStore.store]. *)
Definition store (asset : Asset.t Any) : py t unit :=
  (assets <~ py_gets _assets;
   if bool_decide (is_Some (assets !! Asset.id asset))
   then py_raise KeyError
   else py_modify (fun self =>
          {| _assets := <[Asset.id asset := asset]> (_assets self) |}))%py.

(** [AssetStore.retrieve]. *)
Definition retrieve (asset_id : Identifier.t) (requester : string)
  : py t (Asset.t Any) :=
  py_try_except
    (assets <~ py_gets _assets;
     asset <~ py_lift (getitem assets asset_id);
     perms <~ py_lift
       (calculate_permissions (Metadata.job (Asset.metadata asset)));
     perm <~ py_lift (getitem perms (Metadata.item (Asset.metadata asset)));
     if negb (may_access perm requester) then py_raise RuntimeError
     else py_ret asset)%py
    KeyError
    (py_raise KeyError).

End AssetStore.
Arguments t Any : clear implicits.
End AssetStore.

(** ** components/step_runner.py *)

(** A [for] loop whose body may [return]: [Some r] is the value returned
    from inside the loop, [None] means the loop ran to its end. *)
Fixpoint for_return {A R : Type} (body : A -> result (option R))
    (l : list A) : result (option R) :=
  match l with
  | [] => Ok None
  | x :: rest =>
      r ← body x;
      match r with
      | Some v => Ok (Some v)
      | None => for_return body rest
      end
  end.

(** ['{}.{}'.format(a, b)]. *)
Definition dotted (a b : string) : string := a ++ "." ++ b.

(** What the runner does that an observer can see, besides the contents
    of the target store. *)
Inductive event : Type :=
  | Executing (step : string)
  | Slept.

(** How far a run got with the fuel it was given. *)
Inductive outcome : Type :=
  | Done
  | Polling (steps_to_do : list WorkflowStep.t).

Module JobRun.
Section JobRun.
Context {Any : Type} {PE : PolicyEvaluator} {JM : JobMethods}.

(** The REST client answers for the peer sites.  What a peer holds
    changes while the job runs, and a request to the runner's own site
    is served from the target store: the answer is a function of the
    number of requests and sleeps so far and of the target store. *)
Class SiteRestClient : Type := {
  rest_retrieve_asset :
    nat -> AssetStore.t Any -> Identifier.t -> Identifier.t
    -> result (Asset.t Any);
}.
Context {RC : SiteRestClient}.

(** The attributes [JobRun.__init__] sets, the target store apart. *)
Record t : Type := mk {
  _this_site : Identifier.t;
  _job : Job.t;
  _workflow : Workflow.t;
  _inputs : gmap string Identifier.t;
  _plan : Plan.t;
  _sites : gmap string Identifier.t;
}.

Definition init (this_site : Identifier.t) (submission : JobSubmission.t)
  : t :=
  {| _this_site := this_site;
     _job := JobSubmission.job submission;
     _workflow := Job.workflow (JobSubmission.job submission);
     _inputs := Job.inputs (JobSubmission.job submission);
     _plan := JobSubmission.plan submission;
     _sites := Plan.step_sites (JobSubmission.plan submission) |}.

(** What the run mutates: the target store it shares with the site, the
    clock of the peers, and the log of what it did (oldest first). *)
Record world : Type := mkWorld {
  target_store : AssetStore.t Any;
  now : nat;
  log : list event;
}.

Definition tick (w : world) : world :=
  {| target_store := target_store w; now := S (now w); log := log w |}.

Definition emit (e : event) : py world unit :=
  py_modify (fun w =>
    {| target_store := target_store w; now := now w;
       log := (log w ++ [e])%list |}).

(** [self._site_rest_client.retrieve_asset(site, asset_id)]. *)
Definition retrieve_asset (site asset_id : Identifier.t)
  : py world (Asset.t Any) :=
  fun w =>
    (rest_retrieve_asset (now w) (target_store w) site asset_id, tick w).

(** [self._target_store.store(asset)]. *)
Definition target_store_store (asset : Asset.t Any) : py world unit :=
  fun w =>
    let '(r, st) := AssetStore.store asset (target_store w) in
    (r, {| target_store := st; now := now w; log := log w |}).

(** [sleep(0.5)]. *)
Definition sleep : py world unit :=
  (emit Slept;; py_modify tick)%py.

(** The world after [sleep(0.5)]. *)
Definition slept (w : world) : world :=
  {| target_store := target_store w; now := S (now w);
     log := (log w ++ [Slept])%list |}.

(** The asset the runner builds for output [o] with value [v] of a step:
    a data asset named by the id hash [h] of the item, with the step's
    sub-job and the item as metadata. *)
Definition result_asset (step : WorkflowStep.t) (step_subjob : Job.t)
    (o : string) (v : Any) (h : string) : Asset.t Any :=
  Asset.DataAsset ("result:" ++ h) v
    (Metadata.mk step_subjob (dotted (WorkflowStep.name step) o)).

Section Methods.
Variable self : t.

(** [JobRun._is_legal]. *)
Definition _is_legal : result bool :=
  perms ← calculate_permissions (_job self);
  r ← for_return
    (fun step : WorkflowStep.t =>
       site ← getitem (_sites self) (WorkflowStep.name step);
       if String.eqb site (_this_site self) then
         (* check that we can access the step's inputs *)
         r_in ← for_return
           (fun '(inp_name, inp_src) =>
              let inp_item := dotted (WorkflowStep.name step) inp_name in
              inp_perms ← getitem perms inp_item;
              if negb (may_access inp_perms (_this_site self))
              then Ok (Some false) else
              (* check that the site we'll download this input from
                 may access it *)
              src_site ←
                (if contains "." inp_src then
                   match split "." inp_src with
                   | [src_step; _] => getitem (_sites self) src_step
                   | _ => Raise ValueError
                   end
                 else
                   inp_asset_id ← getitem (Job.inputs (_job self)) inp_src;
                   Identifier.location inp_asset_id);
              src_perms ← getitem perms inp_src;
              if negb (may_access src_perms src_site)
              then Ok (Some false) else Ok None)
           (WorkflowStep.inputs step);
         match r_in with
         | Some b => Ok (Some b)
         | None =>
             (* check that we can access the compute asset *)
             step_perms ← getitem perms (WorkflowStep.name step);
             if negb (may_access step_perms (_this_site self))
             then Ok (Some false) else
             (* check that we can access the step's outputs *)
             for_return
               (fun outp_name =>
                  let outp_item :=
                    dotted (WorkflowStep.name step) outp_name in
                  outp_perms ← getitem perms outp_item;
                  if negb (may_access outp_perms (_this_site self))
                  then Ok (Some false) else Ok None)
               (WorkflowStep.outputs step)
         end
       else Ok None)
    (map snd (Workflow.steps (_workflow self)));
  Ok (match r with Some b => b | None => true end).

(** The site an input is downloaded from, as [_is_legal] works it out
    between its two checks of the input. *)
Definition source_site (inp_src : string) : result Identifier.t :=
  if contains "." inp_src then
    match split "." inp_src with
    | [src_step; _] => getitem (_sites self) src_step
    | _ => Raise ValueError
    end
  else
    inp_asset_id ← getitem (Job.inputs (_job self)) inp_src;
    Identifier.location inp_asset_id.

(** The check of one output, as the last loop of [_is_legal] makes
    it. *)
Definition output_check (perms : gmap string Permissions)
    (step : WorkflowStep.t) (outp_name : string) : result (option bool) :=
  outp_perms ← getitem perms (dotted (WorkflowStep.name step) outp_name);
  if negb (may_access outp_perms (_this_site self))
  then Ok (Some false) else Ok None.

(** [JobRun._source]. *)
Definition _source (inp_source : string) (id_hashes : gmap string string)
  : result (Identifier.t * Identifier.t) :=
  if contains "." inp_source then
    match split "." inp_source with
    | [step_name; output_name] =>
        site ← getitem (_sites self) step_name;
        h ← getitem id_hashes inp_source;
        i ← Identifier.from_id_hash h;
        Ok (site, i)
    | _ => Raise ValueError
    end
  else
    dataset ← getitem (_inputs self) inp_source;
    loc ← Identifier.location dataset;
    Ok (loc, dataset).

(** One entry of the bundle [_get_step_inputs] returns against one input
    of the step: the entry is keyed by the input's name, and its value is
    the data of the asset a peer returned for the input's source. *)
Definition fetched (id_hashes : gmap string string) (st : AssetStore.t Any)
    (entry : string * Any) (input : string * string) : Prop :=
  entry.1 = input.1
  /\ exists site a t asset,
       _source input.2 id_hashes = Ok (site, a)
       /\ rest_retrieve_asset t st site a = Ok asset
       /\ Asset.data asset = Ok entry.2.

(** [JobRun._get_step_inputs]: the loop over [step.inputs.items()],
    with the dict built so far. *)
Fixpoint _get_step_inputs_loop (id_hashes : gmap string string)
    (step_input_data : bundle Any) (items : list (string * string))
  : py world (option (bundle Any)) :=
  match items with
  | [] => py_ret (Some step_input_data)
  | (inp_name, inp_source) :: rest =>
      (src <~ py_lift (_source inp_source id_hashes);
       let '(source_site, source_asset) := src in
       found <~ py_try_except
         (asset <~ retrieve_asset source_site source_asset;
          d <~ py_lift (Asset.data asset);
          py_ret (Some d))
         KeyError
         (py_ret None);
       match found with
       | Some d =>
           _get_step_inputs_loop id_hashes
             (step_input_data ++ [(inp_name, d)])%list rest
       | None => py_ret None
       end)%py
  end.

Definition _get_step_inputs (step : WorkflowStep.t)
    (id_hashes : gmap string string)
  : py world (option (bundle Any)) :=
  _get_step_inputs_loop id_hashes [] (WorkflowStep.inputs step).

(** [JobRun._retrieve_compute_asset]. *)
Definition _retrieve_compute_asset (compute_asset_id : Identifier.t)
  : py world (Asset.t Any) :=
  (loc <~ py_lift (Identifier.location compute_asset_id);
   asset <~ retrieve_asset loc compute_asset_id;
   if negb (Asset.is_compute asset) then py_raise TypeError
   else py_ret asset)%py.

(** The loop that saves the outputs of one step,
    [for output_name, output_value in outputs.items()]. *)
Fixpoint save_outputs (id_hashes : gmap string string)
    (step : WorkflowStep.t) (step_subjob : Job.t)
    (outputs : bundle Any) : py world unit :=
  match outputs with
  | [] => py_ret tt
  | (output_name, output_value) :: rest =>
      (let result_item := dotted (WorkflowStep.name step) output_name in
       result_id_hash <~ py_lift (getitem id_hashes result_item);
       let metadata := Metadata.mk step_subjob result_item in
       i <~ py_lift (Identifier.from_id_hash result_id_hash);
       let asset := Asset.DataAsset i output_value metadata in
       target_store_store asset;;
       save_outputs id_hashes step step_subjob rest)%py
  end.

(** The body of [if inputs is not None:], up to the [break]. *)
Definition execute_step (id_hashes : gmap string string)
    (step : WorkflowStep.t) (compute_asset : Asset.t Any)
    (inputs : bundle Any) : py world unit :=
  (emit (Executing (WorkflowStep.name step));;
   outputs <~ py_lift (Asset.run compute_asset inputs);
   let step_subjob := subjob (_job self) step in
   save_outputs id_hashes step step_subjob outputs)%py.

(** One pass of [for step in steps_to_do:].  [skipped] holds the steps
    the pass has already gone by.  [Some todo] is the set after the
    [remove] and [break]; [None] means the pass reached its end (the
    [else] of the [for]). *)
Fixpoint scan (id_hashes : gmap string string)
    (skipped steps : list WorkflowStep.t)
  : py world (option (list WorkflowStep.t)) :=
  match steps with
  | [] => py_ret None
  | step :: rest =>
      (inputs <~ _get_step_inputs step id_hashes;
       compute_asset <~
         _retrieve_compute_asset (WorkflowStep.compute_asset_id step);
       match inputs with
       | Some inputs =>
           execute_step id_hashes step compute_asset inputs;;
           py_ret (Some (skipped ++ rest)%list)
       | None => scan id_hashes (skipped ++ [step])%list rest
       end)%py
  end.

(** [while len(steps_to_do) > 0:], at most [fuel] passes. *)
Fixpoint while_steps_to_do (fuel : nat) (id_hashes : gmap string string)
    (steps_to_do : list WorkflowStep.t) : py world outcome :=
  match steps_to_do with
  | [] => py_ret Done
  | _ :: _ =>
      match fuel with
      | O => py_ret (Polling steps_to_do)
      | S fuel' =>
          (r <~ scan id_hashes [] steps_to_do;
           match r with
           | Some todo => while_steps_to_do fuel' id_hashes todo
           | None => sleep;; while_steps_to_do fuel' id_hashes steps_to_do
           end)%py
      end
  end.

(** The plan gives the step to this site. *)
Definition planned_here (step : WorkflowStep.t) : bool :=
  match _sites self !! WorkflowStep.name step with
  | Some site => String.eqb site (_this_site self)
  | None => false
  end.

(** The set comprehension that selects the steps of this site. *)
Fixpoint local_steps (steps : list WorkflowStep.t)
  : result (list WorkflowStep.t) :=
  match steps with
  | [] => Ok []
  | step :: rest =>
      site ← getitem (_sites self) (WorkflowStep.name step);
      more ← local_steps rest;
      Ok (if String.eqb site (_this_site self) then step :: more
          else more)
  end.

(** [JobRun.run]. *)
Definition run (fuel : nat) : py world outcome :=
  (legal <~ py_lift _is_legal;
   if negb legal then py_raise RuntimeError else
   let id_hashes := id_hashes (_job self) in
   steps_to_do <~
     py_lift (local_steps (map snd (Workflow.steps (_workflow self))));
   while_steps_to_do fuel id_hashes steps_to_do)%py.

(** *** The legality of a job, in the words of the specification

    "A job is legal at a site iff, for every step planned there, the site
    may access every input item of the step and the site each input comes
    from may access the source; the site may access the step (its compute
    asset); and the site may access every output item of the step."
    [_is_legal] is compared with this below. *)

(** [perms] has the item, and lets [who] access it. *)
Definition item_allowed (perms : gmap string Permissions) (item : string)
    (who : Identifier.t) : bool :=
  match perms !! item with
  | Some p => may_access p who
  | None => false
  end.

Definition input_legal (perms : gmap string Permissions)
    (step : WorkflowStep.t) (input : string * string) : bool :=
  item_allowed perms (dotted (WorkflowStep.name step) input.1)
    (_this_site self)
  && match source_site input.2 with
     | Ok src_site => item_allowed perms input.2 src_site
     | Raise _ => false
     end.

Definition output_legal (perms : gmap string Permissions)
    (step : WorkflowStep.t) (outp_name : string) : bool :=
  item_allowed perms (dotted (WorkflowStep.name step) outp_name)
    (_this_site self).

Definition step_legal (perms : gmap string Permissions)
    (step : WorkflowStep.t) : bool :=
  forallb (input_legal perms step) (WorkflowStep.inputs step)
  && item_allowed perms (WorkflowStep.name step) (_this_site self)
  && forallb (output_legal perms step) (WorkflowStep.outputs step).

Definition job_legal (perms : gmap string Permissions) : bool :=
  forallb
    (fun step =>
       match _sites self !! WorkflowStep.name step with
       | Some site =>
           if String.eqb site (_this_site self) then step_legal perms step
           else true
       | None => false
       end)
    (map snd (Workflow.steps (_workflow self))).

(** *** What the peers answer while an input is missing *)

(** An attempt at the inputs [items], begun at time [t] with the target
    store [st], comes upon an input that is not yet available: the
    source of each input before it is worked out and retrieved as a data
    asset, and the retrieval of this one raises [KeyError]. *)
Fixpoint not_yet_available (id_hashes : gmap string string)
    (st : AssetStore.t Any) (t : nat) (items : list (string * string))
  : Prop :=
  match items with
  | [] => False
  | (_, inp_source) :: rest =>
      exists site a,
        _source inp_source id_hashes = Ok (site, a)
        /\ (rest_retrieve_asset t st site a = Raise KeyError
            \/ exists asset d,
                 rest_retrieve_asset t st site a = Ok asset
                 /\ Asset.data asset = Ok d
                 /\ not_yet_available id_hashes st (S t) rest)
  end.

(** The step stays blocked: whenever the runner asks, one of its inputs
    is not yet available, while its compute asset is served. *)
Definition blocked (id_hashes : gmap string string)
    (st : AssetStore.t Any) (step : WorkflowStep.t) : Prop :=
  (forall t, not_yet_available id_hashes st t (WorkflowStep.inputs step))
  /\ exists loc,
       Identifier.location (WorkflowStep.compute_asset_id step) = Ok loc
       /\ forall t, exists ca,
            rest_retrieve_asset t st loc
              (WorkflowStep.compute_asset_id step) = Ok ca
            /\ Asset.is_compute ca = true.

End Methods.

(** The results of [outputs] can be stored in [st]: every output item of
    the step has an id hash that makes an identifier, no asset is stored
    under that identifier yet, and no two outputs share one. *)
Definition storable (id_hashes : gmap string string)
    (step : WorkflowStep.t) (st : AssetStore.t Any) (outputs : bundle Any)
  : Prop :=
  (forall o v, In (o, v) outputs ->
     exists h,
       id_hashes !! dotted (WorkflowStep.name step) o = Some h
       /\ Identifier.from_id_hash h = Ok ("result:" ++ h)
       /\ AssetStore._assets st !! ("result:" ++ h) = None)
  /\ NoDup
       (map (fun ov => id_hashes !! dotted (WorkflowStep.name step) ov.1)
            outputs).

End JobRun.
Arguments t : clear implicits.
Arguments world Any : clear implicits.
Arguments SiteRestClient Any : clear implicits.
End JobRun.

(** ** The earlier generation: poc/asset_store.py and
    local_workflow_runner.py

    Sites were called runners and stores then, identifiers were plain
    strings, and the compute kernels were built into the runner. *)

Module Poc.

Module WorkflowStep.
Record t : Type := mk {
  name : string;
  inputs : list (string * string);
  outputs : list string;
  compute_asset : string;
}.
End WorkflowStep.

Module Workflow.
Record t : Type := mk {
  steps : list (string * WorkflowStep.t);
}.
End Workflow.

Module Job.
Record t : Type := mk {
  workflow : Workflow.t;
  inputs : gmap string string;
}.
End Job.

Module Plan.
Record t : Type := mk {
  input_stores : gmap string string;
  step_runners : list (WorkflowStep.t * string);
}.
End Plan.

Module Metadata.
Record t : Type := mk {
  job : Job.t;
  item : string;
}.
End Metadata.

(** The policy manager and the policy evaluator built on it. *)
Class PolicyManager : Type := {
  Permissions : Type;
  calculate_permissions : Job.t -> result (gmap string Permissions);
  may_access : Permissions -> string -> bool;
}.

Class JobMethods : Type := {
  keys : Job.t -> gmap string string;
  subjob : Job.t -> WorkflowStep.t -> Job.t;
}.

(** Python's operators on the payloads the four demo kernels use. *)
Class Kernels (Any : Type) : Type := {
(** [[a, b]] *)
list_of_two : Any -> Any -> Any;
(** [[x - 10 for x in a]] *)
minus_ten_each : Any -> result Any;
(** [sum(a) / len(a)] *)
mean : Any -> result Any;
(** [a + b] *)
add : Any -> Any -> result Any;
}.

(** [d[k]] on a dict kept in insertion order. *)
Fixpoint bundle_getitem {Any : Type} (d : bundle Any) (k : string)
  : result Any :=
  match d with
  | [] => Raise KeyError
  | (k', v) :: rest =>
      if String.eqb k' k then Ok v else bundle_getitem rest k
  end.

(** *** poc/asset_store.py *)

Module AssetStore.
Section AssetStore.
Context {Any : Type} {PM : PolicyManager}.

Record t : Type := mk {
  name : string;
  _assets : gmap string Any;
  _metadata : gmap string Metadata.t;
}.

Definition init (name : string) : t :=
  {| name := name; _assets := ∅; _metadata := ∅ |}.

(** [AssetStore.store]. *)
Definition store (name_ : string) (data : Any) (metadata : Metadata.t)
  : py t unit :=
  (assets <~ py_gets _assets;
   if bool_decide (is_Some (assets !! name_)) then py_raise KeyError
   else
     py_modify (fun self =>
       {| name := name self;
          _assets := <[name_ := data]> (_assets self);
          _metadata := _metadata self |});;
     py_modify (fun self =>
       {| name := name self;
          _assets := _assets self;
          _metadata := <[name_ := metadata]> (_metadata self) |}))%py.

(** [AssetStore.retrieve]. *)
Definition retrieve (asset_name requester : string)
  : py t (Any * Metadata.t) :=
  py_try_except
    (assets <~ py_gets _assets;
     data <~ py_lift (getitem assets asset_name);
     metas <~ py_gets _metadata;
     metadata <~ py_lift (getitem metas asset_name);
     perms <~ py_lift (calculate_permissions (Metadata.job metadata));
     perm <~ py_lift (getitem perms (Metadata.item metadata));
     if negb (may_access perm requester) then py_raise RuntimeError
     else py_ret (data, metadata))%py
    KeyError
    (py_raise KeyError).

End AssetStore.
Arguments t Any : clear implicits.
End AssetStore.

(** *** local_workflow_runner.py *)

Module JobRun.
Section JobRun.
Context {Any : Type} {PM : PolicyManager} {JM : JobMethods}
  {K : Kernels Any}.

(** The methods of [DDMClient] the runner calls.  As for the REST
    client of the later generation, what a store returns depends on
    the number of requests and sleeps so far and on the target
    store. *)
Class DDMClient : Type := {
  get_runner_administrator : string -> result string;
  get_store_administrator : string -> result string;
  get_target_store : string -> result string;
  ddm_retrieve_data :
    nat -> AssetStore.t Any -> string -> string
    -> result (Any * Metadata.t);
}.
Context {DC : DDMClient}.

Record t : Type := mk {
  _this_runner : string;
  _administrator : string;
  _job : Job.t;
  _workflow : Workflow.t;
  _inputs : gmap string string;
  _plan : Plan.t;
  _runners : gmap string string;
}.

(** [JobRun.__init__]; the dict comprehension lets a later entry of
    [plan.step_runners] replace an earlier one of the same name. *)
Definition init (this_runner administrator : string) (job : Job.t)
    (plan : Plan.t) : t :=
  {| _this_runner := this_runner;
     _administrator := administrator;
     _job := job;
     _workflow := Job.workflow job;
     _inputs := Job.inputs job;
     _plan := plan;
     _runners :=
       foldl (fun m '(step, runner) =>
                <[WorkflowStep.name step := runner]> m)
             ∅ (Plan.step_runners plan) |}.

Record world : Type := mkWorld {
  target_store : AssetStore.t Any;
  now : nat;
  log : list event;
}.

Definition tick (w : world) : world :=
  {| target_store := target_store w; now := S (now w); log := log w |}.

Definition emit (e : event) : py world unit :=
  py_modify (fun w =>
    {| target_store := target_store w; now := now w;
       log := (log w ++ [e])%list |}).

(** [self._ddm_client.retrieve_data(store, key)]. *)
Definition retrieve_data (source_store data_key : string)
  : py world (Any * Metadata.t) :=
  fun w =>
    (ddm_retrieve_data (now w) (target_store w) source_store data_key,
     tick w).

(** [self._target_store.store(key, value, metadata)]. *)
Definition target_store_store (key : string) (value : Any)
    (metadata : Metadata.t) : py world unit :=
  fun w =>
    let '(r, st) := AssetStore.store key value metadata (target_store w) in
    (r, {| target_store := st; now := now w; log := log w |}).

Definition sleep : py world unit :=
  (emit Slept;; py_modify tick)%py.

Section Methods.
Variable self : t.

(** [JobRun._is_legal]. *)
Definition _is_legal : result bool :=
  perms ← calculate_permissions (_job self);
  r ← for_return
    (fun step : WorkflowStep.t =>
       runner ← getitem (_runners self) (WorkflowStep.name step);
       if String.eqb runner (_this_runner self) then
         (* check that we can access the step's inputs *)
         r_in ← for_return
           (fun '(inp_name, inp_src) =>
              let inp_id := dotted (WorkflowStep.name step) inp_name in
              inp_perms ← getitem perms inp_id;
              if negb (may_access inp_perms (_administrator self))
              then Ok (Some false) else
              src_party ←
                (if contains "." inp_src then
                   match split "." inp_src with
                   | [src_step; _] =>
                       src_runner ← getitem (_runners self) src_step;
                       get_runner_administrator src_runner
                   | _ => Raise ValueError
                   end
                 else
                   inp_asset_id ←
                     getitem (Job.inputs (_job self)) inp_src;
                   src_store ←
                     getitem (Plan.input_stores (_plan self))
                             inp_asset_id;
                   get_store_administrator src_store);
              src_perms ← getitem perms inp_src;
              if negb (may_access src_perms src_party)
              then Ok (Some false) else Ok None)
           (WorkflowStep.inputs step);
         match r_in with
         | Some b => Ok (Some b)
         | None =>
             (* check that we can access the step itself *)
             step_perms ← getitem perms (WorkflowStep.name step);
             if negb (may_access step_perms (_administrator self))
             then Ok (Some false) else Ok None
         end
       else Ok None)
    (map snd (Workflow.steps (_workflow self)));
  Ok (match r with Some b => b | None => true end).

(** The party an input is downloaded from, as [_is_legal] works it out
    between its two checks of the input. *)
Definition source_party (inp_src : string) : result string :=
  if contains "." inp_src then
    match split "." inp_src with
    | [src_step; _] =>
        src_runner ← getitem (_runners self) src_step;
        get_runner_administrator src_runner
    | _ => Raise ValueError
    end
  else
    inp_asset_id ← getitem (Job.inputs (_job self)) inp_src;
    src_store ← getitem (Plan.input_stores (_plan self)) inp_asset_id;
    get_store_administrator src_store.

(** [JobRun._source]. *)
Definition _source (inp_source : string) (keys : gmap string string)
  : result (string * string) :=
  if contains "." inp_source then
    match split "." inp_source with
    | [step_name; output_name] =>
        src_runner_name ← getitem (_runners self) step_name;
        src_store ← get_target_store src_runner_name;
        key ← getitem keys inp_source;
        Ok (src_store, key)
    | _ => Raise ValueError
    end
  else
    dataset ← getitem (_inputs self) inp_source;
    src_store ← getitem (Plan.input_stores (_plan self)) dataset;
    Ok (src_store, dataset).

(** [JobRun._get_step_inputs]. *)
Fixpoint _get_step_inputs_loop (keys : gmap string string)
    (step_input_data : bundle Any) (items : list (string * string))
  : py world (option (bundle Any)) :=
  match items with
  | [] => py_ret (Some step_input_data)
  | (inp_name, inp_source) :: rest =>
      (src <~ py_lift (_source inp_source keys);
       let '(source_store, data_key) := src in
       found <~ py_try_except
         (dm <~ retrieve_data source_store data_key;
          py_ret (Some (fst dm)))
         KeyError
         (py_ret None);
       match found with
       | Some d =>
           _get_step_inputs_loop keys
             (step_input_data ++ [(inp_name, d)])%list rest
       | None => py_ret None
       end)%py
  end.

Definition _get_step_inputs (step : WorkflowStep.t)
    (keys : gmap string string) : py world (option (bundle Any)) :=
  _get_step_inputs_loop keys [] (WorkflowStep.inputs step).

(** The kernels built into [run]. *)
Definition run_step (step : WorkflowStep.t) (inputs : bundle Any)
  : result (bundle Any) :=
  if String.eqb (WorkflowStep.compute_asset step) "Combine" then
    x1 ← bundle_getitem inputs "x1";
    x2 ← bundle_getitem inputs "x2";
    Ok [("y", list_of_two x1 x2)]
  else if String.eqb (WorkflowStep.compute_asset step) "Anonymise" then
    x1 ← bundle_getitem inputs "x1";
    y ← minus_ten_each x1;
    Ok [("y", y)]
  else if String.eqb (WorkflowStep.compute_asset step) "Aggregate" then
    x1 ← bundle_getitem inputs "x1";
    y ← mean x1;
    Ok [("y", y)]
  else if String.eqb (WorkflowStep.compute_asset step) "Addition" then
    x1 ← bundle_getitem inputs "x1";
    x2 ← bundle_getitem inputs "x2";
    y ← add x1 x2;
    Ok [("y", y)]
  else Raise RuntimeError.

Fixpoint save_outputs (keys : gmap string string)
    (step : WorkflowStep.t) (step_subjob : Job.t)
    (outputs : bundle Any) : py world unit :=
  match outputs with
  | [] => py_ret tt
  | (output_name, output_value) :: rest =>
      (let result_item := dotted (WorkflowStep.name step) output_name in
       result_key <~ py_lift (getitem keys result_item);
       let metadata := Metadata.mk step_subjob result_item in
       target_store_store result_key output_value metadata;;
       save_outputs keys step step_subjob rest)%py
  end.

Definition execute_step (keys : gmap string string)
    (step : WorkflowStep.t) (inputs : bundle Any) : py world unit :=
  (emit (Executing (WorkflowStep.name step));;
   outputs <~ py_lift (run_step step inputs);
   let step_subjob := subjob (_job self) step in
   save_outputs keys step step_subjob outputs)%py.

Fixpoint scan (keys : gmap string string)
    (skipped steps : list WorkflowStep.t)
  : py world (option (list WorkflowStep.t)) :=
  match steps with
  | [] => py_ret None
  | step :: rest =>
      (inputs <~ _get_step_inputs step keys;
       match inputs with
       | Some inputs =>
           execute_step keys step inputs;;
           py_ret (Some (skipped ++ rest)%list)
       | None => scan keys (skipped ++ [step])%list rest
       end)%py
  end.

Inductive outcome : Type :=
  | Done
  | Polling (steps_to_do : list WorkflowStep.t).

Fixpoint while_steps_to_do (fuel : nat) (keys : gmap string string)
    (steps_to_do : list WorkflowStep.t) : py world outcome :=
  match steps_to_do with
  | [] => py_ret Done
  | _ :: _ =>
      match fuel with
      | O => py_ret (Polling steps_to_do)
      | S fuel' =>
          (r <~ scan keys [] steps_to_do;
           match r with
           | Some todo => while_steps_to_do fuel' keys todo
           | None => sleep;; while_steps_to_do fuel' keys steps_to_do
           end)%py
      end
  end.

Fixpoint local_steps (steps : list WorkflowStep.t)
  : result (list WorkflowStep.t) :=
  match steps with
  | [] => Ok []
  | step :: rest =>
      runner ← getitem (_runners self) (WorkflowStep.name step);
      more ← local_steps rest;
      Ok (if String.eqb runner (_this_runner self) then step :: more
          else more)
  end.

(** [JobRun.run]. *)
Definition run (fuel : nat) : py world outcome :=
  (legal <~ py_lift _is_legal;
   if negb legal then py_raise RuntimeError else
   let keys := keys (_job self) in
   steps_to_do <~
     py_lift (local_steps (map snd (Workflow.steps (_workflow self))));
   while_steps_to_do fuel keys steps_to_do)%py.

End Methods.
End JobRun.
Arguments t : clear implicits.
Arguments world Any : clear implicits.
Arguments DDMClient Any : clear implicits.
End JobRun.

End Poc.

(** ** definitions/registry.py *)

Module RSAPublicKey.
(** The public numbers of an RSA key. *)
Record t : Type := mk {
  n : Z;
  e : Z;
}.
End RSAPublicKey.

Module PartyDescription.
Record t : Type := mk {
  id : Identifier.t;
  public_key : RSAPublicKey.t;
}.

(** [PartyDescription.__init__]. *)
Definition init (party_id : Identifier.t) (public_key : RSAPublicKey.t)
  : result t :=
  Ok {| id := party_id; public_key := public_key |}.
End PartyDescription.

Module SiteDescription.
Record t : Type := mk {
  id : Identifier.t;
  owner_id : Identifier.t;
  admin_id : Identifier.t;
  endpoint : string;
  runner : bool;
  store : bool;
  namespace : option string;
}.

(** [SiteDescription.__init__]: the attributes are set first, then the
    check raises, and the caller never gets the object. *)
Definition init (site_id owner_id admin_id : Identifier.t) (endpoint : string)
    (runner store : bool) (namespace : option string) : result t :=
  let self :=
    {| id := site_id; owner_id := owner_id; admin_id := admin_id;
       endpoint := endpoint; runner := runner; store := store;
       namespace := namespace |} in
  if runner && negb store then Raise RuntimeError else Ok self.
End SiteDescription.

(** [RegisteredObject] and its two subclasses. *)
Inductive RegisteredObject : Type :=
  | Party (p : PartyDescription.t)
  | Site (s : SiteDescription.t).

(** Modelled from the spec: the mutations of the canonical store and of a
    replica of it ("Mutations: register_party, deregister_party,
    register_site, deregister_site"; a replica applies the same inserts
    and deletes).  The store's code is not among the sources.  A
    registration carries the arguments of the description's constructor,
    and the description is built by that constructor on arrival; the
    checks the registry makes before it inserts only remove states. *)
Inductive mutation : Type :=
  | RegisterParty (party_id : Identifier.t) (public_key : RSAPublicKey.t)
  | RegisterSite (site_id owner_id admin_id : Identifier.t)
      (endpoint : string) (runner store : bool) (namespace : option string)
  | DeregisterParty (party_id : Identifier.t)
  | DeregisterSite (site_id : Identifier.t).

Definition is_party_with_id (i : Identifier.t) (o : RegisteredObject) : bool :=
  match o with
  | Party p => String.eqb (PartyDescription.id p) i
  | Site _ => false
  end.

Definition is_site_with_id (i : Identifier.t) (o : RegisteredObject) : bool :=
  match o with
  | Party _ => false
  | Site s => String.eqb (SiteDescription.id s) i
  end.

Definition apply_mutation (objects : list RegisteredObject) (m : mutation)
  : list RegisteredObject :=
  match m with
  | RegisterParty i k =>
      match PartyDescription.init i k with
      | Ok d => objects ++ [Party d]
      | Raise _ => objects
      end
  | RegisterSite i o a ep r s ns =>
      match SiteDescription.init i o a ep r s ns with
      | Ok d => objects ++ [Site d]
      | Raise _ => objects
      end
  | DeregisterParty i =>
      List.filter (fun o => negb (is_party_with_id i o)) objects
  | DeregisterSite i =>
      List.filter (fun o => negb (is_site_with_id i o)) objects
  end.

(** The objects a registry or a replica holds after a history of
    mutations, starting empty. *)
Definition objects_after (history : list mutation) : list RegisteredObject :=
  foldl apply_mutation [] history.

(** Every site among the objects was built by the constructor. *)
Definition sites_constructed (objects : list RegisteredObject) : Prop :=
  forall d, In (Site d) objects ->
    exists i o a ep r s ns, SiteDescription.init i o a ep r s ns = Ok d.

(** [RegistryClient.list_sites_with_runners] of
    components/registry_client.py, over the replica's objects. *)
Fixpoint list_sites_with_runners (objects : list RegisteredObject)
  : list Identifier.t :=
  match objects with
  | [] => []
  | Party _ :: rest => list_sites_with_runners rest
  | Site s :: rest =>
      if SiteDescription.runner s
      then SiteDescription.id s :: list_sites_with_runners rest
      else list_sites_with_runners rest
  end.

(** ** registry.py

    This registry belongs to the earlier generation: its descriptions
    carry names, not identifiers. *)

Module Registry.

Module PartyDescription.
Record t : Type := mk {
  name : string;
  public_key : RSAPublicKey.t;
}.
End PartyDescription.

Module SiteDescription.
(** The references to the site's runner, store and policy server objects,
    which the registry never reads, are left out. *)
Record t : Type := mk {
  name : string;
  owner_name : string;
  admin_name : string;
  namespace : option string;
}.
End SiteDescription.

Inductive RegisteredObject : Type :=
  | Party (p : PartyDescription.t)
  | Site (s : SiteDescription.t).

(** The classes [_get_object] is called with. *)
Inductive typ : Type := PartyDescriptionT | SiteDescriptionT.

Definition isinstance (o : RegisteredObject) (ty : typ) : bool :=
  match o, ty with
  | Party _, PartyDescriptionT => true
  | Site _, SiteDescriptionT => true
  | _, _ => false
  end.

(** The values an attribute of a description can have. *)
Inductive attr_value : Type :=
  | AStr (s : string)
  | ANone
  | AKey (k : RSAPublicKey.t).

Definition attr_eqb (a b : attr_value) : bool :=
  match a, b with
  | AStr s, AStr s' => String.eqb s s'
  | ANone, ANone => true
  | AKey k, AKey k' =>
      Z.eqb (RSAPublicKey.n k) (RSAPublicKey.n k')
      && Z.eqb (RSAPublicKey.e k) (RSAPublicKey.e k')
  | _, _ => false
  end.

Definition of_option (o : option string) : attr_value :=
  match o with Some s => AStr s | None => ANone end.

(** [getattr(o, attr_name)]. *)
Definition getattr (o : RegisteredObject) (attr_name : string)
  : result attr_value :=
  match o with
  | Party p =>
      if String.eqb attr_name "name" then Ok (AStr (PartyDescription.name p))
      else if String.eqb attr_name "public_key"
      then Ok (AKey (PartyDescription.public_key p))
      else Raise AttributeError
  | Site s =>
      if String.eqb attr_name "name" then Ok (AStr (SiteDescription.name s))
      else if String.eqb attr_name "owner_name"
      then Ok (AStr (SiteDescription.owner_name s))
      else if String.eqb attr_name "admin_name"
      then Ok (AStr (SiteDescription.admin_name s))
      else if String.eqb attr_name "namespace"
      then Ok (of_option (SiteDescription.namespace s))
      else Raise AttributeError
  end.

Module CanonicalStore.
(** Modelled from the spec: the class [CanonicalStore] of the replication
    module, "Holds the set of RegisteredObject".  The objects are kept in
    the order of their insertion; [insert] adds one. *)
Record t : Type := mk {
  contents : list RegisteredObject;
}.

Definition objects (self : t) : list RegisteredObject := contents self.

Definition insert (o : RegisteredObject) : py t unit :=
  py_modify (fun self => {| contents := contents self ++ [o] |}).
End CanonicalStore.

Record t : Type := mk {
  _asset_locations : gmap string string;
  _store : CanonicalStore.t;
}.

(** [Registry.__init__]. *)
Definition init : t :=
  {| _asset_locations := ∅; _store := CanonicalStore.mk [] |}.

(** [self._store.insert(description)]. *)
Definition store_insert (o : RegisteredObject) : py t unit :=
  fun self =>
    let '(r, st) := CanonicalStore.insert o (_store self) in
    (r, {| _asset_locations := _asset_locations self; _store := st |}).

(** The loop of [Registry._get_object]. *)
Fixpoint _get_object_loop (ty : typ) (attr_name : string)
    (value : attr_value) (objects : list RegisteredObject)
  : result (option RegisteredObject) :=
  match objects with
  | [] => Ok None
  | o :: rest =>
      if isinstance o ty then
        a ← getattr o attr_name;
        if attr_eqb a value then Ok (Some o)
        else _get_object_loop ty attr_name value rest
      else _get_object_loop ty attr_name value rest
  end.

(** [Registry._get_object]. *)
Definition _get_object (ty : typ) (attr_name : string) (value : attr_value)
  : py t (option RegisteredObject) :=
  (st <~ py_gets _store;
   py_lift (_get_object_loop ty attr_name value (CanonicalStore.objects st)))%py.

(** [Registry._in_store]. *)
Definition _in_store (ty : typ) (attr_name : string) (value : attr_value)
  : py t bool :=
  (o <~ _get_object ty attr_name value;
   py_ret (match o with Some _ => true | None => false end))%py.

(** [Registry.register_party]. *)
Definition register_party (description : PartyDescription.t) : py t unit :=
  (present <~
     _in_store PartyDescriptionT "name"
       (AStr (PartyDescription.name description));
   if present then py_raise RuntimeError
   else store_insert (Party description))%py.

(** [Registry.register_site]. *)
Definition register_site (description : SiteDescription.t) : py t unit :=
  (present <~
     _in_store SiteDescriptionT "name"
       (AStr (SiteDescription.name description));
   if present then py_raise RuntimeError else
   owner <~
     _get_object PartyDescriptionT "name"
       (AStr (SiteDescription.owner_name description));
   match owner with
   | None => py_raise RuntimeError
   | Some _ =>
       admin <~
         _get_object PartyDescriptionT "name"
           (AStr (SiteDescription.admin_name description));
       match admin with
       | None => py_raise RuntimeError
       | Some _ => store_insert (Site description)
       end
   end)%py.

(** [Registry.register_asset]. *)
Definition register_asset (asset_id site_name : string) : py t unit :=
  (locations <~ py_gets _asset_locations;
   if bool_decide (is_Some (locations !! asset_id))
   then py_raise RuntimeError
   else py_modify (fun self =>
          {| _asset_locations := <[asset_id := site_name]> (_asset_locations self);
             _store := _store self |}))%py.

(** [Registry.get_asset_location]. *)
Definition get_asset_location (asset_id : string) : py t string :=
  (locations <~ py_gets _asset_locations;
   py_lift (getitem locations asset_id))%py.

(** A party, or a site, of the given name is registered. *)
Definition party_registered (self : t) (name : string) : Prop :=
  exists p, In (Party p) (CanonicalStore.objects (_store self))
            /\ PartyDescription.name p = name.

Definition site_registered (self : t) (name : string) : Prop :=
  exists s, In (Site s) (CanonicalStore.objects (_store self))
            /\ SiteDescription.name s = name.

(** The registry after the insertion of [o]. *)
Definition inserted (o : RegisteredObject) (self : t) : t :=
  {| _asset_locations := _asset_locations self;
     _store :=
       CanonicalStore.mk (CanonicalStore.objects (_store self) ++ [o]) |}.

End Registry.

(** *** Histories of calls to the registry *)

Module RegistryCalls.

(** A call to one of the registry's registration methods. *)
Inductive call : Type :=
  | CallRegisterParty (description : Registry.PartyDescription.t)
  | CallRegisterSite (description : Registry.SiteDescription.t)
  | CallRegisterAsset (asset_id site_name : string).

Definition do_call (c : call) : py Registry.t unit :=
  match c with
  | CallRegisterParty d => Registry.register_party d
  | CallRegisterSite d => Registry.register_site d
  | CallRegisterAsset i n => Registry.register_asset i n
  end.

(** The registry after a history of calls on a new registry; a call that
    raises leaves the registry it got to. *)
Definition after (history : list call) : Registry.t :=
  foldl (fun self c => snd (do_call c self)) Registry.init history.

(** The names of the registered parties and of the registered sites, in
    the order of registration. *)
Fixpoint party_names (objects : list Registry.RegisteredObject)
  : list string :=
  match objects with
  | [] => []
  | Registry.Party p :: rest =>
      Registry.PartyDescription.name p :: party_names rest
  | Registry.Site _ :: rest => party_names rest
  end.

Fixpoint site_names (objects : list Registry.RegisteredObject)
  : list string :=
  match objects with
  | [] => []
  | Registry.Party _ :: rest => site_names rest
  | Registry.Site s :: rest =>
      Registry.SiteDescription.name s :: site_names rest
  end.

(** What every history of calls keeps true of the registry. *)
Definition consistent (self : Registry.t) : Prop :=
  NoDup (party_names
           (Registry.CanonicalStore.objects (Registry._store self)))
  /\ NoDup (site_names
              (Registry.CanonicalStore.objects (Registry._store self)))
  /\ forall s,
       In (Registry.Site s)
          (Registry.CanonicalStore.objects (Registry._store self)) ->
       Registry.party_registered self (Registry.SiteDescription.owner_name s)
       /\ Registry.party_registered self
            (Registry.SiteDescription.admin_name s).

End RegistryCalls.

(** ** ddm_client.py

    The client of the earlier generation reads a replica of the registry.
    Its methods are functions of the replica's objects as they are after
    the [update()] each of them starts with. *)

Module DDMClient.
Section DDMClient.
Variable objects : list Registry.RegisteredObject.

(** The loop of [DDMClient._get_party]. *)
Fixpoint _get_party_loop (name : string)
    (objects : list Registry.RegisteredObject)
  : option Registry.PartyDescription.t :=
  match objects with
  | [] => None
  | Registry.Party p :: rest =>
      if String.eqb (Registry.PartyDescription.name p) name then Some p
      else _get_party_loop name rest
  | Registry.Site _ :: rest => _get_party_loop name rest
  end.

(** [DDMClient._get_party]. *)
Definition _get_party (name : string) : option Registry.PartyDescription.t :=
  _get_party_loop name objects.

(** The loop of [DDMClient._get_site]: [a is not None and a == value]. *)
Fixpoint _get_site_loop (attr_name : string) (value : Registry.attr_value)
    (objects : list Registry.RegisteredObject)
  : result (option Registry.SiteDescription.t) :=
  match objects with
  | [] => Ok None
  | Registry.Party _ :: rest => _get_site_loop attr_name value rest
  | Registry.Site s :: rest =>
      a ← Registry.getattr (Registry.Site s) attr_name;
      if negb (Registry.attr_eqb a Registry.ANone)
         && Registry.attr_eqb a value
      then Ok (Some s)
      else _get_site_loop attr_name value rest
  end.

(** [DDMClient._get_site]. *)
Definition _get_site (attr_name : string) (value : Registry.attr_value)
  : result (option Registry.SiteDescription.t) :=
  _get_site_loop attr_name value objects.

(** [DDMClient.get_public_key_for_ns]. *)
Definition get_public_key_for_ns (namespace : string)
  : result RSAPublicKey.t :=
  site ← _get_site "namespace" (Registry.AStr namespace);
  match site with
  | Some site =>
      match _get_party (Registry.SiteDescription.owner_name site) with
      | None => Raise RuntimeError
      | Some owner => Ok (Registry.PartyDescription.public_key owner)
      end
  | None => Raise RuntimeError
  end.

(** [DDMClient.get_site_administrator]. *)
Definition get_site_administrator (site_name : string) : result string :=
  site ← _get_site "name" (Registry.AStr site_name);
  match site with
  | Some site => Ok (Registry.SiteDescription.admin_name site)
  | None => Raise RuntimeError
  end.

End DDMClient.

(** The class as the runner of local_workflow_runner.py meets it.  The
    runner calls [get_runner_administrator], [get_store_administrator],
    [get_target_store] and [retrieve_data]; the class defines none of
    them, and each of these calls raises [AttributeError]. *)
Definition for_runner {Any : Type} : Poc.JobRun.DDMClient Any := {|
  Poc.JobRun.get_runner_administrator := fun _ => Raise AttributeError;
  Poc.JobRun.get_store_administrator := fun _ => Raise AttributeError;
  Poc.JobRun.get_target_store := fun _ => Raise AttributeError;
  Poc.JobRun.ddm_retrieve_data := fun _ _ _ _ => Raise AttributeError;
|}.

End DDMClient.

(** ** components/registry_client.py

    The methods of [RegistryClient] that read the replica, as functions
    of the replica's objects. *)

Module RegistryClient.

(** The values an attribute of a site description can have. *)
Inductive attr_value : Type :=
  | AStr (s : string)
  | ABool (b : bool)
  | ANone.

Definition attr_eqb (a b : attr_value) : bool :=
  match a, b with
  | AStr s, AStr s' => String.eqb s s'
  | ABool x, ABool y => Bool.eqb x y
  | ANone, ANone => true
  | _, _ => false
  end.

(** [getattr(o, attr_name)] on a site description. *)
Definition getattr (s : SiteDescription.t) (attr_name : string)
  : result attr_value :=
  if String.eqb attr_name "id" then Ok (AStr (SiteDescription.id s))
  else if String.eqb attr_name "owner_id"
  then Ok (AStr (SiteDescription.owner_id s))
  else if String.eqb attr_name "admin_id"
  then Ok (AStr (SiteDescription.admin_id s))
  else if String.eqb attr_name "endpoint"
  then Ok (AStr (SiteDescription.endpoint s))
  else if String.eqb attr_name "runner"
  then Ok (ABool (SiteDescription.runner s))
  else if String.eqb attr_name "store"
  then Ok (ABool (SiteDescription.store s))
  else if String.eqb attr_name "namespace"
  then Ok (match SiteDescription.namespace s with
           | Some ns => AStr ns
           | None => ANone
           end)
  else Raise AttributeError.

(** [RegistryClient._get_party]. *)
Fixpoint _get_party (party_id : Identifier.t)
    (objects : list RegisteredObject) : option PartyDescription.t :=
  match objects with
  | [] => None
  | Party p :: rest =>
      if String.eqb (PartyDescription.id p) party_id then Some p
      else _get_party party_id rest
  | Site _ :: rest => _get_party party_id rest
  end.

(** [RegistryClient._get_site]. *)
Fixpoint _get_site (attr_name : string) (value : attr_value)
    (objects : list RegisteredObject) : result (option SiteDescription.t) :=
  match objects with
  | [] => Ok None
  | Party _ :: rest => _get_site attr_name value rest
  | Site s :: rest =>
      a ← getattr s attr_name;
      if negb (attr_eqb a ANone) && attr_eqb a value then Ok (Some s)
      else _get_site attr_name value rest
  end.

(** [RegistryClient.get_site_by_id]. *)
Definition get_site_by_id (site_id : Identifier.t)
    (objects : list RegisteredObject) : result SiteDescription.t :=
  site ← _get_site "id" (AStr site_id) objects;
  match site with
  | None => Raise KeyError
  | Some site => Ok site
  end.

(** [RegistryClient.get_public_key_for_ns]. *)
Definition get_public_key_for_ns (namespace : string)
    (objects : list RegisteredObject) : result RSAPublicKey.t :=
  site ← _get_site "namespace" (AStr namespace) objects;
  match site with
  | Some site =>
      match _get_party (SiteDescription.owner_id site) objects with
      | None => Raise RuntimeError
      | Some owner => Ok (PartyDescription.public_key owner)
      end
  | None => Raise RuntimeError
  end.

End RegistryClient.

(** ** Histories of calls to a store *)

Module StoreCalls.

(** The store after [store] was called with each asset in turn on a new
    store; a call that raises leaves the store it got to. *)
Definition after {Any : Type} (assets : list (Asset.t Any))
  : AssetStore.t Any :=
  foldl (fun self a => snd (AssetStore.store a self)) AssetStore.init assets.

(** The same for the store of the earlier generation; a call is the
    triple of its arguments. *)
Definition poc_after {Any : Type} (name : string)
    (calls : list (string * Any * Poc.Metadata.t)) : Poc.AssetStore.t Any :=
  foldl (fun self c => snd (Poc.AssetStore.store c.1.1 c.1.2 c.2 self))
    (Poc.AssetStore.init name) calls.

End StoreCalls.

(** ** Reading a log *)

(** The names of the steps a log says were executed, oldest first. *)
Fixpoint executed (log : list event) : list string :=
  match log with
  | [] => []
  | Executing n :: rest => n :: executed rest
  | Slept :: rest => executed rest
  end.

(** [sep.join(parts)]. *)
Fixpoint join (sep : string) (parts : list string) : string :=
  match parts with
  | [] => ""
  | [p] => p
  | p :: rest => p ++ sep ++ join sep rest
  end.

(** ** A small federation to evaluate the definitions on

    One namespace [ns1] with two sites.  The workflow has one step [A]
    that applies the identity kernel to the primary asset [x]. *)

Module Demo.

Definition s1 : Identifier.t := "site:ns1:s1".
Definition s2 : Identifier.t := "site:ns1:s2".
Definition x_id : Identifier.t := "asset:ns1:x:ns1:s1".
Definition identity_id : Identifier.t := "asset:ns1:identity:ns1:s1".

Definition step_A : WorkflowStep.t :=
  {| WorkflowStep.name := "A";
     WorkflowStep.inputs := [("in", "x")];
     WorkflowStep.outputs := ["y"];
     WorkflowStep.compute_asset_id := identity_id |}.

Definition job : Job.t :=
  {| Job.workflow := {| Workflow.steps := [("A", step_A)] |};
     Job.inputs := {["x" := x_id]} |}.

(** A permission set is the list of those who may access the item.  Site
    [s1] may access everything; site [s2] may fetch the input and run the
    step, but may not hold the result. *)
#[local] Instance policy : PolicyEvaluator := {|
  Permissions := list string;
  calculate_permissions := fun _ =>
    Ok (list_to_map
          [("x", [s1; s2]); ("A.in", [s1; s2]); ("A", [s1; s2]);
           ("A.y", [s1])]);
  may_access := fun perm who => str_in who perm;
|}.

#[local] Instance job_methods : JobMethods := {|
  id_hashes := fun _ => {["A.y" := "0a1b"]};
  subjob := fun j _ => j;
|}.

Definition x_asset : Asset.t (list Z) :=
  Asset.DataAsset x_id [1; 2; 3]%Z (Metadata.mk job "x").

Definition identity_asset : Asset.t (list Z) :=
  Asset.ComputeAsset identity_id
    (fun inputs =>
       match inputs with
       | [(_, v)] => Ok [("y", v)]
       | _ => Raise KeyError
       end)
    (Metadata.mk job "A").

(** The store of site [s1], holding the two primary assets. *)
Definition store_s1 : AssetStore.t (list Z) :=
  {| AssetStore._assets :=
       {[x_id := x_asset; identity_id := identity_asset]} |}.

(** Site [s1] serves what its store holds, at any time. *)
#[local] Instance peers : JobRun.SiteRestClient (list Z) := {|
  JobRun.rest_retrieve_asset := fun _ _ site asset_id =>
    if String.eqb site s1 then
      fst (AssetStore.retrieve asset_id s1 store_s1)
    else Raise KeyError;
|}.

(** Peers among which nobody holds the compute asset, and the input is
    not there either. *)
Definition nobody_home : JobRun.SiteRestClient (list Z) := {|
  JobRun.rest_retrieve_asset := fun _ _ _ _ => Raise KeyError;
|}.

(** Peers that serve the compute asset, while the input is not there
    yet. *)
Definition input_pending : JobRun.SiteRestClient (list Z) := {|
  JobRun.rest_retrieve_asset := fun _ _ _ asset_id =>
    if String.eqb asset_id identity_id then Ok identity_asset
    else Raise KeyError;
|}.

Definition submission (site : Identifier.t) : JobSubmission.t :=
  {| JobSubmission.job := job;
     JobSubmission.plan := {| Plan.step_sites := {["A" := site]} |} |}.

Definition empty_world : JobRun.world (list Z) :=
  {| JobRun.target_store := AssetStore.init; JobRun.now := 0;
     JobRun.log := [] |}.

End Demo.


(** ** The same federation for the earlier generation

    Party [party1] administrates [store1] and [runner1], party [party2]
    administrates [runner2] and [store2].  Step [A] anonymises the data
    set [data_x] of [store1] and is planned at [runner2]. *)

Module PocDemo.

(** Payloads: integers, lists, and the float a true division yields,
    kept as the two integers divided. *)
#[warnings="-register-all"]
Inductive value : Type :=
  | VInt (z : Z)
  | VList (l : list value)
  | VTrueDiv (num den : Z).

Fixpoint ints (l : list value) : result (list Z) :=
  match l with
  | [] => Ok []
  | VInt z :: rest => zs ← ints rest; Ok (z :: zs)
  | _ :: _ => Raise TypeError
  end.

#[local] Instance kernels : Poc.Kernels value := {|
  Poc.list_of_two := fun a b => VList [a; b];
  Poc.minus_ten_each := fun a =>
    match a with
    | VList l => zs ← ints l; Ok (VList (map (fun z => VInt (z - 10)) zs))
    | _ => Raise TypeError
    end;
  Poc.mean := fun a =>
    match a with
    | VList [] => Raise ZeroDivisionError
    | VList l =>
        zs ← ints l;
        Ok (VTrueDiv (fold_right Z.add 0%Z zs) (Z.of_nat (length zs)))
    | _ => Raise TypeError
    end;
  Poc.add := fun a b =>
    match a, b with
    | VInt x, VInt y => Ok (VInt (x + y))
    | VList x, VList y => Ok (VList (x ++ y))
    | _, _ => Raise TypeError
    end;
|}.

Definition step_A : Poc.WorkflowStep.t :=
  {| Poc.WorkflowStep.name := "A";
     Poc.WorkflowStep.inputs := [("x1", "x")];
     Poc.WorkflowStep.outputs := ["y"];
     Poc.WorkflowStep.compute_asset := "Anonymise" |}.

Definition job : Poc.Job.t :=
  {| Poc.Job.workflow := {| Poc.Workflow.steps := [("A", step_A)] |};
     Poc.Job.inputs := {["x" := "data_x"]} |}.

Definition plan : Poc.Plan.t :=
  {| Poc.Plan.input_stores := {["data_x" := "store1"]};
     Poc.Plan.step_runners := [(step_A, "runner2")] |}.

(** [party2] may fetch the input and run the step, but may not access
    the result [A.y]. *)
#[local] Instance policy : Poc.PolicyManager := {|
  Poc.Permissions := list string;
  Poc.calculate_permissions := fun _ =>
    Ok (list_to_map
          [("x", ["party1"; "party2"]); ("A.x1", ["party1"; "party2"]);
           ("A", ["party1"; "party2"]); ("A.y", ["party1"])]);
  Poc.may_access := fun perm who => str_in who perm;
|}.

#[local] Instance job_methods : Poc.JobMethods := {|
  Poc.keys := fun _ => {["A.y" := "0a1b"]};
  Poc.subjob := fun j _ => j;
|}.

Definition store1 : Poc.AssetStore.t value :=
  {| Poc.AssetStore.name := "store1";
     Poc.AssetStore._assets :=
       {["data_x" := VList [VInt 11; VInt 12; VInt 13]]};
     Poc.AssetStore._metadata := {["data_x" := Poc.Metadata.mk job "x"]} |}.

(** A client that answers the four calls the runner makes, with the
    administrators and stores of this federation.  The class in
    ddm_client.py does not define these methods ([DDMClient.for_runner]
    is that class); with this client the runner's own code can be
    followed past its calls to the client. *)
#[local] Instance ddm_client : Poc.JobRun.DDMClient value := {|
  Poc.JobRun.get_runner_administrator := fun runner =>
    if String.eqb runner "runner1" then Ok "party1"
    else if String.eqb runner "runner2" then Ok "party2"
    else Raise RuntimeError;
  Poc.JobRun.get_store_administrator := fun store =>
    if String.eqb store "store1" then Ok "party1"
    else if String.eqb store "store2" then Ok "party2"
    else Raise RuntimeError;
  Poc.JobRun.get_target_store := fun runner =>
    if String.eqb runner "runner1" then Ok "store1"
    else if String.eqb runner "runner2" then Ok "store2"
    else Raise RuntimeError;
  Poc.JobRun.ddm_retrieve_data := fun _ _ store key =>
    if String.eqb store "store1" then
      fst (Poc.AssetStore.retrieve key "party2" store1)
    else Raise KeyError;
|}.

(** The run of the job at [runner2]. *)
Definition run2 : Poc.JobRun.t :=
  Poc.JobRun.init "runner2" "party2" job plan.

(** The same job with the result open to nobody but [party1] and the
    step itself closed to [party2]: an illegal job for [runner2]. *)
Definition closed_policy : Poc.PolicyManager := {|
  Poc.Permissions := list string;
  Poc.calculate_permissions := fun _ =>
    Ok (list_to_map
          [("x", ["party1"; "party2"]); ("A.x1", ["party1"; "party2"]);
           ("A", ["party1"]); ("A.y", ["party1"])]);
  Poc.may_access := fun perm who => str_in who perm;
|}.

Definition empty_world : Poc.JobRun.world value :=
  {| Poc.JobRun.target_store := Poc.AssetStore.init "store2";
     Poc.JobRun.now := 0; Poc.JobRun.log := [] |}.

(** A job of one step [B] without inputs, planned at [runner2].  The
    legality check of such a job asks the client nothing. *)
Definition step_B : Poc.WorkflowStep.t :=
  {| Poc.WorkflowStep.name := "B";
     Poc.WorkflowStep.inputs := [];
     Poc.WorkflowStep.outputs := ["y"];
     Poc.WorkflowStep.compute_asset := "Combine" |}.

Definition job_B : Poc.Job.t :=
  {| Poc.Job.workflow := {| Poc.Workflow.steps := [("B", step_B)] |};
     Poc.Job.inputs := ∅ |}.

Definition plan_B : Poc.Plan.t :=
  {| Poc.Plan.input_stores := ∅;
     Poc.Plan.step_runners := [(step_B, "runner2")] |}.

(** [party2] may run step [B], but may not access its result [B.y]. *)
Definition policy_B : Poc.PolicyManager := {|
  Poc.Permissions := list string;
  Poc.calculate_permissions := fun _ =>
    Ok (list_to_map [("B", ["party1"; "party2"]); ("B.y", ["party1"])]);
  Poc.may_access := fun perm who => str_in who perm;
|}.

Definition run_B : Poc.JobRun.t :=
  Poc.JobRun.init "runner2" "party2" job_B plan_B.

End PocDemo.

(** The collaborators of the two small federations serve as the
    instances wherever a statement is about them. *)
#[local] Existing Instance Demo.policy.
#[local] Existing Instance Demo.job_methods.
#[local] Existing Instance Demo.peers.
#[local] Existing Instance PocDemo.policy.
#[local] Existing Instance PocDemo.job_methods.
#[local] Existing Instance PocDemo.kernels.
#[local] Existing Instance PocDemo.ddm_client.

(** * Properties *)


(** ** The asset store *)

Section AssetStoreFacts.
Context {Any : Type} {PE : PolicyEvaluator}.

(** [retrieve] in one piece: the answer for each place where the method
    can leave, and the store it leaves behind. *)
Lemma retrieve_unfold (self : AssetStore.t Any) asset_id requester :
  AssetStore.retrieve asset_id requester self =
  (match AssetStore._assets self !! asset_id with
   | None => Raise KeyError
   | Some asset =>
       match calculate_permissions (Metadata.job (Asset.metadata asset)) with
       | Raise e => Raise e
       | Ok perms =>
           match perms !! Metadata.item (Asset.metadata asset) with
           | None => Raise KeyError
           | Some perm =>
               if may_access perm requester then Ok asset
               else Raise RuntimeError
           end
       end
   end, self).
Proof.
  unfold AssetStore.retrieve. py_unfold.
  destruct (AssetStore._assets self !! asset_id) as [asset|]; [|reflexivity].
  destruct (calculate_permissions _) as [perms|e]; [|by destruct e].
  destruct (perms !! _) as [perm|]; [|reflexivity].
  by destruct (may_access perm requester).
Qed.

Lemma store_unfold (self : AssetStore.t Any) (asset : Asset.t Any) :
  AssetStore.store asset self =
  match AssetStore._assets self !! Asset.id asset with
  | Some _ => (Raise KeyError, self)
  | None =>
      (Ok tt,
       AssetStore.mk (<[Asset.id asset := asset]> (AssetStore._assets self)))
  end.
Proof.
  unfold AssetStore.store. py_unfold.
  destruct (AssetStore._assets self !! Asset.id asset) as [a|] eqn:E.
  - rewrite bool_decide_eq_true_2; [reflexivity | by eexists].
  - rewrite bool_decide_eq_false_2; [reflexivity | by intros [? ?]].
Qed.

End AssetStoreFacts.

Section PocAssetStoreFacts.
Context {Any : Type} {PM : Poc.PolicyManager}.

Lemma poc_retrieve_unfold (self : Poc.AssetStore.t Any) asset_name requester :
  Poc.AssetStore.retrieve asset_name requester self =
  (match Poc.AssetStore._assets self !! asset_name with
   | None => Raise KeyError
   | Some data =>
       match Poc.AssetStore._metadata self !! asset_name with
       | None => Raise KeyError
       | Some metadata =>
           match Poc.calculate_permissions (Poc.Metadata.job metadata) with
           | Raise e => Raise e
           | Ok perms =>
               match perms !! Poc.Metadata.item metadata with
               | None => Raise KeyError
               | Some perm =>
                   if Poc.may_access perm requester then Ok (data, metadata)
                   else Raise RuntimeError
               end
           end
       end
   end, self).
Proof.
  unfold Poc.AssetStore.retrieve. py_unfold.
  destruct (Poc.AssetStore._assets self !! asset_name) as [data|];
    [|reflexivity].
  destruct (Poc.AssetStore._metadata self !! asset_name) as [metadata|];
    [|reflexivity].
  destruct (Poc.calculate_permissions _) as [perms|e]; [|by destruct e].
  destruct (perms !! _) as [perm|]; [|reflexivity].
  by destruct (Poc.may_access perm requester).
Qed.

Lemma poc_store_unfold (self : Poc.AssetStore.t Any) name data metadata :
  Poc.AssetStore.store name data metadata self =
  match Poc.AssetStore._assets self !! name with
  | Some _ => (Raise KeyError, self)
  | None =>
      (Ok tt,
       Poc.AssetStore.mk (Poc.AssetStore.name self)
         (<[name := data]> (Poc.AssetStore._assets self))
         (<[name := metadata]> (Poc.AssetStore._metadata self)))
  end.
Proof.
  unfold Poc.AssetStore.store. py_unfold.
  destruct (Poc.AssetStore._assets self !! name) as [a|] eqn:E.
  - rewrite bool_decide_eq_true_2; [reflexivity | by eexists].
  - rewrite bool_decide_eq_false_2; [reflexivity | by intros [? ?]].
Qed.

End PocAssetStoreFacts.

(** C1.  Asset store gate, in both generations of the store: when
    [retrieve] returns an asset, the asset is the one stored under the
    identifier, the permissions of its metadata's job were computed, they
    contain its metadata's item, and [may_access] holds for the requester
    on that item's permission set.  The other way round, a requester for
    whom [may_access] is false on that permission set gets a
    [RuntimeError] and never the asset. *)
Theorem retrieve_returns_only_with_permission
    (Any PocAny : Type) (PE : PolicyEvaluator) (PM : Poc.PolicyManager) :
  (forall (self self' : AssetStore.t Any) asset_id requester asset,
      AssetStore.retrieve asset_id requester self = (Ok asset, self') ->
      AssetStore._assets self !! asset_id = Some asset
      /\ exists perms perm,
           calculate_permissions (Metadata.job (Asset.metadata asset))
             = Ok perms
           /\ perms !! Metadata.item (Asset.metadata asset) = Some perm
           /\ may_access perm requester = true)
  /\ (forall (self : AssetStore.t Any) asset_id requester asset perms perm,
        AssetStore._assets self !! asset_id = Some asset ->
        calculate_permissions (Metadata.job (Asset.metadata asset))
          = Ok perms ->
        perms !! Metadata.item (Asset.metadata asset) = Some perm ->
        may_access perm requester = false ->
        AssetStore.retrieve asset_id requester self
          = (Raise RuntimeError, self))
  /\ (forall (self self' : Poc.AssetStore.t PocAny) asset_name requester
             data metadata,
        Poc.AssetStore.retrieve asset_name requester self
          = (Ok (data, metadata), self') ->
        Poc.AssetStore._assets self !! asset_name = Some data
        /\ Poc.AssetStore._metadata self !! asset_name = Some metadata
        /\ exists perms perm,
             Poc.calculate_permissions (Poc.Metadata.job metadata) = Ok perms
             /\ perms !! Poc.Metadata.item metadata = Some perm
             /\ Poc.may_access perm requester = true)
  /\ (forall (self : Poc.AssetStore.t PocAny) asset_name requester
             data metadata perms perm,
        Poc.AssetStore._assets self !! asset_name = Some data ->
        Poc.AssetStore._metadata self !! asset_name = Some metadata ->
        Poc.calculate_permissions (Poc.Metadata.job metadata) = Ok perms ->
        perms !! Poc.Metadata.item metadata = Some perm ->
        Poc.may_access perm requester = false ->
        Poc.AssetStore.retrieve asset_name requester self
          = (Raise RuntimeError, self)).
Proof.
  repeat split.
  - rewrite retrieve_unfold in H.
    destruct (AssetStore._assets self !! asset_id) as [a|]; [|discriminate].
    destruct (calculate_permissions _) as [perms|]; [|discriminate].
    destruct (perms !! _) as [perm|]; [|discriminate].
    destruct (may_access perm requester); [|discriminate].
    congruence.
  - rewrite retrieve_unfold in H.
    destruct (AssetStore._assets self !! asset_id) as [a|]; [|discriminate].
    destruct (calculate_permissions (Metadata.job (Asset.metadata a)))
      as [perms|] eqn:Ec; [|discriminate].
    destruct (perms !! Metadata.item (Asset.metadata a)) as [perm|] eqn:Ep;
      [|discriminate].
    destruct (may_access perm requester) eqn:Em; [|discriminate].
    assert (a = asset) as -> by congruence.
    eauto.
  - intros self asset_id requester asset perms perm Ha Hc Hp Hm.
    rewrite retrieve_unfold, Ha, Hc, Hp, Hm. reflexivity.
  - rewrite poc_retrieve_unfold in H.
    destruct (Poc.AssetStore._assets self !! asset_name); [|discriminate].
    destruct (Poc.AssetStore._metadata self !! asset_name); [|discriminate].
    destruct (Poc.calculate_permissions _) as [perms|]; [|discriminate].
    destruct (perms !! _) as [perm|]; [|discriminate].
    destruct (Poc.may_access perm requester); [|discriminate].
    congruence.
  - rewrite poc_retrieve_unfold in H.
    destruct (Poc.AssetStore._assets self !! asset_name); [|discriminate].
    destruct (Poc.AssetStore._metadata self !! asset_name); [|discriminate].
    destruct (Poc.calculate_permissions _) as [perms|]; [|discriminate].
    destruct (perms !! _) as [perm|]; [|discriminate].
    destruct (Poc.may_access perm requester); [|discriminate].
    congruence.
  - rewrite poc_retrieve_unfold in H.
    destruct (Poc.AssetStore._assets self !! asset_name) as [d|];
      [|discriminate].
    destruct (Poc.AssetStore._metadata self !! asset_name) as [m|];
      [|discriminate].
    destruct (Poc.calculate_permissions (Poc.Metadata.job m))
      as [perms|] eqn:Ec; [|discriminate].
    destruct (perms !! Poc.Metadata.item m) as [perm|] eqn:Ep;
      [|discriminate].
    destruct (Poc.may_access perm requester) eqn:Em; [|discriminate].
    assert (m = metadata) as -> by congruence.
    eauto.
  - intros self asset_name requester data metadata perms perm Ha Hm Hc Hp Hf.
    rewrite poc_retrieve_unfold, Ha, Hm, Hc, Hp, Hf. reflexivity.
Qed.

Lemma retrieve_returns_only_with_permission_witness :
  (AssetStore._assets Demo.store_s1 !! Demo.x_id = Some Demo.x_asset
   /\ exists perms perm,
        calculate_permissions
          (Metadata.job (Asset.metadata Demo.x_asset)) = Ok perms
        /\ perms !! Metadata.item (Asset.metadata Demo.x_asset) = Some perm
        /\ may_access perm Demo.s1 = true)
  /\ AssetStore.retrieve Demo.x_id "site:ns1:s3" Demo.store_s1
       = (Raise RuntimeError, Demo.store_s1)
  /\ (Poc.AssetStore._assets PocDemo.store1 !! "data_x"
        = Some (PocDemo.VList
                  [PocDemo.VInt 11; PocDemo.VInt 12; PocDemo.VInt 13])
      /\ Poc.AssetStore._metadata PocDemo.store1 !! "data_x"
           = Some (Poc.Metadata.mk PocDemo.job "x")
      /\ exists perms perm,
           Poc.calculate_permissions PocDemo.job = Ok perms
           /\ perms !! "x" = Some perm
           /\ Poc.may_access perm "party2" = true).
Proof.
  pose proof (retrieve_returns_only_with_permission
                (list Z) PocDemo.value Demo.policy PocDemo.policy)
    as [Hc [Hd [Hp _]]].
  split; [|split].
  - apply (Hc Demo.store_s1 Demo.store_s1 Demo.x_id Demo.s1 Demo.x_asset).
    vm_compute. reflexivity.
  - apply (Hd Demo.store_s1 Demo.x_id "site:ns1:s3" Demo.x_asset
              (list_to_map
                 [("x", [Demo.s1; Demo.s2]); ("A.in", [Demo.s1; Demo.s2]);
                  ("A", [Demo.s1; Demo.s2]); ("A.y", [Demo.s1])])
              [Demo.s1; Demo.s2]);
      vm_compute; reflexivity.
  - apply (Hp PocDemo.store1 PocDemo.store1 "data_x" "party2").
    vm_compute. reflexivity.
Defined.

(** C10.  [retrieve] never mutates the store, in both generations:
    whether it returns the asset or raises, the store after the call, and
    so its mapping of stored assets, is the store before the call. *)
Theorem retrieve_leaves_store_unchanged
    (Any PocAny : Type) (PE : PolicyEvaluator) (PM : Poc.PolicyManager) :
  (forall (self : AssetStore.t Any) asset_id requester,
      snd (AssetStore.retrieve asset_id requester self) = self)
  /\ (forall (self : Poc.AssetStore.t PocAny) asset_name requester,
        snd (Poc.AssetStore.retrieve asset_name requester self) = self).
Proof.
  split; intros.
  - by rewrite retrieve_unfold.
  - by rewrite poc_retrieve_unfold.
Qed.

(** C2, as the code has it.  In both generations, [store] on an
    identifier that is already stored raises [KeyError], whatever the
    payloads are, and leaves the store as it was. *)
Theorem store_existing_id_raises
    (Any PocAny : Type) :
  (forall (self : AssetStore.t Any) (asset : Asset.t Any),
      is_Some (AssetStore._assets self !! Asset.id asset) ->
      AssetStore.store asset self = (Raise KeyError, self))
  /\ (forall (self : Poc.AssetStore.t PocAny) name data metadata,
        is_Some (Poc.AssetStore._assets self !! name) ->
        Poc.AssetStore.store name data metadata self
          = (Raise KeyError, self)).
Proof.
  split.
  - intros self asset [a Ha]. by rewrite store_unfold, Ha.
  - intros self name data metadata [a Ha]. by rewrite poc_store_unfold, Ha.
Qed.

Lemma store_existing_id_raises_witness :
  AssetStore.store Demo.x_asset Demo.store_s1
    = (Raise KeyError, Demo.store_s1)
  /\ Poc.AssetStore.store "data_x"
       (PocDemo.VList [PocDemo.VInt 11; PocDemo.VInt 12; PocDemo.VInt 13])
       (Poc.Metadata.mk PocDemo.job "x") PocDemo.store1
     = (Raise KeyError, PocDemo.store1).
Proof.
  destruct (store_existing_id_raises (list Z) PocDemo.value) as [Hc Hp].
  split.
  - apply Hc. vm_compute. eexists. reflexivity.
  - apply Hp. vm_compute. eexists. reflexivity.
Defined.

(** C2 as the spec words it fails: the asset [x] is stored under its
    identifier with the very same payload, and storing it again does not
    succeed, it raises [KeyError]; likewise a first insert followed by
    the same insert, in either generation. *)
Lemma store_same_asset_twice_raises :
  AssetStore._assets Demo.store_s1 !! Asset.id Demo.x_asset
    = Some Demo.x_asset
  /\ fst (AssetStore.store Demo.x_asset Demo.store_s1) = Raise KeyError
  /\ (let first := AssetStore.store Demo.x_asset AssetStore.init in
      fst first = Ok tt
      /\ fst (AssetStore.store Demo.x_asset (snd first)) = Raise KeyError)
  /\ (let first :=
        Poc.AssetStore.store "k" (PocDemo.VInt 7)
          (Poc.Metadata.mk PocDemo.job "A.y") (Poc.AssetStore.init "store2")
      in
      fst first = Ok tt
      /\ fst (Poc.AssetStore.store "k" (PocDemo.VInt 7)
                (Poc.Metadata.mk PocDemo.job "A.y") (snd first))
         = Raise KeyError).
Proof. vm_compute. repeat split; reflexivity. Qed.

(** ** Identifiers *)

(** A starred class matches every subject: the match object is never
    [None]. *)
Lemma part_regex_always_matches (part : string) :
  truthy (Identifier._part_regex_match part) = true.
Proof. reflexivity. Qed.

Lemma for_each_parts_ok (parts : list string) :
  for_each
    (fun part =>
       if negb (truthy (Identifier._part_regex_match part))
       then Raise ValueError else Ok tt)
    parts = Ok tt.
Proof. induction parts as [|p ps IH]; [reflexivity | exact IH]. Qed.

(** A constructed identifier is the string it was constructed from. *)
Lemma new_Ok (seq : string) (i : Identifier.t) :
  Identifier.new seq = Ok i -> i = seq.
Proof.
  unfold Identifier.new.
  destruct (negb (String.eqb seq "*")); [|congruence].
  destruct (index (split ":" seq) 0) as [p0|]; [|intros; discriminate].
  cbn [mbind result_bind].
  destruct (negb (str_in p0 Identifier._kinds)); [intros; discriminate|].
  destruct (getitem Identifier._lengths p0) as [len|];
    [|intros; discriminate].
  cbn [mbind result_bind].
  destruct (negb (length (split ":" seq) =? len)%nat);
    [intros; discriminate|].
  rewrite for_each_parts_ok. cbn [mbind result_bind]. congruence.
Qed.

(** Construction checks the kind and the number of parts, and nothing
    else: with a known kind and the number of parts of that kind, every
    string is accepted. *)
Lemma new_accepts_any_charset (seq p0 : string) (len : nat) :
  index (split ":" seq) 0 = Ok p0 ->
  str_in p0 Identifier._kinds = true ->
  Identifier._lengths !! p0 = Some len ->
  length (split ":" seq) = len ->
  Identifier.new seq = Ok seq.
Proof.
  intros H0 Hk Hl Hn. unfold Identifier.new.
  destruct (negb (String.eqb seq "*")); [|reflexivity].
  rewrite H0. cbn [mbind result_bind]. rewrite Hk. cbn [negb].
  unfold getitem. rewrite Hl. cbn [mbind result_bind].
  rewrite Hn, Nat.eqb_refl. cbn [negb].
  rewrite for_each_parts_ok. reflexivity.
Qed.

(** C6, at an input where the code departs from it.  The string
    [party:a b:c] has a valid kind and three parts, its second part holds
    a space, which is outside the class, and the constructor returns the
    identifier instead of raising [ValueError]; the same for [!]. *)
Theorem identifier_with_space_is_accepted :
  Identifier.all_in_class Identifier.part_class "a b" = false
  /\ Identifier.new "party:a b:c" = Ok "party:a b:c"
  /\ Identifier.all_in_class Identifier.part_class "x!" = false
  /\ Identifier.new "result:x!" = Ok "result:x!".
Proof. vm_compute. repeat split; reflexivity. Qed.

(** ** Site descriptions and the registry *)

Lemma site_init_invariant site_id owner_id admin_id endpoint runner store
    namespace (d : SiteDescription.t) :
  SiteDescription.init site_id owner_id admin_id endpoint runner store
    namespace = Ok d ->
  SiteDescription.runner d = true -> SiteDescription.store d = true.
Proof.
  unfold SiteDescription.init.
  destruct runner, store; simpl; intros H; try discriminate;
    injection H as <-; simpl; congruence.
Qed.

Lemma apply_mutation_constructed objects m :
  sites_constructed objects -> sites_constructed (apply_mutation objects m).
Proof.
  intros Hc d Hd. destruct m as [i k|i o a ep r s ns|i|i]; simpl in Hd.
  - unfold PartyDescription.init in Hd.
    apply in_app_or in Hd as [Hd|[Hd|[]]]; [by apply Hc | discriminate Hd].
  - destruct (SiteDescription.init i o a ep r s ns) as [d'|] eqn:E;
      [|by apply Hc].
    apply in_app_or in Hd as [Hd|[Hd|[]]]; [by apply Hc|].
    injection Hd as <-. eauto 10.
  - apply List.filter_In in Hd as [Hd _]. by apply Hc.
  - apply List.filter_In in Hd as [Hd _]. by apply Hc.
Qed.

Lemma objects_after_constructed history :
  sites_constructed (objects_after history).
Proof.
  unfold objects_after.
  assert (forall objects, sites_constructed objects ->
            sites_constructed (foldl apply_mutation objects history)) as G.
  { induction history as [|m ms IH]; intros objects Hc; simpl; [done|].
    apply IH. by apply apply_mutation_constructed. }
  apply G. intros d [].
Qed.

(** C9.  A successfully constructed [SiteDescription] with a runner has a
    store; the constructor raises [RuntimeError] for a runner without a
    store; and so, after any history of registrations and
    deregistrations, no site held by a registry or a replica has a runner
    and no store, and every site listed as having a runner has a
    store. *)
Theorem site_with_runner_has_store :
  (forall site_id owner_id admin_id endpoint runner store namespace d,
      SiteDescription.init site_id owner_id admin_id endpoint runner store
        namespace = Ok d ->
      SiteDescription.runner d = runner /\ SiteDescription.store d = store
      /\ (SiteDescription.runner d = true -> SiteDescription.store d = true))
  /\ (forall site_id owner_id admin_id endpoint namespace,
        SiteDescription.init site_id owner_id admin_id endpoint true false
          namespace = Raise RuntimeError)
  /\ (forall history d,
        In (Site d) (objects_after history) ->
        SiteDescription.runner d = true -> SiteDescription.store d = true).
Proof.
  split; [|split].
  - intros i o a ep r s ns d H. split; [|split].
    + unfold SiteDescription.init in H.
      destruct (r && negb s); [discriminate|]. by injection H as <-.
    + unfold SiteDescription.init in H.
      destruct (r && negb s); [discriminate|]. by injection H as <-.
    + eapply site_init_invariant; eauto.
  - reflexivity.
  - intros history d Hd Hr.
    destruct (objects_after_constructed history d Hd)
      as (i & o & a & ep & r & s & ns & E).
    eapply site_init_invariant; eauto.
Qed.

Lemma site_with_runner_has_store_witness :
  SiteDescription.store
    (SiteDescription.mk "site:ns1:s1" "party:ns1:p1" "party:ns1:p1"
       "http://s1" true true (Some "ns1")) = true.
Proof.
  apply (proj2 (proj2 site_with_runner_has_store)
           [RegisterParty "party:ns1:p1" (RSAPublicKey.mk 3233 17);
            RegisterSite "site:ns1:s0" "party:ns1:p1" "party:ns1:p1"
              "http://s0" true false None;
            RegisterSite "site:ns1:s1" "party:ns1:p1" "party:ns1:p1"
              "http://s1" true true (Some "ns1")]).
  - vm_compute. right. left. reflexivity.
  - reflexivity.
Defined.

(** The search for a party by name never raises; it finds an object
    exactly when a party of that name is among the objects. *)
Lemma get_party_by_name (n : string) (objects : list Registry.RegisteredObject) :
  (exists p, In (Registry.Party p) objects
             /\ Registry.PartyDescription.name p = n
             /\ Registry._get_object_loop Registry.PartyDescriptionT "name"
                  (Registry.AStr n) objects = Ok (Some (Registry.Party p)))
  \/ ((forall p, In (Registry.Party p) objects ->
                 Registry.PartyDescription.name p <> n)
      /\ Registry._get_object_loop Registry.PartyDescriptionT "name"
           (Registry.AStr n) objects = Ok None).
Proof.
  induction objects as [|o rest IH].
  - right. split; [intros p []|reflexivity].
  - destruct o as [p|s]; cbn [Registry._get_object_loop Registry.isinstance
                               Registry.getattr String.eqb Ascii.eqb Bool.eqb
                               mbind result_bind Registry.attr_eqb].
    + destruct (String.eqb (Registry.PartyDescription.name p) n) eqn:E.
      * left. exists p. apply String.eqb_eq in E. repeat split; auto.
        by left.
      * apply String.eqb_neq in E.
        destruct IH as [(p' & Hin & Hn & Hl)|[Hnone Hl]].
        -- left. exists p'. repeat split; auto. by right.
        -- right. split; [|exact Hl].
           intros p' [Hp|Hp]; [congruence | by apply Hnone].
    + destruct IH as [(p' & Hin & Hn & Hl)|[Hnone Hl]].
      * left. exists p'. repeat split; auto. by right.
      * right. split; [|exact Hl].
        intros p' [Hp|Hp]; [discriminate | by apply Hnone].
Qed.

Lemma get_site_by_name (n : string) (objects : list Registry.RegisteredObject) :
  (exists s, In (Registry.Site s) objects
             /\ Registry.SiteDescription.name s = n
             /\ Registry._get_object_loop Registry.SiteDescriptionT "name"
                  (Registry.AStr n) objects = Ok (Some (Registry.Site s)))
  \/ ((forall s, In (Registry.Site s) objects ->
                 Registry.SiteDescription.name s <> n)
      /\ Registry._get_object_loop Registry.SiteDescriptionT "name"
           (Registry.AStr n) objects = Ok None).
Proof.
  induction objects as [|o rest IH].
  - right. split; [intros p []|reflexivity].
  - destruct o as [p|s]; cbn [Registry._get_object_loop Registry.isinstance
                               Registry.getattr String.eqb Ascii.eqb Bool.eqb
                               mbind result_bind Registry.attr_eqb].
    + destruct IH as [(s' & Hin & Hn & Hl)|[Hnone Hl]].
      * left. exists s'. repeat split; auto. by right.
      * right. split; [|exact Hl].
        intros s' [Hs|Hs]; [discriminate | by apply Hnone].
    + destruct (String.eqb (Registry.SiteDescription.name s) n) eqn:E.
      * left. exists s. apply String.eqb_eq in E. repeat split; auto.
        by left.
      * apply String.eqb_neq in E.
        destruct IH as [(s' & Hin & Hn & Hl)|[Hnone Hl]].
        -- left. exists s'. repeat split; auto. by right.
        -- right. split; [|exact Hl].
           intros s' [Hs|Hs]; [congruence | by apply Hnone].
Qed.

Lemma party_lookup_cases (self : Registry.t) (n : string) :
  (Registry.party_registered self n
   /\ exists o, Registry._get_object Registry.PartyDescriptionT "name"
                  (Registry.AStr n) self = (Ok (Some o), self))
  \/ (~ Registry.party_registered self n
      /\ Registry._get_object Registry.PartyDescriptionT "name"
           (Registry.AStr n) self = (Ok None, self)).
Proof.
  unfold Registry._get_object, Registry.party_registered. py_unfold.
  destruct (get_party_by_name n
              (Registry.CanonicalStore.objects (Registry._store self)))
    as [(p & Hin & Hn & Hl)|[Hnone Hl]]; rewrite Hl.
  - left. split; eauto.
  - right. split; [|reflexivity]. intros (p & Hin & Hn). by eapply Hnone.
Qed.

Lemma site_lookup_cases (self : Registry.t) (n : string) :
  (Registry.site_registered self n
   /\ exists o, Registry._get_object Registry.SiteDescriptionT "name"
                  (Registry.AStr n) self = (Ok (Some o), self))
  \/ (~ Registry.site_registered self n
      /\ Registry._get_object Registry.SiteDescriptionT "name"
           (Registry.AStr n) self = (Ok None, self)).
Proof.
  unfold Registry._get_object, Registry.site_registered. py_unfold.
  destruct (get_site_by_name n
              (Registry.CanonicalStore.objects (Registry._store self)))
    as [(s & Hin & Hn & Hl)|[Hnone Hl]]; rewrite Hl.
  - left. split; eauto.
  - right. split; [|reflexivity]. intros (s & Hin & Hn). by eapply Hnone.
Qed.

(** C7.  [register_party] and [register_site] raise [RuntimeError], and
    leave the registry as it was, when a party, respectively a site, of
    the same name is registered; [register_site] raises as well when the
    owner or the admin it names is no registered party; in every other
    case the call succeeds and the description is inserted. *)
Theorem registration_is_checked :
  (forall self d,
      Registry.party_registered self (Registry.PartyDescription.name d) ->
      Registry.register_party d self = (Raise RuntimeError, self))
  /\ (forall self d,
        ~ Registry.party_registered self (Registry.PartyDescription.name d) ->
        Registry.register_party d self
          = (Ok tt, Registry.inserted (Registry.Party d) self))
  /\ (forall self d,
        Registry.site_registered self (Registry.SiteDescription.name d) ->
        Registry.register_site d self = (Raise RuntimeError, self))
  /\ (forall self d,
        ~ Registry.party_registered self
            (Registry.SiteDescription.owner_name d)
        \/ ~ Registry.party_registered self
               (Registry.SiteDescription.admin_name d) ->
        Registry.register_site d self = (Raise RuntimeError, self))
  /\ (forall self d,
        ~ Registry.site_registered self (Registry.SiteDescription.name d) ->
        Registry.party_registered self
          (Registry.SiteDescription.owner_name d) ->
        Registry.party_registered self
          (Registry.SiteDescription.admin_name d) ->
        Registry.register_site d self
          = (Ok tt, Registry.inserted (Registry.Site d) self)).
Proof.
  repeat apply conj.
  - intros self d Hr. unfold Registry.register_party, Registry._in_store.
    destruct (party_lookup_cases self (Registry.PartyDescription.name d))
      as [[_ [o Hl]]|[Hn _]]; [|contradiction].
    unfold py_bind at 1 2. rewrite Hl. reflexivity.
  - intros self d Hr. unfold Registry.register_party, Registry._in_store.
    destruct (party_lookup_cases self (Registry.PartyDescription.name d))
      as [[Hy _]|[_ Hl]]; [contradiction|].
    unfold py_bind at 1 2. rewrite Hl. reflexivity.
  - intros self d Hr. unfold Registry.register_site, Registry._in_store.
    destruct (site_lookup_cases self (Registry.SiteDescription.name d))
      as [[_ [o Hl]]|[Hn _]]; [|contradiction].
    unfold py_bind at 1 2. rewrite Hl. reflexivity.
  - intros self d Hr. unfold Registry.register_site, Registry._in_store.
    destruct (site_lookup_cases self (Registry.SiteDescription.name d))
      as [[_ [o Hl]]|[_ Hl]];
      unfold py_bind at 1 2; rewrite Hl; [reflexivity|].
    cbn [py_ret].
    destruct (party_lookup_cases self
                (Registry.SiteDescription.owner_name d))
      as [[Ho [o Hlo]]|[_ Hlo]];
      unfold py_bind at 1; rewrite Hlo; [|reflexivity].
    destruct (party_lookup_cases self
                (Registry.SiteDescription.admin_name d))
      as [[Ha [a Hla]]|[_ Hla]];
      unfold py_bind at 1; rewrite Hla; [|reflexivity].
    destruct Hr; contradiction.
  - intros self d Hs Ho Ha. unfold Registry.register_site, Registry._in_store.
    destruct (site_lookup_cases self (Registry.SiteDescription.name d))
      as [[Hy _]|[_ Hl]]; [contradiction|].
    unfold py_bind at 1 2. rewrite Hl. cbn [py_ret].
    destruct (party_lookup_cases self
                (Registry.SiteDescription.owner_name d))
      as [[_ [o Hlo]]|[Hn _]]; [|contradiction].
    unfold py_bind at 1. rewrite Hlo.
    destruct (party_lookup_cases self
                (Registry.SiteDescription.admin_name d))
      as [[_ [a Hla]]|[Hn _]]; [|contradiction].
    unfold py_bind at 1. rewrite Hla. reflexivity.
Qed.

Lemma registration_is_checked_witness :
  let p1 := Registry.PartyDescription.mk "p1" (RSAPublicKey.mk 3233 17) in
  let reg := Registry.inserted (Registry.Party p1) Registry.init in
  let site1 := Registry.SiteDescription.mk "s1" "p1" "p1" (Some "ns1") in
  let site2 := Registry.SiteDescription.mk "s2" "p1" "p2" None in
  Registry.register_party p1 reg = (Raise RuntimeError, reg)
  /\ Registry.register_site site1 reg
     = (Ok tt, Registry.inserted (Registry.Site site1) reg)
  /\ Registry.register_site site2 reg = (Raise RuntimeError, reg)
  /\ Registry.register_site site1
       (Registry.inserted (Registry.Site site1) reg)
     = (Raise RuntimeError, Registry.inserted (Registry.Site site1) reg).
Proof.
  intros p1 reg site1 site2.
  destruct registration_is_checked as (Hp & _ & Hs & Hm & Hok).
  assert (Registry.party_registered reg "p1") as Hreg.
  { exists p1. split; [left|]; reflexivity. }
  split; [|split; [|split]].
  - apply Hp. exact Hreg.
  - apply Hok.
    + intros (s & [Hin|[]] & _). discriminate Hin.
    + exact Hreg.
    + exact Hreg.
  - apply Hm. right. intros (p & [Hin|[]] & Hn).
    injection Hin as <-. discriminate Hn.
  - apply Hs. exists site1. split; [right; left|]; reflexivity.
Defined.

(** ** The job run *)

Lemma for_return_None {A R : Type} (body : A -> result (option R))
    (l : list A) :
  for_return body l = Ok None -> forall x, In x l -> body x = Ok None.
Proof.
  induction l as [|y l IH]; intros H x Hx; [destruct Hx|].
  cbn [for_return] in H.
  destruct (body y) as [[v|]|e] eqn:E; cbn [mbind result_bind] in H;
    try discriminate.
  destruct Hx as [<-|Hx]; [exact E | by apply IH].
Qed.

Lemma for_return_Some {A R : Type} (body : A -> result (option R))
    (l : list A) (v : R) :
  for_return body l = Ok (Some v) -> exists x, In x l /\ body x = Ok (Some v).
Proof.
  induction l as [|y l IH]; intros H; [discriminate|].
  cbn [for_return] in H.
  destruct (body y) as [[w|]|e] eqn:E; cbn [mbind result_bind] in H;
    try discriminate.
  - injection H as ->. exists y. split; [by left | exact E].
  - destruct (IH H) as (x & Hx & Hb). exists x. split; [by right | exact Hb].
Qed.

Lemma getitem_Some {V : Type} (d : gmap string V) (k : string) (v : V) :
  d !! k = Some v -> getitem d k = Ok v.
Proof. unfold getitem. by intros ->. Qed.

Lemma getitem_Ok {V : Type} (d : gmap string V) (k : string) (v : V) :
  getitem d k = Ok v -> d !! k = Some v.
Proof. unfold getitem. destruct (d !! k); congruence. Qed.

Section JobRunFacts.
Context {Any : Type} {PE : PolicyEvaluator} {JM : JobMethods}
  {RC : JobRun.SiteRestClient Any}.

Lemma output_check_None self perms step o :
  JobRun.output_check self perms step o = Ok None ->
  exists p, perms !! dotted (WorkflowStep.name step) o = Some p
            /\ may_access p (JobRun._this_site self) = true.
Proof.
  unfold JobRun.output_check, getitem.
  destruct (perms !! dotted (WorkflowStep.name step) o) as [p|];
    cbn [mbind result_bind]; [|intros; discriminate].
  destruct (may_access p (JobRun._this_site self)) eqn:E; cbn [negb];
    [|intros; discriminate].
  intros _. exists p. split; [reflexivity | exact E].
Qed.

Lemma output_check_Some self perms step o b :
  JobRun.output_check self perms step o = Ok (Some b) -> b = false.
Proof.
  unfold JobRun.output_check, getitem.
  destruct (perms !! dotted (WorkflowStep.name step) o) as [p|];
    cbn [mbind result_bind]; [|intros; discriminate].
  destruct (may_access p (JobRun._this_site self)); cbn [negb]; congruence.
Qed.

(** When [_is_legal] returns [True], every output of every step planned
    at this site has a permission set, and this site may access it. *)
Lemma is_legal_checks_outputs (self : JobRun.t) :
  JobRun._is_legal self = Ok true ->
  exists perms,
    calculate_permissions (JobRun._job self) = Ok perms
    /\ forall step,
         In step (map snd (Workflow.steps (JobRun._workflow self))) ->
         JobRun._sites self !! WorkflowStep.name step
           = Some (JobRun._this_site self) ->
         forall o, In o (WorkflowStep.outputs step) ->
           exists p, perms !! dotted (WorkflowStep.name step) o = Some p
                     /\ may_access p (JobRun._this_site self) = true.
Proof.
  unfold JobRun._is_legal.
  destruct (calculate_permissions (JobRun._job self)) as [perms|e];
    cbn [mbind result_bind]; [|intros; discriminate].
  intros H. exists perms. split; [reflexivity|].
  match type of H with
  | context [for_return ?body ?l] =>
      set (body_ := body) in H; destruct (for_return body_ l) as [r|e] eqn:E
  end; cbn [mbind result_bind] in H; [|discriminate].
  assert (forall step b, body_ step = Ok (Some b) -> b = false) as Hfalse.
  { intros step b Hb. unfold body_ in Hb.
    destruct (getitem (JobRun._sites self) (WorkflowStep.name step))
      as [site|]; cbn [mbind result_bind] in Hb; [|discriminate].
    destruct (String.eqb site (JobRun._this_site self)); [|discriminate].
    match type of Hb with
    | context [for_return ?b (WorkflowStep.inputs step)] =>
        set (body_in := b) in Hb;
        destruct (for_return body_in (WorkflowStep.inputs step))
          as [r_in|e] eqn:Ein
    end; cbn [mbind result_bind] in Hb; [|discriminate].
    destruct r_in as [b'|].
    - injection Hb as <-.
      apply for_return_Some in Ein as ([n src] & _ & Hx).
      unfold body_in in Hx.
      destruct (getitem perms (dotted (WorkflowStep.name step) n)) as [p|];
        cbn [mbind result_bind] in Hx; [|discriminate].
      destruct (negb (may_access p (JobRun._this_site self)));
        [congruence|].
      match type of Hx with
      | context [mbind _ ?m] => destruct m as [src_site|]
      end; cbn [mbind result_bind] in Hx; [|discriminate].
      destruct (getitem perms src) as [sp|]; cbn [mbind result_bind] in Hx;
        [|discriminate].
      destruct (negb (may_access sp src_site)); congruence.
    - destruct (getitem perms (WorkflowStep.name step)) as [sp|];
        cbn [mbind result_bind] in Hb; [|discriminate].
      destruct (negb (may_access sp (JobRun._this_site self)));
        [congruence|].
      apply for_return_Some in Hb as (o & _ & Ho).
      by apply (output_check_Some self perms step o). }
  destruct r as [b|].
  { apply for_return_Some in E as (step & _ & Hb).
    apply Hfalse in Hb. congruence. }
  intros step Hstep Hsite o Ho.
  pose proof (for_return_None _ _ E step Hstep) as Hb.
  unfold body_ in Hb. rewrite (getitem_Some _ _ _ Hsite) in Hb.
  cbn [mbind result_bind] in Hb. rewrite String.eqb_refl in Hb.
  match type of Hb with
  | context [for_return ?b (WorkflowStep.inputs step)] =>
      destruct (for_return b (WorkflowStep.inputs step)) as [r_in|e]
  end; cbn [mbind result_bind] in Hb; [|discriminate].
  destruct r_in as [b'|]; [discriminate|].
  destruct (getitem perms (WorkflowStep.name step)) as [sp|];
    cbn [mbind result_bind] in Hb; [|discriminate].
  destruct (negb (may_access sp (JobRun._this_site self))); [discriminate|].
  apply (output_check_None self perms step o).
  exact (for_return_None _ _ Hb o Ho).
Qed.

End JobRunFacts.

(** C4.  In both generations of the runner: when the legality check
    returns [False], [run] raises [RuntimeError] at once; when the check
    itself raises, [run] raises the same error.  Either way the world is
    the one [run] started in: nothing was stored in the target store, no
    step was executed (the log is unchanged), and no peer was asked for
    anything (the clock is unchanged).  No fuel is needed. *)
Theorem illegal_job_has_no_effect
    (Any PocAny : Type) (PE : PolicyEvaluator) (JM : JobMethods)
    (RC : JobRun.SiteRestClient Any)
    (PM : Poc.PolicyManager) (PJM : Poc.JobMethods) (K : Poc.Kernels PocAny)
    (DC : Poc.JobRun.DDMClient PocAny) :
  (forall (self : JobRun.t) (fuel : nat) (w : JobRun.world Any),
      JobRun._is_legal self = Ok false ->
      JobRun.run self fuel w = (Raise RuntimeError, w))
  /\ (forall (self : JobRun.t) (fuel : nat) (w : JobRun.world Any) e,
        JobRun._is_legal self = Raise e ->
        JobRun.run self fuel w = (Raise e, w))
  /\ (forall (self : Poc.JobRun.t) (fuel : nat)
             (w : Poc.JobRun.world PocAny),
        Poc.JobRun._is_legal self = Ok false ->
        Poc.JobRun.run self fuel w = (Raise RuntimeError, w))
  /\ (forall (self : Poc.JobRun.t) (fuel : nat)
             (w : Poc.JobRun.world PocAny) e,
        Poc.JobRun._is_legal self = Raise e ->
        Poc.JobRun.run self fuel w = (Raise e, w)).
Proof.
  repeat apply conj.
  - intros self fuel w H. unfold JobRun.run, py_bind, py_lift.
    rewrite H. reflexivity.
  - intros self fuel w e H. unfold JobRun.run, py_bind, py_lift.
    rewrite H. reflexivity.
  - intros self fuel w H. unfold Poc.JobRun.run, py_bind, py_lift.
    rewrite H. reflexivity.
  - intros self fuel w e H. unfold Poc.JobRun.run, py_bind, py_lift.
    rewrite H. reflexivity.
Qed.

Lemma illegal_job_has_no_effect_witness :
  JobRun.run (JobRun.init Demo.s2 (Demo.submission Demo.s2)) 5
    Demo.empty_world
    = (Raise RuntimeError, Demo.empty_world)
  /\ Poc.JobRun.run (PM := PocDemo.closed_policy) PocDemo.run2 5
       PocDemo.empty_world
     = (Raise RuntimeError, PocDemo.empty_world).
Proof.
  destruct (illegal_job_has_no_effect (list Z) PocDemo.value Demo.policy
              Demo.job_methods Demo.peers PocDemo.closed_policy
              PocDemo.job_methods PocDemo.kernels PocDemo.ddm_client)
    as (Hc & _ & Hp & _).
  split.
  - apply Hc. vm_compute. reflexivity.
  - apply Hp. vm_compute. reflexivity.
Defined.

(** *** The legality check against the words of the specification *)

Lemma for_return_forallb {A R : Type} (body : A -> result (option R))
    (test : A -> bool) (l : list A) :
  (forall x, In x l -> (body x = Ok None <-> test x = true)) ->
  (for_return body l = Ok None <-> forallb test l = true).
Proof.
  induction l as [|y l IH]; intros H; [done|].
  cbn [for_return forallb]. rewrite andb_true_iff.
  pose proof (H y (or_introl eq_refl)) as Hy.
  pose proof (IH (fun x Hx => H x (or_intror Hx))) as IH'.
  destruct (body y) as [[v|]|e]; cbn [mbind result_bind].
  - split; [discriminate|]. intros [Ht _]. apply Hy in Ht. discriminate.
  - rewrite IH'. split; [intros Hl; split; [by apply Hy | exact Hl]|].
    by intros [_ Hl].
  - split; [discriminate|]. intros [Ht _]. apply Hy in Ht. discriminate.
Qed.

Section Legality.
Context {Any : Type} {PE : PolicyEvaluator} {JM : JobMethods}
  {RC : JobRun.SiteRestClient Any}.

(** The three loops of [_is_legal] return [False] and nothing else. *)
Lemma is_legal_body_false (self : JobRun.t) perms step b :
  (site ← getitem (JobRun._sites self) (WorkflowStep.name step);
   if String.eqb site (JobRun._this_site self) then
     r_in ← for_return
       (fun '(inp_name, inp_src) =>
          inp_perms ← getitem perms (dotted (WorkflowStep.name step) inp_name);
          if negb (may_access inp_perms (JobRun._this_site self))
          then Ok (Some false) else
          src_site ← JobRun.source_site self inp_src;
          src_perms ← getitem perms inp_src;
          if negb (may_access src_perms src_site)
          then Ok (Some false) else Ok None)
       (WorkflowStep.inputs step);
     match r_in with
     | Some b => Ok (Some b)
     | None =>
         step_perms ← getitem perms (WorkflowStep.name step);
         if negb (may_access step_perms (JobRun._this_site self))
         then Ok (Some false) else
         for_return (JobRun.output_check self perms step)
           (WorkflowStep.outputs step)
     end
   else Ok None) = Ok (Some b) ->
  b = false.
Proof.
  intros Hb.
  destruct (getitem (JobRun._sites self) (WorkflowStep.name step))
    as [site|]; cbn [mbind result_bind] in Hb; [|discriminate].
  destruct (String.eqb site (JobRun._this_site self)); [|discriminate].
  match type of Hb with
  | context [for_return ?b (WorkflowStep.inputs step)] =>
      set (body_in := b) in Hb;
      destruct (for_return body_in (WorkflowStep.inputs step))
        as [r_in|e] eqn:Ein
  end; cbn [mbind result_bind] in Hb; [|discriminate].
  destruct r_in as [b'|].
  - injection Hb as <-.
    apply for_return_Some in Ein as ([n src] & _ & Hx).
    unfold body_in in Hx.
    destruct (getitem perms (dotted (WorkflowStep.name step) n)) as [p|];
      cbn [mbind result_bind] in Hx; [|discriminate].
    destruct (negb (may_access p (JobRun._this_site self)));
      [congruence|].
    destruct (JobRun.source_site self src) as [src_site|];
      cbn [mbind result_bind] in Hx; [|discriminate].
    destruct (getitem perms src) as [sp|]; cbn [mbind result_bind] in Hx;
      [|discriminate].
    destruct (negb (may_access sp src_site)); congruence.
  - destruct (getitem perms (WorkflowStep.name step)) as [sp|];
      cbn [mbind result_bind] in Hb; [|discriminate].
    destruct (negb (may_access sp (JobRun._this_site self)));
      [congruence|].
    apply for_return_Some in Hb as (o & _ & Ho).
    by apply (output_check_Some self perms step o).
Qed.

(** The checks [_is_legal] makes of one step of this site pass exactly
    when the step is legal in the words of the specification. *)
Lemma is_legal_body_None (self : JobRun.t) perms step :
  (r_in ← for_return
     (fun '(inp_name, inp_src) =>
        inp_perms ← getitem perms (dotted (WorkflowStep.name step) inp_name);
        if negb (may_access inp_perms (JobRun._this_site self))
        then Ok (Some false) else
        src_site ← JobRun.source_site self inp_src;
        src_perms ← getitem perms inp_src;
        if negb (may_access src_perms src_site)
        then Ok (Some false) else Ok None)
     (WorkflowStep.inputs step);
   match r_in with
   | Some b => Ok (Some b)
   | None =>
       step_perms ← getitem perms (WorkflowStep.name step);
       if negb (may_access step_perms (JobRun._this_site self))
       then Ok (Some false) else
       for_return (JobRun.output_check self perms step)
         (WorkflowStep.outputs step)
   end) = Ok None
  <-> JobRun.step_legal self perms step = true.
Proof.
  unfold JobRun.step_legal. rewrite !andb_true_iff.
  match goal with
  | |- context [for_return ?b (WorkflowStep.inputs step)] =>
      set (body_in := b)
  end.
  assert (for_return body_in (WorkflowStep.inputs step) = Ok None
          <-> forallb (JobRun.input_legal self perms step)
                (WorkflowStep.inputs step) = true) as Hin.
  { apply for_return_forallb. intros [n src] _.
    unfold body_in, JobRun.input_legal, JobRun.item_allowed, getitem.
    cbn [fst snd]. rewrite andb_true_iff.
    destruct (perms !! dotted (WorkflowStep.name step) n) as [p|];
      cbn [mbind result_bind]; [|split; [discriminate | by intros []]].
    destruct (may_access p (JobRun._this_site self)); cbn [negb];
      [|split; [discriminate | by intros []]].
    destruct (JobRun.source_site self src) as [src_site|];
      cbn [mbind result_bind]; [|split; [discriminate | by intros []]].
    destruct (perms !! src) as [sp|]; cbn [mbind result_bind];
      [|split; [discriminate | by intros []]].
    destruct (may_access sp src_site); cbn [negb];
      [done | split; [discriminate | by intros []]]. }
  assert (for_return (JobRun.output_check self perms step)
            (WorkflowStep.outputs step) = Ok None
          <-> forallb (JobRun.output_legal self perms step)
                (WorkflowStep.outputs step) = true) as Hout.
  { apply for_return_forallb. intros o _.
    unfold JobRun.output_check, JobRun.output_legal, JobRun.item_allowed,
      getitem.
    destruct (perms !! dotted (WorkflowStep.name step) o) as [p|];
      cbn [mbind result_bind]; [|split; discriminate].
    destruct (may_access p (JobRun._this_site self)); cbn [negb];
      [done | split; discriminate]. }
  destruct (for_return body_in (WorkflowStep.inputs step)) as [[b|]|e];
    cbn [mbind result_bind].
  - split; [discriminate|]. intros [[H _] _]. apply Hin in H. discriminate.
  - unfold JobRun.item_allowed, getitem.
    destruct (perms !! WorkflowStep.name step) as [p|];
      cbn [mbind result_bind]; [|split; [discriminate | by intros [[] ]]].
    destruct (may_access p (JobRun._this_site self)); cbn [negb].
    + rewrite Hout. split; [intros H; repeat split; [by apply Hin | exact H]|].
      by intros [_ H].
    + split; [discriminate | by intros [[] ]].
  - split; [discriminate|]. intros [[H _] _]. apply Hin in H. discriminate.
Qed.

(** [_is_legal] returns [True] exactly when the permissions of the job
    are worked out and the job is legal in the words of the
    specification. *)
Lemma is_legal_true_iff (self : JobRun.t) :
  JobRun._is_legal self = Ok true
  <-> exists perms,
        calculate_permissions (JobRun._job self) = Ok perms
        /\ JobRun.job_legal self perms = true.
Proof.
  unfold JobRun._is_legal.
  destruct (calculate_permissions (JobRun._job self)) as [perms|e];
    cbn [mbind result_bind].
  2:{ split; [discriminate|]. intros (p & Hp & _). discriminate. }
  match goal with
  | |- context [for_return ?body ?l] => set (body_ := body); set (l_ := l)
  end.
  assert (for_return body_ l_ = Ok None
          <-> JobRun.job_legal self perms = true) as Hiff.
  { unfold JobRun.job_legal. apply for_return_forallb. intros step _.
    unfold body_.
    destruct (JobRun._sites self !! WorkflowStep.name step) as [site|]
      eqn:Es.
    2:{ replace (getitem (JobRun._sites self) (WorkflowStep.name step))
          with (Raise (A := string) KeyError)
          by (unfold getitem; by rewrite Es).
        split; discriminate. }
    rewrite (getitem_Some _ _ _ Es). cbn [mbind result_bind].
    destruct (String.eqb site (JobRun._this_site self)); [|done].
    apply (is_legal_body_None self perms step). }
  assert (forall b, for_return body_ l_ = Ok (Some b) -> b = false)
    as Hfalse.
  { intros b Hb. apply for_return_Some in Hb as (step & _ & Hb).
    exact (is_legal_body_false self perms step b Hb). }
  destruct (for_return body_ l_) as [[b|]|e]; cbn [mbind result_bind].
  - rewrite (Hfalse b eq_refl). split; [discriminate|].
    intros (p & Hp & Hl). injection Hp as <-. apply Hiff in Hl. discriminate.
  - split; [|done]. intros _. exists perms. split; [done | by apply Hiff].
  - split; [discriminate|].
    intros (p & Hp & Hl). injection Hp as <-. apply Hiff in Hl. discriminate.
Qed.

(** What [job_legal] says of one output. *)
Lemma job_legal_output (self : JobRun.t) perms step o :
  JobRun.job_legal self perms = true ->
  In step (map snd (Workflow.steps (JobRun._workflow self))) ->
  JobRun.planned_here self step = true ->
  In o (WorkflowStep.outputs step) ->
  JobRun.item_allowed perms (dotted (WorkflowStep.name step) o)
    (JobRun._this_site self) = true.
Proof.
  unfold JobRun.job_legal, JobRun.planned_here. intros Hl Hstep Hhere Ho.
  rewrite forallb_forall in Hl. specialize (Hl step Hstep).
  destruct (JobRun._sites self !! WorkflowStep.name step) as [site|];
    [|discriminate].
  rewrite Hhere in Hl. unfold JobRun.step_legal in Hl.
  apply andb_true_iff in Hl as [_ Hout].
  rewrite forallb_forall in Hout. exact (Hout o Ho).
Qed.

End Legality.

(** C3, for the runner of components/step_runner.py.  The legality check
    returns [True] exactly when the job is legal in the words of the
    specification, for which this site must be allowed to access every
    output item [<step>.<output>] of every step planned here.  So a check
    that returned [True] has found a permission set for each such item
    that lets this site in; and when the permissions deny one such item
    to this site (or lack it), the check does not return [True]: it
    returns [False] or raises, and either way [run] raises before it asks
    a peer for anything, executes a step or stores an asset. *)
Theorem legality_check_covers_outputs
    (Any : Type) (PE : PolicyEvaluator) (JM : JobMethods)
    (RC : JobRun.SiteRestClient Any) (self : JobRun.t) :
  (JobRun._is_legal self = Ok true
   <-> exists perms,
         calculate_permissions (JobRun._job self) = Ok perms
         /\ JobRun.job_legal self perms = true)
  /\ (JobRun._is_legal self = Ok true ->
      exists perms,
        calculate_permissions (JobRun._job self) = Ok perms
        /\ forall step o,
             In step (map snd (Workflow.steps (JobRun._workflow self))) ->
             JobRun.planned_here self step = true ->
             In o (WorkflowStep.outputs step) ->
             exists p,
               perms !! dotted (WorkflowStep.name step) o = Some p
               /\ may_access p (JobRun._this_site self) = true)
  /\ (forall perms step o,
        calculate_permissions (JobRun._job self) = Ok perms ->
        In step (map snd (Workflow.steps (JobRun._workflow self))) ->
        JobRun.planned_here self step = true ->
        In o (WorkflowStep.outputs step) ->
        JobRun.item_allowed perms (dotted (WorkflowStep.name step) o)
          (JobRun._this_site self) = false ->
        (JobRun._is_legal self = Ok false
         \/ exists e, JobRun._is_legal self = Raise e)
        /\ forall fuel (w : JobRun.world Any),
             exists e, JobRun.run self fuel w = (Raise e, w)).
Proof.
  split; [apply is_legal_true_iff|]. split.
  - intros H. apply is_legal_true_iff in H as (perms & Hp & Hl).
    exists perms. split; [exact Hp|]. intros step o Hstep Hhere Ho.
    pose proof (job_legal_output self perms step o Hl Hstep Hhere Ho) as Ha.
    unfold JobRun.item_allowed in Ha.
    destruct (perms !! dotted (WorkflowStep.name step) o) as [p|];
      [|discriminate].
    by exists p.
  - intros perms step o Hp Hstep Hhere Ho Hdeny.
    assert (JobRun._is_legal self <> Ok true) as Hnot.
    { intros H. apply is_legal_true_iff in H as (perms' & Hp' & Hl).
      rewrite Hp in Hp'. injection Hp' as <-.
      rewrite (job_legal_output self perms step o Hl Hstep Hhere Ho)
        in Hdeny.
      discriminate. }
    unfold JobRun.run, py_bind, py_lift.
    destruct (JobRun._is_legal self) as [[|]|e]; [done| |].
    + split; [by left|]. intros fuel w. by exists RuntimeError.
    + split; [right; by exists e|]. intros fuel w. by exists e.
Qed.

Lemma legality_check_covers_outputs_witness :
  let legal := JobRun.init Demo.s1 (Demo.submission Demo.s1) in
  let illegal := JobRun.init Demo.s2 (Demo.submission Demo.s2) in
  (exists perms,
     calculate_permissions (JobRun._job legal) = Ok perms
     /\ JobRun.job_legal legal perms = true)
  /\ (JobRun._is_legal illegal = Ok false
      \/ exists e, JobRun._is_legal illegal = Raise e)
  /\ exists e,
       JobRun.run illegal 5 Demo.empty_world = (Raise e, Demo.empty_world).
Proof.
  intros legal illegal. split.
  - apply (proj1 (legality_check_covers_outputs (list Z) Demo.policy
                    Demo.job_methods Demo.peers legal)).
    vm_compute. reflexivity.
  - destruct (legality_check_covers_outputs (list Z) Demo.policy
                Demo.job_methods Demo.peers illegal) as (_ & _ & H).
    destruct (H (list_to_map
                   [("x", [Demo.s1; Demo.s2]); ("A.in", [Demo.s1; Demo.s2]);
                    ("A", [Demo.s1; Demo.s2]); ("A.y", [Demo.s1])])
                Demo.step_A "y")
      as [Hcheck Hrun].
    + reflexivity.
    + by left.
    + vm_compute. reflexivity.
    + by left.
    + vm_compute. reflexivity.
    + split; [exact Hcheck | exact (Hrun 5 Demo.empty_world)].
Defined.

(** C3 as it is worded fails for the runner of local_workflow_runner.py,
    whose legality check looks at the inputs of a step, at their sources
    and at the step, and has no loop over the outputs.  Step [B] has no
    inputs, is planned at [runner2], and [party2], who administrates
    [runner2], may not access the output item [B.y]: the check returns
    [True], and [run] does not reject the job but goes on to execute the
    step (whose kernel then raises [KeyError] for want of an input).  The
    client is the one of ddm_client.py. *)
Lemma poc_legality_check_skips_outputs :
  In PocDemo.step_B
    (map snd (Poc.Workflow.steps (Poc.JobRun._workflow PocDemo.run_B)))
  /\ Poc.JobRun._runners PocDemo.run_B !! "B"
     = Some (Poc.JobRun._this_runner PocDemo.run_B)
  /\ In "y" (Poc.WorkflowStep.outputs PocDemo.step_B)
  /\ (exists perms perm,
        Poc.calculate_permissions (PolicyManager := PocDemo.policy_B)
          (Poc.JobRun._job PocDemo.run_B) = Ok perms
        /\ perms !! dotted "B" "y" = Some perm
        /\ Poc.may_access (PolicyManager := PocDemo.policy_B) perm
             (Poc.JobRun._administrator PocDemo.run_B) = false)
  /\ Poc.JobRun._is_legal (PM := PocDemo.policy_B)
       (DC := DDMClient.for_runner (Any := PocDemo.value)) PocDemo.run_B
     = Ok true
  /\ exists w,
       Poc.JobRun.run (PM := PocDemo.policy_B)
         (DC := DDMClient.for_runner) PocDemo.run_B 3 PocDemo.empty_world
       = (Raise KeyError, w)
       /\ Poc.JobRun.log w = [Executing "B"].
Proof.
  split; [by left|]. split; [vm_compute; reflexivity|].
  split; [by left|]. split.
  - eexists _, _. vm_compute. repeat split; reflexivity.
  - split; [vm_compute; reflexivity|].
    eexists. vm_compute. split; reflexivity.
Qed.

(** ** What a run does to its world *)

Section JobRunEffects.
Context {Any : Type} {PE : PolicyEvaluator} {JM : JobMethods}
  {RC : JobRun.SiteRestClient Any}.

Lemma sleep_unfold (w : JobRun.world Any) :
  JobRun.sleep w = (Ok tt, JobRun.slept w).
Proof. reflexivity. Qed.

(** Fetching the inputs of a step asks the peers and does nothing else:
    the target store and the log stay as they are. *)
Lemma get_step_inputs_loop_frame (self : JobRun.t) idh items :
  forall acc w r w',
    JobRun._get_step_inputs_loop self idh acc items w = (r, w') ->
    JobRun.target_store w' = JobRun.target_store w
    /\ JobRun.log w' = JobRun.log w.
Proof.
  induction items as [|[n src] rest IH]; intros acc w r w' H.
  - injection H as _ <-. by split.
  - cbn [JobRun._get_step_inputs_loop] in H.
    unfold py_bind at 1 in H. unfold py_lift in H.
    destruct (JobRun._source self src idh) as [[site a]|e];
      [|injection H as _ <-; by split].
    unfold py_bind at 1, py_try_except, py_bind at 1, JobRun.retrieve_asset
      in H.
    destruct (JobRun.rest_retrieve_asset (JobRun.now w)
                (JobRun.target_store w) site a) as [asset|e].
    + unfold py_bind, py_lift, py_ret in H.
      destruct (Asset.data asset) as [d|e].
      * apply IH in H. exact H.
      * destruct (exn_eqb e KeyError); injection H as _ <-; by split.
    + destruct (exn_eqb e KeyError); injection H as _ <-; by split.
Qed.

(** [_get_step_inputs] answers [None] only when the retrieval of one of
    the step's inputs raised [KeyError]. *)
Lemma get_step_inputs_loop_None (self : JobRun.t) idh items :
  forall acc w w',
    JobRun._get_step_inputs_loop self idh acc items w = (Ok None, w') ->
    exists n src site a t,
      In (n, src) items
      /\ JobRun._source self src idh = Ok (site, a)
      /\ JobRun.rest_retrieve_asset t (JobRun.target_store w) site a
         = Raise KeyError.
Proof.
  induction items as [|[n src] rest IH]; intros acc w w' H.
  - discriminate H.
  - cbn [JobRun._get_step_inputs_loop] in H.
    unfold py_bind at 1 in H. unfold py_lift in H.
    destruct (JobRun._source self src idh) as [[site a]|e] eqn:Es;
      [|discriminate H].
    unfold py_bind at 1, py_try_except, py_bind at 1, JobRun.retrieve_asset
      in H.
    destruct (JobRun.rest_retrieve_asset (JobRun.now w)
                (JobRun.target_store w) site a) as [asset|e] eqn:Er.
    + unfold py_bind, py_lift, py_ret in H.
      destruct asset as [i d m|i f m]; cbn [Asset.data exn_eqb] in H.
      * apply IH in H as (n' & src' & site' & a' & t & Hin & Hs & Hr).
        exists n', src', site', a', t. split; [by right|]. by split.
      * discriminate H.
    + destruct e; try discriminate H.
      exists n, src, site, a, (JobRun.now w). split; [by left|]. by split.
Qed.

(** A [KeyError] from the retrieval of an input is caught: the method
    returns [None] and raises nothing. *)
Lemma get_step_inputs_not_found (self : JobRun.t) idh n src rest acc w site a :
  JobRun._source self src idh = Ok (site, a) ->
  JobRun.rest_retrieve_asset (JobRun.now w) (JobRun.target_store w) site a
    = Raise KeyError ->
  JobRun._get_step_inputs_loop self idh acc ((n, src) :: rest) w
    = (Ok None, JobRun.tick w).
Proof.
  intros Hs Hr. cbn [JobRun._get_step_inputs_loop].
  unfold py_bind at 1. unfold py_lift. rewrite Hs.
  unfold py_bind at 1, py_try_except, py_bind at 1, JobRun.retrieve_asset.
  rewrite Hr. reflexivity.
Qed.

(** The same with the missing input anywhere among the inputs: the
    inputs before it are retrieved, the [KeyError] of this one is caught,
    and the method returns [None]. *)
Lemma get_step_inputs_loop_not_yet (self : JobRun.t) idh items :
  forall acc w,
    JobRun.not_yet_available self idh (JobRun.target_store w) (JobRun.now w)
      items ->
    exists w1,
      JobRun._get_step_inputs_loop self idh acc items w = (Ok None, w1)
      /\ JobRun.target_store w1 = JobRun.target_store w
      /\ JobRun.log w1 = JobRun.log w.
Proof.
  induction items as [|[n src] rest IH]; intros acc w H; [destruct H|].
  cbn [JobRun.not_yet_available] in H.
  destruct H as (site & a & Hs & [Hr|(asset & d & Hr & Hd & Hrest)]).
  - exists (JobRun.tick w).
    split; [exact (get_step_inputs_not_found self idh n src rest acc w
                     site a Hs Hr) | by split].
  - cbn [JobRun._get_step_inputs_loop].
    unfold py_bind at 1. unfold py_lift at 1. rewrite Hs.
    unfold py_bind at 1, py_try_except, py_bind at 1, JobRun.retrieve_asset.
    rewrite Hr. unfold py_bind at 1, py_lift at 1. rewrite Hd.
    unfold py_ret at 1.
    destruct (IH (acc ++ [(n, d)])%list (JobRun.tick w) Hrest)
      as (w1 & H1 & Hst & Hl).
    exists w1. split; [exact H1 | by split].
Qed.

(** And only then. *)
Lemma get_step_inputs_loop_None_inv (self : JobRun.t) idh items :
  forall acc w w1,
    JobRun._get_step_inputs_loop self idh acc items w = (Ok None, w1) ->
    JobRun.not_yet_available self idh (JobRun.target_store w) (JobRun.now w)
      items.
Proof.
  induction items as [|[n src] rest IH]; intros acc w w1 H.
  - discriminate H.
  - cbn [JobRun._get_step_inputs_loop] in H.
    unfold py_bind at 1 in H. unfold py_lift at 1 in H.
    destruct (JobRun._source self src idh) as [[site a]|e] eqn:Es;
      [|discriminate H].
    unfold py_bind at 1, py_try_except, py_bind at 1, JobRun.retrieve_asset
      in H.
    cbn [JobRun.not_yet_available]. exists site, a. split; [exact Es|].
    destruct (JobRun.rest_retrieve_asset (JobRun.now w)
                (JobRun.target_store w) site a) as [asset|e] eqn:Er.
    + unfold py_bind at 1, py_lift at 1 in H.
      destruct (Asset.data asset) as [d|e] eqn:Ed.
      * unfold py_ret at 1 in H. apply IH in H.
        right. by exists asset, d.
      * destruct asset; [discriminate Ed|]. injection Ed as <-.
        discriminate H.
    + destruct e; try discriminate H. by left.
Qed.

Lemma retrieve_compute_asset_frame i (w : JobRun.world Any) r w' :
  JobRun._retrieve_compute_asset i w = (r, w') ->
  JobRun.target_store w' = JobRun.target_store w
  /\ JobRun.log w' = JobRun.log w.
Proof.
  unfold JobRun._retrieve_compute_asset, py_bind, py_lift,
    JobRun.retrieve_asset, py_raise, py_ret.
  destruct (Identifier.location i) as [loc|e];
    [|intros H; injection H as _ <-; by split].
  destruct (JobRun.rest_retrieve_asset _ _ loc i) as [asset|e];
    [|intros H; injection H as _ <-; by split].
  destruct (negb (Asset.is_compute asset));
    intros H; injection H as _ <-; by split.
Qed.

(** A pass that reaches its end has stored nothing and executed
    nothing. *)
Lemma scan_no_progress_frame (self : JobRun.t) idh steps :
  forall skipped w w',
    JobRun.scan self idh skipped steps w = (Ok None, w') ->
    JobRun.target_store w' = JobRun.target_store w
    /\ JobRun.log w' = JobRun.log w.
Proof.
  induction steps as [|step rest IH]; intros skipped w w' H.
  - injection H as <-. by split.
  - cbn [JobRun.scan] in H. unfold py_bind at 1 in H.
    destruct (JobRun._get_step_inputs self step idh w) as [[inputs|e] w1]
      eqn:E1; [|discriminate H].
    apply get_step_inputs_loop_frame in E1 as [Hs1 Hl1].
    unfold py_bind at 1 in H.
    destruct (JobRun._retrieve_compute_asset
                (WorkflowStep.compute_asset_id step) w1) as [[ca|e] w2]
      eqn:E2; [|discriminate H].
    apply retrieve_compute_asset_frame in E2 as [Hs2 Hl2].
    destruct inputs as [inputs|].
    + unfold py_bind in H.
      destruct (JobRun.execute_step self idh step ca inputs w2)
        as [[[]|e] w3]; discriminate H.
    + apply IH in H as [Hs3 Hl3]. split; congruence.
Qed.

(** While every step to do is blocked, a pass reaches its end. *)
Lemma scan_blocked (self : JobRun.t) idh steps :
  forall skipped w,
    (forall step, In step steps ->
       JobRun.blocked self idh (JobRun.target_store w) step) ->
    exists w',
      JobRun.scan self idh skipped steps w = (Ok None, w')
      /\ JobRun.target_store w' = JobRun.target_store w
      /\ JobRun.log w' = JobRun.log w.
Proof.
  induction steps as [|step rest IH]; intros skipped w H.
  - exists w. by split.
  - destruct (H step (or_introl eq_refl)) as (Hin & loc & Hloc & Hca).
    destruct (get_step_inputs_loop_not_yet self idh
                (WorkflowStep.inputs step) [] w (Hin (JobRun.now w)))
      as (w1 & H1 & Hst1 & Hl1).
    destruct (Hca (JobRun.now w1)) as (ca & Hr & Hc).
    assert (JobRun._retrieve_compute_asset
              (WorkflowStep.compute_asset_id step) w1
            = (Ok ca, JobRun.tick w1)) as H2.
    { unfold JobRun._retrieve_compute_asset, py_bind, py_lift,
        JobRun.retrieve_asset.
      rewrite Hloc, Hst1, Hr, Hc. reflexivity. }
    destruct (IH (skipped ++ [step])%list (JobRun.tick w1))
      as (w' & H3 & Hst3 & Hl3).
    { intros s Hs. cbn [JobRun.tick JobRun.target_store]. rewrite Hst1.
      apply H. by right. }
    exists w'. split.
    + cbn [JobRun.scan]. unfold py_bind at 1.
      unfold JobRun._get_step_inputs. rewrite H1.
      unfold py_bind at 1. rewrite H2. exact H3.
    + cbn [JobRun.tick JobRun.target_store JobRun.log] in Hst3, Hl3.
      split; congruence.
Qed.

(** So the loop polls for as long as it is given fuel. *)
Lemma while_blocked (self : JobRun.t) idh steps_to_do :
  steps_to_do <> [] ->
  forall fuel w,
    (forall step, In step steps_to_do ->
       JobRun.blocked self idh (JobRun.target_store w) step) ->
    exists w',
      JobRun.while_steps_to_do self fuel idh steps_to_do w
        = (Ok (Polling steps_to_do), w')
      /\ JobRun.target_store w' = JobRun.target_store w
      /\ JobRun.log w' = (JobRun.log w ++ repeat Slept fuel)%list.
Proof.
  intros Hne. destruct steps_to_do as [|s l]; [done|].
  induction fuel as [|fuel IH]; intros w H.
  - exists w. cbn [repeat]. rewrite app_nil_r. by split.
  - destruct (scan_blocked self idh (s :: l) [] w H) as (w1 & H1 & Hst & Hl).
    destruct (IH (JobRun.slept w1)) as (w' & H2 & Hst2 & Hl2).
    { intros step Hin. cbn [JobRun.slept JobRun.target_store]. rewrite Hst.
      by apply H. }
    exists w'. split.
    + cbn [JobRun.while_steps_to_do]. unfold py_bind at 1. rewrite H1.
      unfold py_bind at 1. rewrite sleep_unfold. exact H2.
    + cbn [JobRun.slept JobRun.target_store JobRun.log] in Hst2, Hl2.
      split; [congruence|].
      rewrite Hl2, Hl, <- app_assoc. reflexivity.
Qed.

End JobRunEffects.

Section SaveOutputs.
Context {Any : Type} {JM : JobMethods}.

Lemma target_store_store_unfold (asset : Asset.t Any) (w : JobRun.world Any) :
  JobRun.target_store_store asset w =
  match AssetStore._assets (JobRun.target_store w) !! Asset.id asset with
  | Some _ => (Raise KeyError, w)
  | None =>
      (Ok tt,
       JobRun.mkWorld
         (AssetStore.mk
            (<[Asset.id asset := asset]>
               (AssetStore._assets (JobRun.target_store w))))
         (JobRun.now w) (JobRun.log w))
  end.
Proof.
  unfold JobRun.target_store_store. rewrite store_unfold.
  destruct (AssetStore._assets (JobRun.target_store w) !! Asset.id asset);
    [|reflexivity].
  by destruct w.
Qed.

Lemma save_outputs_spec idh step step_subjob (outputs : bundle Any) :
  forall w w',
    JobRun.save_outputs idh step step_subjob outputs w = (Ok tt, w') ->
    (JobRun.now w' = JobRun.now w /\ JobRun.log w' = JobRun.log w)
    /\ (forall k a,
          AssetStore._assets (JobRun.target_store w) !! k = Some a ->
          AssetStore._assets (JobRun.target_store w') !! k = Some a)
    /\ (forall o v, In (o, v) outputs ->
          exists h,
            idh !! dotted (WorkflowStep.name step) o = Some h
            /\ AssetStore._assets (JobRun.target_store w') !! ("result:" ++ h)
               = Some (JobRun.result_asset step step_subjob o v h))
    /\ (forall k a,
          AssetStore._assets (JobRun.target_store w') !! k = Some a ->
          AssetStore._assets (JobRun.target_store w) !! k = Some a
          \/ exists o v h,
               In (o, v) outputs
               /\ idh !! dotted (WorkflowStep.name step) o = Some h
               /\ k = "result:" ++ h
               /\ a = JobRun.result_asset step step_subjob o v h).
Proof.
  induction outputs as [|[o v] rest IH]; intros w w' H.
  - injection H as <-. repeat split; auto. intros o v [].
  - cbn [JobRun.save_outputs] in H. unfold py_bind at 1, py_lift in H.
    destruct (getitem idh (dotted (WorkflowStep.name step) o)) as [h|e]
      eqn:Eh; [|discriminate H].
    apply getitem_Ok in Eh.
    unfold py_bind at 1 in H.
    destruct (Identifier.from_id_hash h) as [i|e] eqn:Ei; [|discriminate H].
    apply new_Ok in Ei. subst i.
    unfold py_bind at 1 in H. rewrite target_store_store_unfold in H.
    cbn [Asset.id] in H.
    destruct (AssetStore._assets (JobRun.target_store w) !! ("result:" ++ h))
      as [old|] eqn:Eold; [discriminate H|].
    apply IH in H as ([Hn Hl] & Hkeep & Hout & Hnew).
    cbn [JobRun.target_store JobRun.now JobRun.log AssetStore._assets]
      in Hn, Hl, Hkeep, Hnew.
    repeat apply conj; auto.
    + intros k a Hk. apply Hkeep.
      rewrite lookup_insert_ne; [exact Hk|]. intros <-. congruence.
    + intros o' v' [Heq|Hin].
      * injection Heq as <- <-. exists h. split; [exact Eh|].
        apply Hkeep. apply lookup_insert_eq.
      * exact (Hout o' v' Hin).
    + intros k a Hk. destruct (Hnew k a Hk) as [Hw|(o' & v' & h' & Hin & R)].
      * destruct (decide (k = "result:" ++ h)) as [->|Hne].
        -- rewrite lookup_insert_eq in Hw. injection Hw as <-.
           right. exists o, v, h. repeat split; auto. by left.
        -- rewrite lookup_insert_ne in Hw by congruence. by left.
      * right. exists o', v', h'. split; [by right | exact R].
Qed.

End SaveOutputs.

(** When the body of [if inputs is not None:] runs to its end, the
    compute asset produced a bundle of outputs, each of them is in the
    target store as the result asset of its item, and the store differs
    from the one before by these assets only. *)
Lemma execute_step_inv {Any : Type} {JM : JobMethods} (self : JobRun.t)
    (idh : gmap string string) (step : WorkflowStep.t)
    (compute_asset : Asset.t Any) (inputs : bundle Any)
    (w w' : JobRun.world Any) :
  JobRun.execute_step self idh step compute_asset inputs w = (Ok tt, w') ->
  exists outputs,
    Asset.run compute_asset inputs = Ok outputs
    /\ (forall o v, In (o, v) outputs ->
          exists h,
            idh !! dotted (WorkflowStep.name step) o = Some h
            /\ AssetStore._assets (JobRun.target_store w') !! ("result:" ++ h)
               = Some (JobRun.result_asset step
                         (subjob (JobRun._job self) step) o v h))
    /\ (forall k a,
          AssetStore._assets (JobRun.target_store w) !! k = Some a ->
          AssetStore._assets (JobRun.target_store w') !! k = Some a)
    /\ (forall k a,
          AssetStore._assets (JobRun.target_store w') !! k = Some a ->
          AssetStore._assets (JobRun.target_store w) !! k = Some a
          \/ exists o v h,
               In (o, v) outputs
               /\ idh !! dotted (WorkflowStep.name step) o = Some h
               /\ k = "result:" ++ h
               /\ a = JobRun.result_asset step
                        (subjob (JobRun._job self) step) o v h).
Proof.
  intros H. unfold JobRun.execute_step in H.
  unfold py_bind at 1, JobRun.emit, py_modify in H.
  unfold py_bind at 1, py_lift in H.
  destruct (Asset.run compute_asset inputs) as [outputs|e]; [|discriminate H].
  exists outputs. split; [reflexivity|].
  apply save_outputs_spec in H as (_ & Hkeep & Hout & Hnew).
  cbn [JobRun.target_store] in Hkeep, Hnew.
  repeat apply conj; auto.
Qed.

(** C8, as the code has it.  Take an attempt at a step in which the
    retrieval of one of the inputs raises [KeyError], the inputs before
    it having been retrieved.  Then [_get_step_inputs] catches the error
    and returns [None], with the target store and the log as they were;
    and when the compute asset of the step, which the loop fetches on
    every attempt before it looks at the inputs, is retrieved, the
    attempt ends there, with nothing stored and nothing executed, and the
    pass goes on to the next step with this step still among the steps to
    do.  [_get_step_inputs] returns [None] in no other case.  A pass that
    reaches its end without progress has left the target store and the
    log alone, and the runner then sleeps and scans the same steps again.
    And for as long as every step to do has a missing input and its
    compute asset is served, the loop does nothing but sleep and scan:
    it raises nothing, stores nothing, and keeps all its steps to do. *)
Theorem unavailable_input_postpones_the_step
    (Any : Type) (PE : PolicyEvaluator) (JM : JobMethods)
    (RC : JobRun.SiteRestClient Any) (self : JobRun.t)
    (idh : gmap string string) :
  (forall step (w : JobRun.world Any),
      JobRun.not_yet_available self idh (JobRun.target_store w)
        (JobRun.now w) (WorkflowStep.inputs step) ->
      exists w1,
        JobRun._get_step_inputs self step idh w = (Ok None, w1)
        /\ JobRun.target_store w1 = JobRun.target_store w
        /\ JobRun.log w1 = JobRun.log w
        /\ forall ca w2,
             JobRun._retrieve_compute_asset
               (WorkflowStep.compute_asset_id step) w1 = (Ok ca, w2) ->
             JobRun.target_store w2 = JobRun.target_store w
             /\ JobRun.log w2 = JobRun.log w
             /\ forall skipped rest,
                  JobRun.scan self idh skipped (step :: rest) w
                  = JobRun.scan self idh (skipped ++ [step]) rest w2)
  /\ (forall step (w w1 : JobRun.world Any),
        JobRun._get_step_inputs self step idh w = (Ok None, w1) ->
        JobRun.not_yet_available self idh (JobRun.target_store w)
          (JobRun.now w) (WorkflowStep.inputs step))
  /\ (forall steps_to_do (w w' : JobRun.world Any) fuel,
        steps_to_do <> [] ->
        JobRun.scan self idh [] steps_to_do w = (Ok None, w') ->
        JobRun.target_store w' = JobRun.target_store w
        /\ JobRun.log w' = JobRun.log w
        /\ JobRun.while_steps_to_do self (S fuel) idh steps_to_do w
           = JobRun.while_steps_to_do self fuel idh steps_to_do
               (JobRun.slept w'))
  /\ (forall steps_to_do (w : JobRun.world Any) fuel,
        steps_to_do <> [] ->
        (forall step, In step steps_to_do ->
           JobRun.blocked self idh (JobRun.target_store w) step) ->
        exists w',
          JobRun.while_steps_to_do self fuel idh steps_to_do w
            = (Ok (Polling steps_to_do), w')
          /\ JobRun.target_store w' = JobRun.target_store w
          /\ JobRun.log w' = (JobRun.log w ++ repeat Slept fuel)%list).
Proof.
  split; [|split; [|split]].
  - intros step w H.
    destruct (get_step_inputs_loop_not_yet self idh
                (WorkflowStep.inputs step) [] w H) as (w1 & H1 & Hs1 & Hl1).
    exists w1. split; [exact H1|]. split; [exact Hs1|]. split; [exact Hl1|].
    intros ca w2 H2.
    pose proof (retrieve_compute_asset_frame _ _ _ _ H2) as [Hs2 Hl2].
    split; [congruence|]. split; [congruence|].
    intros skipped rest. cbn [JobRun.scan].
    unfold py_bind at 1. unfold JobRun._get_step_inputs. rewrite H1.
    unfold py_bind at 1. rewrite H2. reflexivity.
  - intros step w w1 H.
    exact (get_step_inputs_loop_None_inv self idh _ _ _ _ H).
  - intros steps_to_do w w' fuel Hne H.
    pose proof (scan_no_progress_frame _ _ _ _ _ _ H) as [Hs Hl].
    split; [exact Hs|]. split; [exact Hl|].
    destruct steps_to_do as [|step rest]; [congruence|].
    cbn [JobRun.while_steps_to_do].
    unfold py_bind at 1. rewrite H.
    unfold py_bind at 1. rewrite sleep_unfold. reflexivity.
  - intros steps_to_do w fuel Hne H.
    exact (while_blocked self idh steps_to_do Hne fuel w H).
Qed.

Lemma unavailable_input_postpones_the_step_witness :
  let self := JobRun.init Demo.s1 (Demo.submission Demo.s1) in
  let idh := id_hashes Demo.job in
  (exists w1,
     JobRun._get_step_inputs (RC := Demo.input_pending) self Demo.step_A idh
       Demo.empty_world = (Ok None, w1)
     /\ JobRun.target_store w1 = JobRun.target_store Demo.empty_world
     /\ JobRun.log w1 = JobRun.log Demo.empty_world)
  /\ (exists w',
        JobRun.while_steps_to_do (RC := Demo.input_pending) self 3 idh
          [Demo.step_A] Demo.empty_world
        = (Ok (Polling [Demo.step_A]), w')
        /\ JobRun.target_store w' = JobRun.target_store Demo.empty_world
        /\ JobRun.log w' = [Slept; Slept; Slept])
  /\ JobRun.run (RC := Demo.input_pending) self 3 Demo.empty_world
     = (Ok (Polling [Demo.step_A]),
        JobRun.mkWorld AssetStore.init 9 [Slept; Slept; Slept]).
Proof.
  intros self idh.
  destruct (unavailable_input_postpones_the_step (list Z) Demo.policy
              Demo.job_methods Demo.input_pending self idh)
    as (Hstep & _ & _ & Hloop).
  assert (forall t,
            JobRun.not_yet_available (RC := Demo.input_pending) self idh
              (JobRun.target_store Demo.empty_world) t
              (WorkflowStep.inputs Demo.step_A)) as Hmissing.
  { intros t. exists Demo.s1, Demo.x_id.
    split; [vm_compute; reflexivity | left; reflexivity]. }
  split; [|split].
  - destruct (Hstep Demo.step_A Demo.empty_world (Hmissing 0))
      as (w1 & H1 & Hs1 & Hl1 & _).
    exists w1. split; [exact H1 | by split].
  - apply (Hloop [Demo.step_A] Demo.empty_world 3); [discriminate|].
    intros step [<-|[]]. split; [exact Hmissing|].
    exists Demo.s1. split; [vm_compute; reflexivity|].
    intros t. exists Demo.identity_asset. split; reflexivity.
  - vm_compute. reflexivity.
Defined.

(** C8 as the spec words it fails.  The input of step [A] is not yet
    available (its retrieval raises [KeyError] and [_get_step_inputs]
    answers [None]), and the job is aborted by the same pass, without any
    sleep: the retrieval of the step's compute asset, which precedes the
    test of the inputs, raises [KeyError] out of [run]. *)
Lemma unavailable_input_with_missing_compute_asset_aborts :
  let self := JobRun.init Demo.s1 (Demo.submission Demo.s1) in
  JobRun._is_legal self = Ok true
  /\ JobRun._get_step_inputs (RC := Demo.nobody_home) self Demo.step_A
       (id_hashes Demo.job) Demo.empty_world
     = (Ok None, JobRun.tick Demo.empty_world)
  /\ JobRun.run (RC := Demo.nobody_home) self 1 Demo.empty_world
     = (Raise KeyError, JobRun.tick (JobRun.tick Demo.empty_world))
  /\ JobRun.run (RC := Demo.nobody_home) self 5 Demo.empty_world
     = (Raise KeyError, JobRun.tick (JobRun.tick Demo.empty_world))
  /\ JobRun.log (JobRun.tick (JobRun.tick Demo.empty_world)) = [].
Proof. vm_compute. repeat split; reflexivity. Qed.

Lemma is_legal_checks_outputs_witness :
  let self := JobRun.init Demo.s1 (Demo.submission Demo.s1) in
  exists perms,
    calculate_permissions (JobRun._job self) = Ok perms
    /\ forall step,
         In step (map snd (Workflow.steps (JobRun._workflow self))) ->
         JobRun._sites self !! WorkflowStep.name step
           = Some (JobRun._this_site self) ->
         forall o, In o (WorkflowStep.outputs step) ->
           exists p, perms !! dotted (WorkflowStep.name step) o = Some p
                     /\ may_access p (JobRun._this_site self) = true.
Proof.
  intros self. apply (is_legal_checks_outputs self).
  vm_compute. reflexivity.
Defined.

Lemma new_accepts_any_charset_witness :
  Identifier.new "site:ns 1:s!" = Ok "site:ns 1:s!".
Proof.
  apply (new_accepts_any_charset "site:ns 1:s!" "site" 3);
    vm_compute; reflexivity.
Defined.

(** * Further properties of the code *)

(** ** Splitting and joining *)

Lemma split_not_nil (sep : ascii) (s : string) : split sep s <> [].
Proof.
  destruct s as [|c r]; cbn [split]; [discriminate|].
  destruct (Ascii.eqb c sep); [discriminate|].
  destruct (split sep r); discriminate.
Qed.

Lemma split_no_sep (sep : ascii) (s : string) :
  contains sep s = false -> split sep s = [s].
Proof.
  induction s as [|c r IH]; cbn [split contains]; [reflexivity|].
  destruct (Ascii.eqb c sep); cbn [orb]; [discriminate|].
  intros H. by rewrite (IH H).
Qed.

Lemma append_nil (s : string) : "" ++ s = s.
Proof. reflexivity. Qed.

Lemma append_cons (c : ascii) (r s : string) :
  String c r ++ s = String c (r ++ s).
Proof. reflexivity. Qed.

Lemma split_app (sep : ascii) (a b : string) :
  contains sep a = false ->
  split sep (a ++ String sep b) = a :: split sep b.
Proof.
  induction a as [|c r IH]; cbn [contains].
  - intros _. rewrite append_nil. cbn [split]. by rewrite Ascii.eqb_refl.
  - rewrite append_cons. cbn [split].
    destruct (Ascii.eqb c sep); cbn [orb]; [discriminate|].
    intros H. by rewrite (IH H).
Qed.

Lemma split_parts_no_sep (sep : ascii) (s : string) :
  forall p, In p (split sep s) -> contains sep p = false.
Proof.
  induction s as [|c r IH]; cbn [split]; intros p Hp.
  - destruct Hp as [<-|[]]. reflexivity.
  - destruct (Ascii.eqb c sep) eqn:E.
    + destruct Hp as [<-|Hp]; [reflexivity | by apply IH].
    + destruct (split sep r) as [|q qs] eqn:Es.
      * destruct Hp as [<-|[]]. cbn [contains]. by rewrite E.
      * destruct Hp as [<-|Hp].
        -- cbn [contains]. rewrite E. apply IH. by left.
        -- apply IH. by right.
Qed.

Lemma split_length_one (sep : ascii) (s : string) :
  length (split sep s) = 1 <-> contains sep s = false.
Proof.
  split; [|intros H; by rewrite split_no_sep].
  induction s as [|c r IH]; cbn [split contains]; [reflexivity|].
  destruct (Ascii.eqb c sep); cbn [orb].
  - pose proof (split_not_nil sep r).
    destruct (split sep r); [contradiction | discriminate].
  - pose proof (split_not_nil sep r).
    destruct (split sep r) as [|q qs]; [contradiction|].
    cbn [length] in *. exact IH.
Qed.

(** X3.  The parts of an identifier lose nothing: joined by colons they
    give the identifier back, there is at least one of them, and none of
    them contains a colon. *)
Theorem parts_join_round_trip (self : Identifier.t) :
  join ":" (Identifier.parts self) = self
  /\ Identifier.parts self <> []
  /\ forall p, In p (Identifier.parts self) -> contains ":" p = false.
Proof.
  unfold Identifier.parts. split; [|split].
  - induction self as [|c r IH]; [reflexivity|].
    cbn [split]. destruct (Ascii.eqb c ":") eqn:E.
    + apply Ascii.eqb_eq in E. subst c.
      pose proof (split_not_nil ":" r).
      destruct (split ":" r) as [|q qs]; [contradiction|].
      cbn [join]. cbn [join] in IH. rewrite IH. reflexivity.
    + pose proof (split_not_nil ":" r).
      destruct (split ":" r) as [|q qs]; [contradiction|].
      destruct qs as [|q' qs'].
      * cbn [join] in *. by rewrite IH.
      * cbn [join] in *. rewrite append_cons. by rewrite IH.
  - apply split_not_nil.
  - apply split_parts_no_sep.
Qed.

(** ** Identifiers *)

(** What a successful construction says about its argument. *)
Lemma new_inv (seq : string) (i : Identifier.t) :
  Identifier.new seq = Ok i ->
  seq = "*"
  \/ exists p0 len,
       index (split ":" seq) 0 = Ok p0
       /\ str_in p0 Identifier._kinds = true
       /\ Identifier._lengths !! p0 = Some len
       /\ length (split ":" seq) = len.
Proof.
  unfold Identifier.new.
  destruct (String.eqb seq "*") eqn:Estar; cbn [negb].
  { apply String.eqb_eq in Estar. by left. }
  destruct (index (split ":" seq) 0) as [p0|]; [|intros; discriminate].
  cbn [mbind result_bind].
  destruct (str_in p0 Identifier._kinds) eqn:Ek; cbn [negb];
    [|intros; discriminate].
  destruct (getitem Identifier._lengths p0) as [len|] eqn:El;
    [|intros; discriminate].
  cbn [mbind result_bind].
  destruct (length (split ":" seq) =? len)%nat eqn:En; cbn [negb];
    [|intros; discriminate].
  intros _. right. exists p0, len. apply getitem_Ok in El.
  apply Nat.eqb_eq in En. auto.
Qed.

(** X4.  Construction rejects, with [ValueError], every string other
    than the wildcard whose first part is no known kind, and every string
    of a known kind whose number of parts is not that kind's. *)
Theorem new_rejects_kind_and_arity (seq p0 : string) :
  seq <> "*" ->
  index (split ":" seq) 0 = Ok p0 ->
  (str_in p0 Identifier._kinds = false ->
   Identifier.new seq = Raise ValueError)
  /\ (forall len,
        Identifier._lengths !! p0 = Some len ->
        length (split ":" seq) <> len ->
        Identifier.new seq = Raise ValueError).
Proof.
  intros Hstar H0. apply String.eqb_neq in Hstar.
  unfold Identifier.new. rewrite Hstar, H0. cbn [negb mbind result_bind].
  split.
  - intros ->. reflexivity.
  - intros len Hl Hn.
    destruct (str_in p0 Identifier._kinds); [|reflexivity]. cbn [negb].
    rewrite (getitem_Some _ _ _ Hl). cbn [mbind result_bind].
    apply Nat.eqb_neq in Hn. rewrite Hn. reflexivity.
Qed.

Lemma new_rejects_kind_and_arity_witness :
  Identifier.new "user:ns1:bob" = Raise ValueError
  /\ Identifier.new "asset:ns1:x" = Raise ValueError.
Proof.
  split.
  - apply (proj1 (new_rejects_kind_and_arity "user:ns1:bob" "user"
                    ltac:(discriminate) eq_refl)).
    vm_compute. reflexivity.
  - apply (proj2 (new_rejects_kind_and_arity "asset:ns1:x" "asset"
                    ltac:(discriminate) eq_refl) 5).
    + vm_compute. reflexivity.
    + vm_compute. discriminate.
Defined.

(** X5.  [from_id_hash] yields the identifier [result:<hash>] exactly
    for the hashes without a colon; a hash with a colon gives
    [ValueError]. *)
Theorem from_id_hash_iff_no_colon (id_hash : string) :
  (contains ":" id_hash = false ->
   Identifier.from_id_hash id_hash = Ok ("result:" ++ id_hash))
  /\ (contains ":" id_hash = true ->
      Identifier.from_id_hash id_hash = Raise ValueError).
Proof.
  assert (split ":" ("result:" ++ id_hash) = "result" :: split ":" id_hash)
    as Hsplit by (apply (split_app ":" "result" id_hash); reflexivity).
  split; intros H.
  - unfold Identifier.from_id_hash.
    apply (new_accepts_any_charset _ "result" 2).
    + by rewrite Hsplit.
    + reflexivity.
    + vm_compute. reflexivity.
    + rewrite Hsplit. cbn [length]. f_equal. by apply split_length_one.
  - unfold Identifier.from_id_hash.
    assert ("result:" ++ id_hash <> "*") as Hstar by discriminate.
    apply (proj2 (new_rejects_kind_and_arity _ "result" Hstar
                    ltac:(by rewrite Hsplit)) 2).
    + vm_compute. reflexivity.
    + rewrite Hsplit. cbn [length]. intros Hl. injection Hl as Hl.
      apply split_length_one in Hl. congruence.
Qed.

Lemma from_id_hash_iff_no_colon_witness :
  Identifier.from_id_hash "0a1b" = Ok "result:0a1b"
  /\ Identifier.from_id_hash "0a:1b" = Raise ValueError.
Proof.
  split.
  - apply (proj1 (from_id_hash_iff_no_colon "0a1b")). reflexivity.
  - apply (proj2 (from_id_hash_iff_no_colon "0a:1b")). reflexivity.
Defined.

Lemma kinds_cases (p0 : string) :
  str_in p0 Identifier._kinds = true ->
  p0 = "party" \/ p0 = "party_collection" \/ p0 = "site" \/ p0 = "asset"
  \/ p0 = "asset_collection" \/ p0 = "result".
Proof.
  unfold str_in, Identifier._kinds. cbn [existsb].
  rewrite !orb_true_iff, !String.eqb_eq. intuition congruence.
Qed.

(** X6.  [location] of a constructed [asset:] identifier never raises:
    the identifier has five parts, and the answer is the identifier
    [site:<site_ns>:<site_name>] made of the last two, which the
    constructor accepts.  For every other first part [location] raises
    [RuntimeError]. *)
Theorem location_of_asset_is_its_site :
  (forall seq,
      Identifier.new seq = Ok seq ->
      index (Identifier.parts seq) 0 = Ok "asset" ->
      exists ns name site_ns site_name,
        Identifier.parts seq = ["asset"; ns; name; site_ns; site_name]
        /\ Identifier.location seq
           = Ok ("site:" ++ site_ns ++ ":" ++ site_name)
        /\ Identifier.parts ("site:" ++ site_ns ++ ":" ++ site_name)
           = ["site"; site_ns; site_name])
  /\ (forall seq p0,
        index (Identifier.parts seq) 0 = Ok p0 ->
        p0 <> "asset" ->
        Identifier.location seq = Raise RuntimeError).
Proof.
  split.
  - intros seq Hnew H0. unfold Identifier.parts in *.
    destruct (new_inv _ _ Hnew) as [->|(p0 & len & Hp0 & _ & Hl & Hn)];
      [discriminate H0|].
    rewrite H0 in Hp0. injection Hp0 as <-.
    vm_compute in Hl. injection Hl as <-.
    pose proof (split_parts_no_sep ":" seq) as Hno.
    destruct (split ":" seq) as [|q0 [|q1 [|q2 [|q3 [|q4 [|q5 qs]]]]]]
      eqn:Es; try discriminate Hn.
    injection H0 as ->.
    exists q1, q2, q3, q4. split; [reflexivity|].
    assert (split ":" ("site:" ++ q3 ++ ":" ++ q4) = ["site"; q3; q4])
      as Hsplit.
    { change ("site:" ++ q3 ++ ":" ++ q4)
        with ("site" ++ String ":" (q3 ++ String ":" q4)).
      rewrite (split_app ":" "site") by reflexivity.
      rewrite (split_app ":" q3) by (apply Hno; cbn; auto).
      rewrite split_no_sep by (apply Hno; cbn; auto 6). reflexivity. }
    split; [|exact Hsplit].
    unfold Identifier.location, Identifier.parts. rewrite Es.
    cbn [index lookup list_lookup mbind result_bind String.eqb Ascii.eqb
         Bool.eqb negb].
    apply (new_accepts_any_charset _ "site" 3).
    + by rewrite Hsplit.
    + reflexivity.
    + vm_compute. reflexivity.
    + by rewrite Hsplit.
  - intros seq p0 H0 Hne. unfold Identifier.location. rewrite H0.
    cbn [mbind result_bind]. apply String.eqb_neq in Hne. by rewrite Hne.
Qed.

Lemma location_of_asset_is_its_site_witness :
  (exists ns name site_ns site_name,
     Identifier.parts Demo.x_id = ["asset"; ns; name; site_ns; site_name]
     /\ Identifier.location Demo.x_id
        = Ok ("site:" ++ site_ns ++ ":" ++ site_name)
     /\ Identifier.parts ("site:" ++ site_ns ++ ":" ++ site_name)
        = ["site"; site_ns; site_name])
  /\ Identifier.location "result:0a1b" = Raise RuntimeError.
Proof.
  split.
  - apply (proj1 location_of_asset_is_its_site Demo.x_id);
      vm_compute; reflexivity.
  - apply (proj2 location_of_asset_is_its_site "result:0a1b" "result").
    + reflexivity.
    + discriminate.
Defined.

(** X7.  [namespace] of a constructed identifier other than the wildcard
    raises [RuntimeError] for a [result:] identifier and returns the
    second part for every other kind, never an [IndexError]; on the
    wildcard, which has one part only, it raises [IndexError]. *)
Theorem namespace_defined_except_for_results :
  (forall seq,
      Identifier.new seq = Ok seq ->
      seq <> "*" ->
      exists p0,
        index (Identifier.parts seq) 0 = Ok p0
        /\ (p0 = "result" -> Identifier.namespace seq = Raise RuntimeError)
        /\ (p0 <> "result" ->
            exists ns, index (Identifier.parts seq) 1 = Ok ns
                       /\ Identifier.namespace seq = Ok ns))
  /\ Identifier.new "*" = Ok "*"
  /\ Identifier.namespace "*" = Raise IndexError.
Proof.
  split; [|split; reflexivity].
  intros seq Hnew Hstar. unfold Identifier.parts, Identifier.namespace.
  destruct (new_inv _ _ Hnew) as [->|(p0 & len & Hp0 & Hk & Hl & Hn)];
    [congruence|].
  exists p0. split; [exact Hp0|]. unfold Identifier.parts. rewrite Hp0.
  cbn [mbind result_bind]. split.
  - intros ->. reflexivity.
  - intros Hne. apply String.eqb_neq in Hne. rewrite Hne.
    assert (2 <= len) as Hlen.
    { destruct (kinds_cases _ Hk) as [-> | [-> | [-> | [-> | [-> | ->]]]]];
        vm_compute in Hl; injection Hl as <-; lia. }
    destruct (split ":" seq) as [|q0 [|q1 qs]]; cbn [length] in Hn;
      try lia.
    exists q1. split; reflexivity.
Qed.

Lemma namespace_defined_except_for_results_witness :
  exists p0,
    index (Identifier.parts Demo.x_id) 0 = Ok p0
    /\ (p0 = "result" -> Identifier.namespace Demo.x_id = Raise RuntimeError)
    /\ (p0 <> "result" ->
        exists ns, index (Identifier.parts Demo.x_id) 1 = Ok ns
                   /\ Identifier.namespace Demo.x_id = Ok ns).
Proof.
  apply (proj1 namespace_defined_except_for_results Demo.x_id).
  - vm_compute. reflexivity.
  - discriminate.
Defined.

(** ** The asset store, over histories of calls *)

(** X8.  Storing and retrieving compose: after a successful [store] of
    an asset, [retrieve] on its identifier answers with that asset when
    the requester has access (and with the error of the permission check
    otherwise), while before the call it raised [KeyError]; on every other
    identifier [retrieve] answers as it did before the call. *)
Theorem store_then_retrieve
    (Any : Type) (PE : PolicyEvaluator) (self self' : AssetStore.t Any)
    (asset : Asset.t Any) :
  AssetStore.store asset self = (Ok tt, self') ->
  (forall requester,
      fst (AssetStore.retrieve (Asset.id asset) requester self)
        = Raise KeyError
      /\ fst (AssetStore.retrieve (Asset.id asset) requester self')
         = match calculate_permissions (Metadata.job (Asset.metadata asset))
           with
           | Raise e => Raise e
           | Ok perms =>
               match perms !! Metadata.item (Asset.metadata asset) with
               | None => Raise KeyError
               | Some perm =>
                   if may_access perm requester then Ok asset
                   else Raise RuntimeError
               end
           end)
  /\ (forall asset_id requester,
        asset_id <> Asset.id asset ->
        fst (AssetStore.retrieve asset_id requester self')
          = fst (AssetStore.retrieve asset_id requester self)).
Proof.
  rewrite store_unfold.
  destruct (AssetStore._assets self !! Asset.id asset) as [old|] eqn:E;
    [discriminate|].
  intros H. injection H as <-. split.
  - intros requester. rewrite !retrieve_unfold. cbn [fst AssetStore._assets].
    rewrite E, lookup_insert_eq. split; reflexivity.
  - intros asset_id requester Hne. rewrite !retrieve_unfold.
    cbn [fst AssetStore._assets]. by rewrite lookup_insert_ne.
Qed.

Lemma store_then_retrieve_witness :
  let stored := AssetStore.store Demo.x_asset AssetStore.init in
  fst (AssetStore.retrieve (Any := list Z) Demo.x_id Demo.s1
         AssetStore.init)
    = Raise KeyError
  /\ fst (AssetStore.retrieve Demo.x_id Demo.s1 (snd stored))
     = Ok Demo.x_asset
  /\ fst (AssetStore.retrieve Demo.x_id "site:ns1:s3" (snd stored))
     = Raise RuntimeError.
Proof.
  intros stored.
  destruct (store_then_retrieve (list Z) Demo.policy AssetStore.init
              (snd stored) Demo.x_asset) as [Hthis _].
  { vm_compute. reflexivity. }
  split; [exact (proj1 (Hthis Demo.s1))|]. split.
  - exact (proj2 (Hthis Demo.s1)).
  - exact (proj2 (Hthis "site:ns1:s3")).
Defined.

Section StoreHistories.
Context {Any : Type}.

Lemma after_snoc (assets : list (Asset.t Any)) (a : Asset.t Any) :
  StoreCalls.after (assets ++ [a])
  = snd (AssetStore.store a (StoreCalls.after assets)).
Proof. unfold StoreCalls.after. by rewrite foldl_app. Qed.

(** What a history of [store] calls leaves in the store. *)
Lemma after_invariant (assets : list (Asset.t Any)) :
  (forall b, In b assets ->
     is_Some (AssetStore._assets (StoreCalls.after assets) !! Asset.id b))
  /\ (forall i a,
        AssetStore._assets (StoreCalls.after assets) !! i = Some a ->
        Asset.id a = i
        /\ exists before later,
             assets = (before ++ a :: later)%list
             /\ forall b, In b before -> Asset.id b <> i).
Proof.
  induction assets as [|x l [IHin IHout]] using rev_ind.
  - split; [intros b []|]. intros i a H. discriminate H.
  - rewrite after_snoc, store_unfold.
    destruct (AssetStore._assets (StoreCalls.after l) !! Asset.id x)
      as [old|] eqn:E; cbn [snd AssetStore._assets].
    + split.
      * intros b Hb. apply in_app_or in Hb as [Hb|[<-|[]]];
          [by apply IHin | by eexists].
      * intros i a H. destruct (IHout i a H) as (Hid & before & later & -> & Hb).
        split; [exact Hid|]. exists before, (later ++ [x])%list.
        split; [by rewrite <- app_assoc|exact Hb].
    + split.
      * intros b Hb. apply in_app_or in Hb as [Hb|[<-|[]]].
        -- destruct (IHin b Hb) as [c Hc].
           exists c. rewrite lookup_insert_ne; [exact Hc|]. congruence.
        -- rewrite lookup_insert_eq. by eexists.
      * intros i a H. destruct (decide (Asset.id x = i)) as [Heq|Hne].
        -- subst i. rewrite lookup_insert_eq in H. injection H as <-.
           split; [reflexivity|]. exists l, []. split; [reflexivity|].
           intros b Hb Hid. destruct (IHin b Hb) as [c Hc]. congruence.
        -- rewrite lookup_insert_ne in H by exact Hne.
           destruct (IHout i a H) as (Hid & before & later & -> & Hb).
           split; [exact Hid|]. exists before, (later ++ [x])%list.
           split; [by rewrite <- app_assoc|exact Hb].
Qed.

End StoreHistories.

(** X9.  After any history of [store] calls on a new store, an asset that
    [retrieve] returns for an identifier carries that identifier, and it
    is the first asset of the history that was stored under it: a later
    [store] of the same identifier never replaced it. *)
Theorem retrieved_asset_is_first_stored
    (Any : Type) (PE : PolicyEvaluator) (assets : list (Asset.t Any))
    (asset_id : Identifier.t) (requester : string) (asset : Asset.t Any) :
  fst (AssetStore.retrieve asset_id requester (StoreCalls.after assets))
    = Ok asset ->
  Asset.id asset = asset_id
  /\ exists before later,
       assets = (before ++ asset :: later)%list
       /\ forall b, In b before -> Asset.id b <> asset_id.
Proof.
  rewrite retrieve_unfold. cbn [fst]. intros H.
  destruct (AssetStore._assets (StoreCalls.after assets) !! asset_id)
    as [a|] eqn:E; [|discriminate H].
  destruct (calculate_permissions _) as [perms|]; [|discriminate H].
  destruct (perms !! _) as [perm|]; [|discriminate H].
  destruct (may_access perm requester); [|discriminate H].
  injection H as <-. by apply after_invariant.
Qed.

Lemma retrieved_asset_is_first_stored_witness :
  let other := Asset.DataAsset Demo.x_id [7]%Z (Metadata.mk Demo.job "x") in
  Asset.id Demo.x_asset = Demo.x_id
  /\ exists before later,
       [Demo.identity_asset; Demo.x_asset; other]
         = (before ++ Demo.x_asset :: later)%list
       /\ forall b, In b before -> Asset.id b <> Demo.x_id.
Proof.
  intros other.
  apply (retrieved_asset_is_first_stored (list Z) Demo.policy
           [Demo.identity_asset; Demo.x_asset; other] Demo.x_id Demo.s1).
  vm_compute. reflexivity.
Defined.

Section PocStoreHistories.
Context {Any : Type}.

Lemma poc_after_snoc name (calls : list (string * Any * Poc.Metadata.t)) c :
  StoreCalls.poc_after name (calls ++ [c])
  = snd (Poc.AssetStore.store c.1.1 c.1.2 c.2
           (StoreCalls.poc_after name calls)).
Proof. unfold StoreCalls.poc_after. by rewrite foldl_app. Qed.

Lemma poc_after_invariant name (calls : list (string * Any * Poc.Metadata.t)) :
  (forall n d,
     Poc.AssetStore._assets (StoreCalls.poc_after name calls) !! n = Some d ->
     exists m,
       Poc.AssetStore._metadata (StoreCalls.poc_after name calls) !! n
         = Some m
       /\ In (n, d, m) calls)
  /\ (forall n m,
        Poc.AssetStore._metadata (StoreCalls.poc_after name calls) !! n
          = Some m ->
        is_Some
          (Poc.AssetStore._assets (StoreCalls.poc_after name calls) !! n)).
Proof.
  induction calls as [|[[k v] md] l [IHa IHm]] using rev_ind.
  - split; intros n x H; discriminate H.
  - rewrite poc_after_snoc, poc_store_unfold. cbn [fst snd].
    destruct (Poc.AssetStore._assets (StoreCalls.poc_after name l) !! k)
      as [old|] eqn:E;
      cbn [snd Poc.AssetStore._assets Poc.AssetStore._metadata].
    + split.
      * intros n d H. destruct (IHa n d H) as (m & Hm & Hin).
        exists m. split; [exact Hm|]. apply in_or_app. by left.
      * exact IHm.
    + split.
      * intros n d H. destruct (decide (k = n)) as [->|Hne].
        -- rewrite lookup_insert_eq in H. injection H as <-.
           exists md. rewrite lookup_insert_eq. split; [reflexivity|].
           apply in_or_app. right. by left.
        -- rewrite lookup_insert_ne in H by exact Hne.
           destruct (IHa n d H) as (m & Hm & Hin).
           exists m. rewrite lookup_insert_ne by exact Hne.
           split; [exact Hm|]. apply in_or_app. by left.
      * intros n m H. destruct (decide (k = n)) as [->|Hne].
        -- rewrite lookup_insert_eq. by eexists.
        -- rewrite lookup_insert_ne in H by exact Hne.
           rewrite lookup_insert_ne by exact Hne. by apply (IHm n m).
Qed.

End PocStoreHistories.

(** X10.  The two dicts of the earlier store stay in step: after any
    history of [store] calls on a new store, a name has data exactly when
    it has metadata, and what [retrieve] returns for a name is the data
    and the metadata of one and the same [store] call of the history. *)
Theorem poc_store_keeps_data_with_metadata
    (Any : Type) (PM : Poc.PolicyManager) (name : string)
    (calls : list (string * Any * Poc.Metadata.t)) :
  (forall n,
      is_Some (Poc.AssetStore._assets (StoreCalls.poc_after name calls) !! n)
      <-> is_Some
            (Poc.AssetStore._metadata (StoreCalls.poc_after name calls) !! n))
  /\ (forall n requester data metadata,
        fst (Poc.AssetStore.retrieve n requester
               (StoreCalls.poc_after name calls)) = Ok (data, metadata) ->
        In (n, data, metadata) calls).
Proof.
  destruct (poc_after_invariant name calls) as [Ha Hm]. split.
  - intros n. split.
    + intros [d Hd]. destruct (Ha n d Hd) as (m & Hmd & _). by eexists.
    + intros [m Hmd]. by apply (Hm n m).
  - intros n requester data metadata H.
    rewrite poc_retrieve_unfold in H. cbn [fst] in H.
    destruct (Poc.AssetStore._assets (StoreCalls.poc_after name calls) !! n)
      as [d|] eqn:Ed; [|discriminate H].
    destruct (Ha n d Ed) as (m & Hmd & Hin). rewrite Hmd in H.
    destruct (Poc.calculate_permissions _) as [perms|]; [|discriminate H].
    destruct (perms !! _) as [perm|]; [|discriminate H].
    destruct (Poc.may_access perm requester); [|discriminate H].
    injection H as <- <-. exact Hin.
Qed.

Lemma poc_store_keeps_data_with_metadata_witness :
  In ("k", PocDemo.VInt 7, Poc.Metadata.mk PocDemo.job "x")
     [("k", PocDemo.VInt 7, Poc.Metadata.mk PocDemo.job "x");
      ("k", PocDemo.VInt 8, Poc.Metadata.mk PocDemo.job "A.y")].
Proof.
  apply (proj2 (poc_store_keeps_data_with_metadata PocDemo.value
                  PocDemo.policy "store2"
                  [("k", PocDemo.VInt 7, Poc.Metadata.mk PocDemo.job "x");
                   ("k", PocDemo.VInt 8, Poc.Metadata.mk PocDemo.job "A.y")])
           "k" "party2").
  vm_compute. reflexivity.
Defined.

(** ** The legality check, inputs and compute asset *)

(** X11.  When [_is_legal] of components/step_runner.py returns [True],
    then for every step planned at this site: this site may access the
    step's compute binding; and for every input of the step, this site
    may access the input item, the site the input is downloaded from is
    determined, and that site may access the source item. *)
Theorem is_legal_checks_inputs_and_compute
    (PE : PolicyEvaluator) (self : JobRun.t) :
  JobRun._is_legal self = Ok true ->
  exists perms,
    calculate_permissions (JobRun._job self) = Ok perms
    /\ forall step,
         In step (map snd (Workflow.steps (JobRun._workflow self))) ->
         JobRun._sites self !! WorkflowStep.name step
           = Some (JobRun._this_site self) ->
         (exists p, perms !! WorkflowStep.name step = Some p
                    /\ may_access p (JobRun._this_site self) = true)
         /\ forall inp_name inp_src,
              In (inp_name, inp_src) (WorkflowStep.inputs step) ->
              (exists p,
                  perms !! dotted (WorkflowStep.name step) inp_name = Some p
                  /\ may_access p (JobRun._this_site self) = true)
              /\ exists src_site p,
                   JobRun.source_site self inp_src = Ok src_site
                   /\ perms !! inp_src = Some p
                   /\ may_access p src_site = true.
Proof.
  unfold JobRun._is_legal.
  destruct (calculate_permissions (JobRun._job self)) as [perms|e];
    cbn [mbind result_bind]; [|intros; discriminate].
  intros H. exists perms. split; [reflexivity|].
  match type of H with
  | context [for_return ?body ?l] =>
      set (body_ := body) in H; destruct (for_return body_ l) as [r|e] eqn:E
  end; cbn [mbind result_bind] in H; [|discriminate].
  destruct r as [b|].
  { injection H as ->.
    apply for_return_Some in E as (step & _ & Hb). exfalso.
    unfold body_ in Hb.
    destruct (getitem (JobRun._sites self) (WorkflowStep.name step))
      as [site|]; cbn [mbind result_bind] in Hb; [|discriminate].
    destruct (String.eqb site (JobRun._this_site self)); [|discriminate].
    match type of Hb with
    | context [for_return ?b (WorkflowStep.inputs step)] =>
        set (body_in := b) in Hb;
        destruct (for_return body_in (WorkflowStep.inputs step))
          as [r_in|e] eqn:Ein
    end; cbn [mbind result_bind] in Hb; [|discriminate].
    destruct r_in as [b'|].
    - injection Hb as ->.
      apply for_return_Some in Ein as ([n src] & _ & Hx).
      unfold body_in in Hx.
      destruct (getitem perms (dotted (WorkflowStep.name step) n)) as [p|];
        cbn [mbind result_bind] in Hx; [|discriminate].
      destruct (negb (may_access p (JobRun._this_site self)));
        [congruence|].
      match type of Hx with
      | context [mbind _ ?m] => destruct m as [src_site|]
      end; cbn [mbind result_bind] in Hx; [|discriminate].
      destruct (getitem perms src) as [sp|]; cbn [mbind result_bind] in Hx;
        [|discriminate].
      destruct (negb (may_access sp src_site)); congruence.
    - destruct (getitem perms (WorkflowStep.name step)) as [sp|];
        cbn [mbind result_bind] in Hb; [|discriminate].
      destruct (negb (may_access sp (JobRun._this_site self)));
        [congruence|].
      apply for_return_Some in Hb as (o & _ & Ho).
      apply (output_check_Some self perms step o) in Ho. congruence. }
  intros step Hstep Hsite.
  pose proof (for_return_None _ _ E step Hstep) as Hb.
  unfold body_ in Hb. rewrite (getitem_Some _ _ _ Hsite) in Hb.
  cbn [mbind result_bind] in Hb. rewrite String.eqb_refl in Hb.
  match type of Hb with
  | context [for_return ?b (WorkflowStep.inputs step)] =>
      set (body_in := b) in Hb;
      destruct (for_return body_in (WorkflowStep.inputs step))
        as [r_in|e] eqn:Ein
  end; cbn [mbind result_bind] in Hb; [|discriminate].
  destruct r_in as [b'|]; [discriminate|].
  destruct (getitem perms (WorkflowStep.name step)) as [sp|] eqn:Esp;
    cbn [mbind result_bind] in Hb; [|discriminate].
  destruct (may_access sp (JobRun._this_site self)) eqn:Ems;
    cbn [negb] in Hb; [|discriminate].
  split.
  { exists sp. split; [by apply getitem_Ok | exact Ems]. }
  intros n src Hin.
  pose proof (for_return_None _ _ Ein (n, src) Hin) as Hx.
  unfold body_in in Hx.
  destruct (getitem perms (dotted (WorkflowStep.name step) n)) as [p|] eqn:Ep;
    cbn [mbind result_bind] in Hx; [|discriminate].
  destruct (may_access p (JobRun._this_site self)) eqn:Em;
    cbn [negb] in Hx; [|discriminate].
  split.
  { exists p. split; [by apply getitem_Ok | exact Em]. }
  fold (JobRun.source_site self src) in Hx.
  destruct (JobRun.source_site self src) as [src_site|];
    cbn [mbind result_bind] in Hx; [|discriminate].
  destruct (getitem perms src) as [q|] eqn:Eq;
    cbn [mbind result_bind] in Hx; [|discriminate].
  destruct (may_access q src_site) eqn:Emq; cbn [negb] in Hx;
    [|discriminate].
  exists src_site, q. split; [reflexivity|].
  split; [by apply getitem_Ok | exact Emq].
Qed.

Lemma is_legal_checks_inputs_and_compute_witness :
  let self := JobRun.init Demo.s1 (Demo.submission Demo.s1) in
  exists perms,
    calculate_permissions (JobRun._job self) = Ok perms
    /\ forall step,
         In step (map snd (Workflow.steps (JobRun._workflow self))) ->
         JobRun._sites self !! WorkflowStep.name step
           = Some (JobRun._this_site self) ->
         (exists p, perms !! WorkflowStep.name step = Some p
                    /\ may_access p (JobRun._this_site self) = true)
         /\ forall inp_name inp_src,
              In (inp_name, inp_src) (WorkflowStep.inputs step) ->
              (exists p,
                  perms !! dotted (WorkflowStep.name step) inp_name = Some p
                  /\ may_access p (JobRun._this_site self) = true)
              /\ exists src_site p,
                   JobRun.source_site self inp_src = Ok src_site
                   /\ perms !! inp_src = Some p
                   /\ may_access p src_site = true.
Proof.
  intros self. apply (is_legal_checks_inputs_and_compute Demo.policy self).
  vm_compute. reflexivity.
Defined.

(** ** Where inputs come from *)

Lemma split_app_sep (sep : ascii) (a b : string) :
  split sep (a ++ String sep b) = (split sep a ++ split sep b)%list.
Proof.
  induction a as [|c r IH].
  - rewrite append_nil. cbn [split]. by rewrite Ascii.eqb_refl.
  - rewrite append_cons. cbn [split].
    destruct (Ascii.eqb c sep); [by rewrite IH|].
    rewrite IH. pose proof (split_not_nil sep r).
    destruct (split sep r); [contradiction | reflexivity].
Qed.

Lemma split_dotted (a b : string) :
  split "." (dotted a b) = (split "." a ++ split "." b)%list.
Proof. apply (split_app_sep "." a b). Qed.

Lemma contains_dotted (a b : string) : contains "." (dotted a b) = true.
Proof.
  unfold dotted. induction a as [|c r IH].
  - reflexivity.
  - rewrite append_cons. cbn [contains]. rewrite IH. apply orb_true_r.
Qed.

(** X12.  Producer and consumer agree on the name of a result.  For an
    item [step.output] whose step name and output name hold no dot,
    [_source] answers with the site the plan gives the step and with the
    identifier [result:<id hash>], which is the identifier of the asset
    the runner stores for that output.  When the step name or the output
    name holds a dot, [_source] raises [ValueError]. *)
Theorem source_names_the_stored_result
    (Any : Type) (RC : JobRun.SiteRestClient Any) (self : JobRun.t)
    (idh : gmap string string) (step : WorkflowStep.t) (o : string) :
  (forall site h (v : Any) step_subjob,
      contains "." (WorkflowStep.name step) = false ->
      contains "." o = false ->
      JobRun._sites self !! WorkflowStep.name step = Some site ->
      idh !! dotted (WorkflowStep.name step) o = Some h ->
      contains ":" h = false ->
      JobRun._source self (dotted (WorkflowStep.name step) o) idh
      = Ok (site, Asset.id (JobRun.result_asset step step_subjob o v h)))
  /\ (contains "." (WorkflowStep.name step) = true
      \/ contains "." o = true ->
      JobRun._source self (dotted (WorkflowStep.name step) o) idh
      = Raise ValueError).
Proof.
  split.
  - intros site h v sj Hn Ho Hs Hh Hc.
    unfold JobRun._source. rewrite contains_dotted, split_dotted.
    rewrite (split_no_sep _ _ Hn), (split_no_sep _ _ Ho). cbn [app].
    rewrite (getitem_Some _ _ _ Hs). cbn [mbind result_bind].
    rewrite (getitem_Some _ _ _ Hh). cbn [mbind result_bind].
    rewrite (proj1 (from_id_hash_iff_no_colon h) Hc). reflexivity.
  - intros Hdot. unfold JobRun._source.
    rewrite contains_dotted, split_dotted.
    pose proof (split_not_nil "." (WorkflowStep.name step)) as Hn1.
    pose proof (split_not_nil "." o) as Hn2.
    pose proof (proj1 (split_length_one "." (WorkflowStep.name step))) as L1.
    pose proof (proj1 (split_length_one "." o)) as L2.
    destruct (split "." (WorkflowStep.name step)) as [|p1 [|p2 ps]];
      [contradiction| |].
    + destruct (split "." o) as [|q1 [|q2 qs]]; [contradiction| |].
      * destruct Hdot as [Hdot|Hdot];
          [rewrite L1 in Hdot | rewrite L2 in Hdot];
          done.
      * reflexivity.
    + destruct (split "." o) as [|q1 qs]; [contradiction|].
      cbn [app]. destruct ps; reflexivity.
Qed.

Lemma source_names_the_stored_result_witness :
  JobRun._source (JobRun.init Demo.s1 (Demo.submission Demo.s1))
    (dotted "A" "y") (id_hashes Demo.job)
  = Ok (Demo.s1,
        Asset.id (JobRun.result_asset Demo.step_A Demo.job "y"
                    [1; 2; 3]%Z "0a1b")).
Proof.
  apply (proj1 (source_names_the_stored_result (list Z) Demo.peers
                  (JobRun.init Demo.s1 (Demo.submission Demo.s1))
                  (id_hashes Demo.job) Demo.step_A "y"));
    vm_compute; reflexivity.
Defined.

(** ** The inputs of a step *)

Section StepInputs.
Context {Any : Type} {RC : JobRun.SiteRestClient Any}.

Lemma get_step_inputs_loop_Some (self : JobRun.t) idh items :
  forall acc w d w',
    JobRun._get_step_inputs_loop self idh acc items w = (Ok (Some d), w') ->
    JobRun.now w' = JobRun.now w + length items
    /\ exists d',
         d = (acc ++ d')%list
         /\ Forall2 (JobRun.fetched self idh (JobRun.target_store w)) d' items.
Proof.
  induction items as [|[n src] rest IH]; intros acc w d w' H.
  - injection H as <- <-. split; [cbn; lia|].
    exists []. by rewrite app_nil_r.
  - cbn [JobRun._get_step_inputs_loop] in H.
    unfold py_bind at 1 in H. unfold py_lift in H.
    destruct (JobRun._source self src idh) as [[site a]|e] eqn:Es;
      [|discriminate H].
    unfold py_bind at 1, py_try_except, py_bind at 1, JobRun.retrieve_asset
      in H.
    destruct (JobRun.rest_retrieve_asset (JobRun.now w)
                (JobRun.target_store w) site a) as [asset|e] eqn:Er.
    + unfold py_bind, py_lift, py_ret in H.
      destruct asset as [i v m|i f m] eqn:Ea; cbn [Asset.data exn_eqb] in H;
        [|discriminate H].
      apply IH in H as (Hnow & d' & -> & Hall).
      cbn [JobRun.tick JobRun.now JobRun.target_store] in Hnow, Hall.
      split; [cbn [length]; lia|].
      exists ((n, v) :: d'). split; [by rewrite <- app_assoc|].
      constructor; [|exact Hall].
      split; [reflexivity|].
      exists site, a, (JobRun.now w), (Asset.DataAsset i v m). auto.
    + destruct (exn_eqb e KeyError); discriminate H.
Qed.

End StepInputs.

(** X13.  When [_get_step_inputs] returns a bundle, the bundle has one
    entry per input of the step, in the order of the inputs, each keyed
    by the input's name and holding the data of a data asset that a peer
    returned for the input's source; the method made one request per
    input and none besides. *)
Theorem step_inputs_bundle_matches_inputs
    (Any : Type) (RC : JobRun.SiteRestClient Any) (self : JobRun.t)
    (step : WorkflowStep.t) (idh : gmap string string)
    (w w' : JobRun.world Any) (d : bundle Any) :
  JobRun._get_step_inputs self step idh w = (Ok (Some d), w') ->
  Forall2 (JobRun.fetched self idh (JobRun.target_store w)) d
    (WorkflowStep.inputs step)
  /\ map fst d = map fst (WorkflowStep.inputs step)
  /\ JobRun.now w' = JobRun.now w + length (WorkflowStep.inputs step).
Proof.
  intros H. apply get_step_inputs_loop_Some in H as (Hnow & d' & -> & Hall).
  cbn [app]. split; [exact Hall|]. split; [|exact Hnow].
  revert Hall. generalize (WorkflowStep.inputs step) as items.
  induction d' as [|[n v] d' IH]; intros items Hall;
    inversion Hall as [|e [n' src] l l' [Hn _] Hrest]; subst;
    [reflexivity|].
  cbn [map fst] in *. f_equal; [exact Hn | by apply IH].
Qed.

Lemma step_inputs_bundle_matches_inputs_witness :
  let self := JobRun.init Demo.s1 (Demo.submission Demo.s1) in
  Forall2 (JobRun.fetched self (id_hashes Demo.job) AssetStore.init)
    [("in", [1; 2; 3]%Z)] [("in", "x")]
  /\ map fst [("in", [1; 2; 3]%Z)] = map fst [("in", "x")]
  /\ 1 = 0 + length [("in", "x")].
Proof.
  intros self.
  apply (step_inputs_bundle_matches_inputs (list Z) Demo.peers self
           Demo.step_A (id_hashes Demo.job) Demo.empty_world
           (JobRun.tick Demo.empty_world) [("in", [1; 2; 3]%Z)]).
  vm_compute. reflexivity.
Defined.

(** ** What a run executes *)

Lemma executed_app (l l' : list event) :
  executed (l ++ l') = (executed l ++ executed l')%list.
Proof.
  induction l as [|[n|] l IH]; cbn [executed app]; [reflexivity| |exact IH].
  by rewrite IH.
Qed.

Section RunLog.
Context {Any : Type} {PE : PolicyEvaluator} {JM : JobMethods}
  {RC : JobRun.SiteRestClient Any}.

Lemma save_outputs_log idh step step_subjob (outputs : bundle Any) :
  forall w r w',
    JobRun.save_outputs idh step step_subjob outputs w = (r, w') ->
    JobRun.log w' = JobRun.log w.
Proof.
  induction outputs as [|[o v] rest IH]; intros w r w' H.
  - by injection H as _ <-.
  - cbn [JobRun.save_outputs] in H. unfold py_bind at 1, py_lift in H.
    destruct (getitem idh _) as [h|e]; [|by injection H as _ <-].
    unfold py_bind at 1 in H.
    destruct (Identifier.from_id_hash h) as [i|e]; [|by injection H as _ <-].
    unfold py_bind at 1 in H. rewrite target_store_store_unfold in H.
    destruct (AssetStore._assets (JobRun.target_store w) !! _);
      [by injection H as _ <-|].
    apply IH in H. exact H.
Qed.

Lemma execute_step_log (self : JobRun.t) idh step ca inputs
    (w : JobRun.world Any) r w' :
  JobRun.execute_step self idh step ca inputs w = (r, w') ->
  JobRun.log w' = (JobRun.log w ++ [Executing (WorkflowStep.name step)])%list.
Proof.
  unfold JobRun.execute_step.
  unfold py_bind at 1, JobRun.emit, py_modify.
  unfold py_bind at 1, py_lift.
  destruct (Asset.run ca inputs) as [outputs|e];
    [|intros H; by injection H as _ <-].
  intros H. apply save_outputs_log in H. exact H.
Qed.

Lemma scan_log (self : JobRun.t) idh steps :
  forall skipped w r w',
    JobRun.scan self idh skipped steps w = (r, w') ->
    match r with
    | Ok None => JobRun.log w' = JobRun.log w
    | Ok (Some todo) =>
        exists pre s post,
          steps = (pre ++ s :: post)%list
          /\ todo = (skipped ++ pre ++ post)%list
          /\ JobRun.log w'
             = (JobRun.log w ++ [Executing (WorkflowStep.name s)])%list
    | Raise _ =>
        JobRun.log w' = JobRun.log w
        \/ exists s,
             In s steps
             /\ JobRun.log w'
                = (JobRun.log w ++ [Executing (WorkflowStep.name s)])%list
    end.
Proof.
  induction steps as [|step rest IH]; intros skipped w r w' H.
  - by injection H as <- <-.
  - cbn [JobRun.scan] in H. unfold py_bind at 1 in H.
    destruct (JobRun._get_step_inputs self step idh w) as [[inputs|e] w1]
      eqn:E1.
    2:{ injection H as <- <-.
        apply get_step_inputs_loop_frame in E1 as [_ Hl]. by left. }
    apply get_step_inputs_loop_frame in E1 as [_ Hl1].
    unfold py_bind at 1 in H.
    destruct (JobRun._retrieve_compute_asset
                (WorkflowStep.compute_asset_id step) w1) as [[ca|e] w2]
      eqn:E2.
    2:{ injection H as <- <-.
        apply retrieve_compute_asset_frame in E2 as [_ Hl]. left. congruence. }
    apply retrieve_compute_asset_frame in E2 as [_ Hl2].
    destruct inputs as [inputs|].
    + unfold py_bind in H.
      destruct (JobRun.execute_step self idh step ca inputs w2)
        as [[[]|e] w3] eqn:E3; apply execute_step_log in E3;
        injection H as <- <-.
      * exists [], step, rest. repeat split; congruence.
      * right. exists step. split; [by left | congruence].
    + apply IH in H. destruct r as [[todo|]|e].
      * destruct H as (pre & s & post & -> & -> & Hl).
        exists (step :: pre), s, post. split; [reflexivity|].
        split; [by rewrite <- !app_assoc | congruence].
      * congruence.
      * destruct H as [H|(s & Hin & H)]; [left; congruence|].
        right. exists s. split; [by right | congruence].
Qed.

Lemma while_log (self : JobRun.t) idh fuel :
  forall steps_to_do w r w',
    JobRun.while_steps_to_do self fuel idh steps_to_do w = (r, w') ->
    exists done,
      done ⊆+ steps_to_do
      /\ executed (JobRun.log w')
         = (executed (JobRun.log w) ++ map WorkflowStep.name done)%list
      /\ (r = Ok Done -> done ≡ₚ steps_to_do).
Proof.
  induction fuel as [|fuel IH]; intros todo w r w' H.
  - destruct todo as [|s l]; injection H as <- <-.
    + exists []. by rewrite app_nil_r.
    + exists []. rewrite app_nil_r. split; [apply submseteq_nil_l|].
      split; [reflexivity | discriminate].
  - destruct todo as [|s l].
    { injection H as <- <-. exists []. by rewrite app_nil_r. }
    cbn [JobRun.while_steps_to_do] in H. unfold py_bind at 1 in H.
    destruct (JobRun.scan self idh [] (s :: l) w) as [[[todo'|]|e] w1] eqn:E;
      apply scan_log in E.
    + destruct E as (pre & x & post & Hsplit & -> & Hl). cbn [app] in H.
      apply IH in H as (done & Hsub & Hex & Hdone).
      exists (x :: done). rewrite Hsplit. split; [|split].
      * rewrite <- Permutation_middle. by apply submseteq_skip.
      * rewrite Hex, Hl, executed_app. cbn [executed map].
        by rewrite <- app_assoc.
      * intros Hr. rewrite <- Permutation_middle. f_equiv. by apply Hdone.
    + unfold py_bind at 1 in H. rewrite sleep_unfold in H.
      apply IH in H as (done & Hsub & Hex & Hdone).
      exists done. split; [exact Hsub|]. split; [|exact Hdone].
      rewrite Hex. cbn [JobRun.slept JobRun.log]. rewrite executed_app, E.
      cbn [executed]. by rewrite app_nil_r.
    + injection H as <- <-. destruct E as [E|(x & Hin & E)].
      * exists []. rewrite app_nil_r, E. split; [apply submseteq_nil_l|].
        split; [reflexivity | discriminate].
      * exists [x]. rewrite E, executed_app. cbn [executed map].
        split; [|split; [reflexivity | discriminate]].
        apply singleton_submseteq_l. by apply list_elem_of_In.
Qed.

Lemma local_steps_filter (self : JobRun.t) steps l :
  JobRun.local_steps self steps = Ok l ->
  l = List.filter (JobRun.planned_here self) steps.
Proof.
  revert l. induction steps as [|s rest IH]; intros l H.
  - by injection H as <-.
  - cbn [JobRun.local_steps List.filter] in *. unfold JobRun.planned_here.
    unfold getitem in H.
    destruct (JobRun._sites self !! WorkflowStep.name s) as [site|];
      cbn [mbind result_bind] in H; [|discriminate H].
    destruct (JobRun.local_steps self rest) as [more|];
      cbn [mbind result_bind] in H; [|discriminate H].
    injection H as <-. rewrite (IH more eq_refl).
    by destruct (String.eqb site (JobRun._this_site self)).
Qed.

End RunLog.

(** X14.  Whatever [run] ends with, with any fuel, the steps it executed
    (those its log gained) are steps the plan gives to this site, each of
    them at most once; and when [run] ends normally with nothing left to
    do, it executed every step of this site exactly once. *)
Theorem run_executes_the_steps_of_this_site
    (Any : Type) (PE : PolicyEvaluator) (JM : JobMethods)
    (RC : JobRun.SiteRestClient Any) (self : JobRun.t) (fuel : nat)
    (w w' : JobRun.world Any) (r : result outcome) :
  JobRun.run self fuel w = (r, w') ->
  exists done,
    done ⊆+ List.filter (JobRun.planned_here self)
              (map snd (Workflow.steps (JobRun._workflow self)))
    /\ executed (JobRun.log w')
       = (executed (JobRun.log w) ++ map WorkflowStep.name done)%list
    /\ (r = Ok Done ->
        done ≡ₚ List.filter (JobRun.planned_here self)
                  (map snd (Workflow.steps (JobRun._workflow self)))).
Proof.
  unfold JobRun.run. unfold py_bind at 1, py_lift.
  destruct (JobRun._is_legal self) as [[|]|e]; cbn [negb py_raise].
  - unfold py_bind at 1.
    destruct (JobRun.local_steps self _) as [l|e] eqn:El.
    + apply local_steps_filter in El. subst l. apply while_log.
    + intros H. injection H as <- <-. exists []. rewrite app_nil_r.
      split; [apply submseteq_nil_l|]. split; [reflexivity | discriminate].
  - intros H. injection H as <- <-. exists []. rewrite app_nil_r.
    split; [apply submseteq_nil_l|]. split; [reflexivity | discriminate].
  - intros H. injection H as <- <-. exists []. rewrite app_nil_r.
    split; [apply submseteq_nil_l|]. split; [reflexivity | discriminate].
Qed.

Lemma run_executes_the_steps_of_this_site_witness :
  let self := JobRun.init Demo.s1 (Demo.submission Demo.s1) in
  let w' := snd (JobRun.run self 5 Demo.empty_world) in
  exists done,
    done ⊆+ List.filter (JobRun.planned_here self)
              (map snd (Workflow.steps (JobRun._workflow self)))
    /\ executed (JobRun.log w')
       = (executed (JobRun.log Demo.empty_world)
          ++ map WorkflowStep.name done)%list
    /\ (Ok Done = Ok Done ->
        done ≡ₚ List.filter (JobRun.planned_here self)
                  (map snd (Workflow.steps (JobRun._workflow self)))).
Proof.
  intros self w'.
  apply (run_executes_the_steps_of_this_site (list Z) Demo.policy
           Demo.job_methods Demo.peers self 5 Demo.empty_world w'
           (Ok Done)).
  vm_compute. reflexivity.
Defined.

(** ** What a run stores *)

Section RunStores.
Context {Any : Type} {PE : PolicyEvaluator} {JM : JobMethods}
  {RC : JobRun.SiteRestClient Any}.

Lemma retrieve_compute_asset_Ok i (w : JobRun.world Any) ca w' :
  JobRun._retrieve_compute_asset i w = (Ok ca, w') ->
  Asset.is_compute ca = true
  /\ exists loc,
       Identifier.location i = Ok loc
       /\ JobRun.rest_retrieve_asset (JobRun.now w) (JobRun.target_store w)
            loc i = Ok ca.
Proof.
  unfold JobRun._retrieve_compute_asset, py_bind, py_lift,
    JobRun.retrieve_asset, py_raise, py_ret.
  destruct (Identifier.location i) as [loc|e]; [|intros H; discriminate H].
  destruct (JobRun.rest_retrieve_asset _ _ loc i) as [asset|e] eqn:E;
    [|intros H; discriminate H].
  destruct (Asset.is_compute asset) eqn:Ec; cbn [negb];
    [|intros H; discriminate H].
  intros H. injection H as <- _. split; [exact Ec|]. exists loc. by split.
Qed.

(** Outputs that can be stored are stored: the loop of [store] calls
    runs to its end. *)
Lemma save_outputs_storable idh step sj (outputs : bundle Any) :
  forall w,
    JobRun.storable idh step (JobRun.target_store w) outputs ->
    exists w', JobRun.save_outputs idh step sj outputs w = (Ok tt, w').
Proof.
  induction outputs as [|[o v] rest IH]; intros w [Hall Hnd].
  - by exists w.
  - destruct (Hall o v (or_introl eq_refl)) as (h & Hh & Hid & Hfresh).
    cbn [map fst] in Hnd.
    inversion Hnd as [|x l Hnotin Hnd' [Hx Hl]]. subst x l.
    cbn [JobRun.save_outputs]. unfold py_bind at 1, py_lift at 1.
    rewrite (getitem_Some _ _ _ Hh). unfold py_bind at 1, py_lift at 1.
    rewrite Hid. unfold py_bind at 1. rewrite target_store_store_unfold.
    cbn [Asset.id]. rewrite Hfresh.
    apply IH. cbn [JobRun.target_store AssetStore._assets].
    split; [|exact Hnd'].
    intros o' v' Hin.
    destruct (Hall o' v' (or_intror Hin)) as (h' & Hh' & Hid' & Hfresh').
    exists h'. split; [exact Hh'|]. split; [exact Hid'|].
    cbn [JobRun.target_store AssetStore._assets].
    rewrite lookup_insert_ne; [exact Hfresh'|].
    intros Heq. apply (inj (String.append "result:")) in Heq. subst h'.
    apply Hnotin. rewrite Hh, <- Hh'. apply list_elem_of_In.
    exact (in_map (fun ov : string * Any =>
                     idh !! dotted (WorkflowStep.name step) ov.1)
             rest (o', v') Hin).
Qed.

(** An output whose identifier is in the store already stops the loop
    with the [KeyError] of [store]. *)
Lemma save_outputs_present idh step sj o v (rest : bundle Any) h i old
    (w : JobRun.world Any) :
  idh !! dotted (WorkflowStep.name step) o = Some h ->
  Identifier.from_id_hash h = Ok i ->
  AssetStore._assets (JobRun.target_store w) !! i = Some old ->
  JobRun.save_outputs idh step sj ((o, v) :: rest) w = (Raise KeyError, w).
Proof.
  intros Hh Hid Hold. cbn [JobRun.save_outputs].
  unfold py_bind at 1, py_lift at 1.
  rewrite (getitem_Some _ _ _ Hh). unfold py_bind at 1, py_lift at 1.
  rewrite Hid. unfold py_bind at 1. rewrite target_store_store_unfold.
  cbn [Asset.id]. rewrite Hold. reflexivity.
Qed.

(** A pass that made progress executed one of its steps to the end, with
    inputs it had fetched and the compute asset a peer returned for the
    step, and touched the store in no other way. *)
Lemma scan_Some_inv (self : JobRun.t) idh steps :
  forall skipped w todo w',
    JobRun.scan self idh skipped steps w = (Ok (Some todo), w') ->
    exists pre step post inputs ca w2,
      steps = (pre ++ step :: post)%list
      /\ todo = (skipped ++ pre ++ post)%list
      /\ JobRun.target_store w2 = JobRun.target_store w
      /\ JobRun.log w2 = JobRun.log w
      /\ Asset.is_compute ca = true
      /\ (exists t loc,
            Identifier.location (WorkflowStep.compute_asset_id step) = Ok loc
            /\ JobRun.rest_retrieve_asset t (JobRun.target_store w) loc
                 (WorkflowStep.compute_asset_id step) = Ok ca)
      /\ JobRun.execute_step self idh step ca inputs w2 = (Ok tt, w').
Proof.
  induction steps as [|step rest IH]; intros skipped w todo w' H.
  - discriminate H.
  - cbn [JobRun.scan] in H. unfold py_bind at 1 in H.
    destruct (JobRun._get_step_inputs self step idh w) as [[inputs|e] w1]
      eqn:E1; [|discriminate H].
    apply get_step_inputs_loop_frame in E1 as [Hs1 Hl1].
    unfold py_bind at 1 in H.
    destruct (JobRun._retrieve_compute_asset
                (WorkflowStep.compute_asset_id step) w1) as [[ca|e] w2]
      eqn:E2; [|discriminate H].
    pose proof (retrieve_compute_asset_frame _ _ _ _ E2) as [Hs2 Hl2].
    apply retrieve_compute_asset_Ok in E2 as (Hc & loc & Hloc & Hr).
    destruct inputs as [inputs|].
    + unfold py_bind in H.
      destruct (JobRun.execute_step self idh step ca inputs w2)
        as [[[]|e] w3] eqn:E3; [|discriminate H].
      injection H as <- <-.
      exists [], step, rest, inputs, ca, w2.
      split; [reflexivity|]. split; [reflexivity|].
      split; [congruence|]. split; [congruence|]. split; [exact Hc|].
      split; [|exact E3].
      exists (JobRun.now w1), loc. split; [exact Hloc|]. by rewrite <- Hs1.
    + apply IH in H
        as (pre & s & post & inputs' & ca' & w2' & -> & -> & Hs & Hl & Hc'
            & (t & loc' & Hloc' & Hr') & He).
      exists (step :: pre), s, post, inputs', ca', w2'.
      split; [reflexivity|]. split; [by rewrite <- !app_assoc|].
      split; [congruence|]. split; [congruence|]. split; [exact Hc'|].
      split; [|exact He].
      exists t, loc'. split; [exact Hloc'|]. by rewrite <- Hs1, <- Hs2.
Qed.

(** The loop, when it raises nothing: every step it executed left the
    results of its outputs in the target store, where they still are at
    the end, and the store gained nothing else and lost nothing. *)
Lemma while_stores (self : JobRun.t) idh fuel :
  forall todo w r w',
    JobRun.while_steps_to_do self fuel idh todo w = (Ok r, w') ->
    exists done : list (WorkflowStep.t * bundle Any),
      map fst done ⊆+ todo
      /\ (r = Done -> map fst done ≡ₚ todo)
      /\ executed (JobRun.log w')
         = (executed (JobRun.log w)
            ++ map WorkflowStep.name (map fst done))%list
      /\ (forall step outputs, In (step, outputs) done ->
            (exists ca inputs t st loc,
                Identifier.location (WorkflowStep.compute_asset_id step)
                  = Ok loc
                /\ JobRun.rest_retrieve_asset t st loc
                     (WorkflowStep.compute_asset_id step) = Ok ca
                /\ Asset.is_compute ca = true
                /\ Asset.run ca inputs = Ok outputs)
            /\ forall o v, In (o, v) outputs ->
                 exists h,
                   idh !! dotted (WorkflowStep.name step) o = Some h
                   /\ AssetStore._assets (JobRun.target_store w')
                        !! ("result:" ++ h)
                      = Some (JobRun.result_asset step
                                (subjob (JobRun._job self) step) o v h))
      /\ (forall k a,
            AssetStore._assets (JobRun.target_store w) !! k = Some a ->
            AssetStore._assets (JobRun.target_store w') !! k = Some a)
      /\ (forall k a,
            AssetStore._assets (JobRun.target_store w') !! k = Some a ->
            AssetStore._assets (JobRun.target_store w) !! k = Some a
            \/ exists step outputs o v h,
                 In (step, outputs) done
                 /\ In (o, v) outputs
                 /\ idh !! dotted (WorkflowStep.name step) o = Some h
                 /\ k = "result:" ++ h
                 /\ a = JobRun.result_asset step
                          (subjob (JobRun._job self) step) o v h).
Proof.
  assert (forall todo (w : JobRun.world Any) r,
            (r = Done -> todo = []) ->
            exists done : list (WorkflowStep.t * bundle Any),
              map fst done ⊆+ todo
              /\ (r = Done -> map fst done ≡ₚ todo)
              /\ executed (JobRun.log w)
                 = (executed (JobRun.log w)
                    ++ map WorkflowStep.name (map fst done))%list
              /\ (forall step outputs, In (step, outputs) done ->
                    (exists ca inputs t st loc,
                        Identifier.location
                          (WorkflowStep.compute_asset_id step) = Ok loc
                        /\ JobRun.rest_retrieve_asset t st loc
                             (WorkflowStep.compute_asset_id step) = Ok ca
                        /\ Asset.is_compute ca = true
                        /\ Asset.run ca inputs = Ok outputs)
                    /\ forall o v, In (o, v) outputs ->
                         exists h,
                           idh !! dotted (WorkflowStep.name step) o = Some h
                           /\ AssetStore._assets (JobRun.target_store w)
                                !! ("result:" ++ h)
                              = Some (JobRun.result_asset step
                                        (subjob (JobRun._job self) step)
                                        o v h))
              /\ (forall k a,
                    AssetStore._assets (JobRun.target_store w) !! k = Some a ->
                    AssetStore._assets (JobRun.target_store w) !! k = Some a)
              /\ (forall k a,
                    AssetStore._assets (JobRun.target_store w) !! k = Some a ->
                    AssetStore._assets (JobRun.target_store w) !! k = Some a
                    \/ exists step outputs o v h,
                         In (step, outputs) done
                         /\ In (o, v) outputs
                         /\ idh !! dotted (WorkflowStep.name step) o = Some h
                         /\ k = "result:" ++ h
                         /\ a = JobRun.result_asset step
                                  (subjob (JobRun._job self) step) o v h))
    as Hnothing.
  { intros todo w r Hr. exists []. cbn [map]. rewrite app_nil_r.
    split; [apply submseteq_nil_l|].
    split; [intros E; by rewrite (Hr E)|]. split; [reflexivity|].
    split; [intros step outputs []|]. split; [auto|]. intros k a Hk. by left. }
  induction fuel as [|fuel IH]; intros todo w r w' H.
  - destruct todo as [|s l]; injection H as <- <-; apply Hnothing;
      [reflexivity | discriminate].
  - destruct todo as [|s l].
    { injection H as <- <-. by apply Hnothing. }
    cbn [JobRun.while_steps_to_do] in H. unfold py_bind at 1 in H.
    destruct (JobRun.scan self idh [] (s :: l) w) as [[[todo'|]|e] w1] eqn:E;
      [| |discriminate H].
    + apply scan_Some_inv in E
        as (pre & x & post & inputs & ca & w2 & Hsplit & -> & Hs2 & Hl2 & Hc
            & (t & loc & Hloc & Hr) & He).
      pose proof (execute_step_log _ _ _ _ _ _ _ _ He) as Hlog.
      apply execute_step_inv in He as (outputs & Hrun & Hout & Hkeep & Hnew).
      cbn [app] in H.
      apply IH in H as (done & Hsub & Hdone & Hex & Hst & Hkeep' & Hnew').
      exists ((x, outputs) :: done). cbn [map fst]. rewrite Hsplit.
      split; [rewrite <- Permutation_middle; by apply submseteq_skip|].
      split.
      { intros Hd. rewrite <- Permutation_middle. f_equiv. by apply Hdone. }
      split.
      { rewrite Hex, Hlog, Hl2, executed_app. cbn [executed].
        by rewrite <- app_assoc. }
      split.
      { intros step outs [Heq|Hin]; [|exact (Hst step outs Hin)].
        injection Heq as <- <-. split.
        - exists ca, inputs, t, (JobRun.target_store w), loc. by repeat split.
        - intros o v Hov. destruct (Hout o v Hov) as (h & Hh & Hlook).
          exists h. split; [exact Hh|]. by apply Hkeep'. }
      split.
      { intros k a Hk. apply Hkeep', Hkeep. by rewrite Hs2. }
      intros k a Hk.
      destruct (Hnew' k a Hk) as [H1|(step & outs & o & v & h & Hin & R)].
      * destruct (Hnew k a H1) as [H0|(o & v & h & Hov & R)].
        -- left. by rewrite <- Hs2.
        -- right. exists x, outputs, o, v, h. split; [by left|].
           exact (conj Hov R).
      * right. exists step, outs, o, v, h. split; [by right | exact R].
    + unfold py_bind at 1 in H. rewrite sleep_unfold in H.
      apply scan_no_progress_frame in E as [Hs Hl].
      apply IH in H as (done & Hsub & Hdone & Hex & Hst & Hkeep & Hnew).
      cbn [JobRun.slept JobRun.target_store JobRun.log] in Hex, Hkeep, Hnew.
      rewrite Hs in Hkeep, Hnew.
      rewrite executed_app, Hl in Hex. cbn [executed] in Hex.
      rewrite app_nil_r in Hex.
      exists done. by repeat (split; [assumption|]).
Qed.

End RunStores.

(** C5, as the code has it.  (1) In a pass of [run], take a step whose
    inputs are fetched, whose compute asset is retrieved and produces the
    bundle [outputs], each output item [s.o] having an id hash [h] that
    makes an identifier [result:h] under which nothing is stored yet, no
    two outputs sharing one.  Then the pass executes the step, takes it
    from the steps to do, and for every output [o] with value [v] the
    target store holds, under [result:h], the data asset with that
    identifier, the value [v], and the metadata made of the sub-job of
    the step and the item [s.o]; the store gained nothing else and lost
    nothing.  (2) When [run] ends without raising, the steps it executed
    are steps the plan gives to this site, all of them if it ended with
    nothing to do; each was run by the compute asset a peer returned for
    it, and every output the compute asset produced is in the target
    store at the end, as the data asset above; the store holds nothing
    else that it did not hold at the start.  (3) When an asset is already
    stored under the identifier of the first output, the step is executed
    and the output produced, but [store] raises [KeyError], which leaves
    the pass and aborts the job with the target store as it was. *)
Theorem run_stores_the_outputs_of_each_step
    (Any : Type) (PE : PolicyEvaluator) (JM : JobMethods)
    (RC : JobRun.SiteRestClient Any) (self : JobRun.t) :
  (forall step skipped rest (w w1 w2 : JobRun.world Any) inputs ca outputs,
      JobRun._get_step_inputs self step (id_hashes (JobRun._job self)) w
        = (Ok (Some inputs), w1) ->
      JobRun._retrieve_compute_asset (WorkflowStep.compute_asset_id step) w1
        = (Ok ca, w2) ->
      Asset.run ca inputs = Ok outputs ->
      JobRun.storable (id_hashes (JobRun._job self)) step
        (JobRun.target_store w) outputs ->
      exists w3,
        JobRun.scan self (id_hashes (JobRun._job self)) skipped
          (step :: rest) w
        = (Ok (Some (skipped ++ rest)%list), w3)
        /\ JobRun.log w3
           = (JobRun.log w ++ [Executing (WorkflowStep.name step)])%list
        /\ (forall o v, In (o, v) outputs ->
              exists h,
                id_hashes (JobRun._job self)
                  !! dotted (WorkflowStep.name step) o = Some h
                /\ AssetStore._assets (JobRun.target_store w3)
                     !! ("result:" ++ h)
                   = Some (Asset.DataAsset ("result:" ++ h) v
                             (Metadata.mk (subjob (JobRun._job self) step)
                                (dotted (WorkflowStep.name step) o))))
        /\ (forall k a,
              AssetStore._assets (JobRun.target_store w) !! k = Some a ->
              AssetStore._assets (JobRun.target_store w3) !! k = Some a)
        /\ (forall k a,
              AssetStore._assets (JobRun.target_store w3) !! k = Some a ->
              AssetStore._assets (JobRun.target_store w) !! k = Some a
              \/ exists o v h,
                   In (o, v) outputs
                   /\ id_hashes (JobRun._job self)
                        !! dotted (WorkflowStep.name step) o = Some h
                   /\ k = "result:" ++ h
                   /\ a = Asset.DataAsset ("result:" ++ h) v
                            (Metadata.mk (subjob (JobRun._job self) step)
                               (dotted (WorkflowStep.name step) o))))
  /\ (forall fuel (w w' : JobRun.world Any) r,
        JobRun.run self fuel w = (Ok r, w') ->
        exists done : list (WorkflowStep.t * bundle Any),
          map fst done
            ⊆+ List.filter (JobRun.planned_here self)
                 (map snd (Workflow.steps (JobRun._workflow self)))
          /\ (r = Done ->
              map fst done
                ≡ₚ List.filter (JobRun.planned_here self)
                     (map snd (Workflow.steps (JobRun._workflow self))))
          /\ executed (JobRun.log w')
             = (executed (JobRun.log w)
                ++ map WorkflowStep.name (map fst done))%list
          /\ (forall step outputs, In (step, outputs) done ->
                (exists ca inputs t st loc,
                    Identifier.location (WorkflowStep.compute_asset_id step)
                      = Ok loc
                    /\ JobRun.rest_retrieve_asset t st loc
                         (WorkflowStep.compute_asset_id step) = Ok ca
                    /\ Asset.is_compute ca = true
                    /\ Asset.run ca inputs = Ok outputs)
                /\ forall o v, In (o, v) outputs ->
                     exists h,
                       id_hashes (JobRun._job self)
                         !! dotted (WorkflowStep.name step) o = Some h
                       /\ AssetStore._assets (JobRun.target_store w')
                            !! ("result:" ++ h)
                          = Some (Asset.DataAsset ("result:" ++ h) v
                                    (Metadata.mk
                                       (subjob (JobRun._job self) step)
                                       (dotted (WorkflowStep.name step) o))))
          /\ (forall k a,
                AssetStore._assets (JobRun.target_store w) !! k = Some a ->
                AssetStore._assets (JobRun.target_store w') !! k = Some a)
          /\ (forall k a,
                AssetStore._assets (JobRun.target_store w') !! k = Some a ->
                AssetStore._assets (JobRun.target_store w) !! k = Some a
                \/ exists step outputs o v h,
                     In (step, outputs) done
                     /\ In (o, v) outputs
                     /\ id_hashes (JobRun._job self)
                          !! dotted (WorkflowStep.name step) o = Some h
                     /\ k = "result:" ++ h
                     /\ a = Asset.DataAsset ("result:" ++ h) v
                              (Metadata.mk (subjob (JobRun._job self) step)
                                 (dotted (WorkflowStep.name step) o))))
  /\ (forall step skipped rest (w w1 w2 : JobRun.world Any) inputs ca
             o v outputs h i old,
        JobRun._get_step_inputs self step (id_hashes (JobRun._job self)) w
          = (Ok (Some inputs), w1) ->
        JobRun._retrieve_compute_asset (WorkflowStep.compute_asset_id step)
          w1 = (Ok ca, w2) ->
        Asset.run ca inputs = Ok ((o, v) :: outputs) ->
        id_hashes (JobRun._job self) !! dotted (WorkflowStep.name step) o
          = Some h ->
        Identifier.from_id_hash h = Ok i ->
        AssetStore._assets (JobRun.target_store w) !! i = Some old ->
        exists w3,
          JobRun.scan self (id_hashes (JobRun._job self)) skipped
            (step :: rest) w = (Raise KeyError, w3)
          /\ JobRun.target_store w3 = JobRun.target_store w
          /\ JobRun.log w3
             = (JobRun.log w ++ [Executing (WorkflowStep.name step)])%list).
Proof.
  split; [|split].
  - intros step skipped rest w w1 w2 inputs ca outputs H1 H2 Hrun Hst.
    pose proof (get_step_inputs_loop_frame _ _ _ _ _ _ _ H1) as [Hs1 Hl1].
    pose proof (retrieve_compute_asset_frame _ _ _ _ H2) as [Hs2 Hl2].
    destruct (save_outputs_storable (id_hashes (JobRun._job self)) step
                (subjob (JobRun._job self) step) outputs
                (JobRun.mkWorld (JobRun.target_store w2) (JobRun.now w2)
                   (JobRun.log w2 ++ [Executing (WorkflowStep.name step)])))
      as (w3 & Hsave).
    { cbn [JobRun.target_store]. by rewrite Hs2, Hs1. }
    assert (JobRun.execute_step self (id_hashes (JobRun._job self)) step ca
              inputs w2 = (Ok tt, w3)) as He.
    { unfold JobRun.execute_step.
      unfold py_bind at 1, JobRun.emit, py_modify.
      unfold py_bind at 1, py_lift. rewrite Hrun. exact Hsave. }
    exists w3. split.
    { cbn [JobRun.scan]. unfold py_bind at 1. rewrite H1.
      unfold py_bind at 1. rewrite H2.
      unfold py_bind at 1. rewrite He. reflexivity. }
    pose proof (execute_step_log _ _ _ _ _ _ _ _ He) as Hlog.
    apply execute_step_inv in He as (outputs' & Hrun' & Hout & Hkeep & Hnew).
    rewrite Hrun in Hrun'. injection Hrun' as <-.
    rewrite Hs2, Hs1 in Hkeep, Hnew.
    split; [congruence|]. split; [exact Hout|]. split; [exact Hkeep|].
    exact Hnew.
  - intros fuel w w' r. unfold JobRun.run. unfold py_bind at 1, py_lift.
    destruct (JobRun._is_legal self) as [[|]|e]; cbn [negb py_raise];
      [|intros H; discriminate H|intros H; discriminate H].
    unfold py_bind at 1.
    destruct (JobRun.local_steps self _) as [l|e] eqn:El;
      [|intros H; discriminate H].
    apply local_steps_filter in El. subst l. intros H.
    exact (while_stores self _ fuel _ _ _ _ H).
  - intros step skipped rest w w1 w2 inputs ca o v outputs h i old
      H1 H2 Hrun Hh Hid Hold.
    pose proof (get_step_inputs_loop_frame _ _ _ _ _ _ _ H1) as [Hs1 Hl1].
    pose proof (retrieve_compute_asset_frame _ _ _ _ H2) as [Hs2 Hl2].
    exists (JobRun.mkWorld (JobRun.target_store w2) (JobRun.now w2)
              (JobRun.log w2 ++ [Executing (WorkflowStep.name step)])).
    split.
    { cbn [JobRun.scan]. unfold py_bind at 1. rewrite H1.
      unfold py_bind at 1. rewrite H2.
      unfold py_bind at 1. unfold JobRun.execute_step.
      unfold py_bind at 1, JobRun.emit, py_modify.
      unfold py_bind at 1, py_lift. rewrite Hrun.
      rewrite (save_outputs_present _ _ _ o v outputs h i old); [done|done|done|].
      cbn [JobRun.target_store]. by rewrite Hs2, Hs1. }
    cbn [JobRun.target_store JobRun.log]. split; congruence.
Qed.

Lemma run_stores_the_outputs_of_each_step_witness :
  let self := JobRun.init Demo.s1 (Demo.submission Demo.s1) in
  let w' := snd (JobRun.run self 5 Demo.empty_world) in
  (exists w3,
     JobRun.scan self (id_hashes Demo.job) [] [Demo.step_A] Demo.empty_world
     = (Ok (Some []), w3)
     /\ AssetStore._assets (JobRun.target_store w3) !! "result:0a1b"
        = Some (Asset.DataAsset "result:0a1b" [1; 2; 3]%Z
                  (Metadata.mk Demo.job "A.y")))
  /\ exists done : list (WorkflowStep.t * bundle (list Z)),
       map fst done ≡ₚ [Demo.step_A]
       /\ forall step outputs, In (step, outputs) done ->
            forall o v, In (o, v) outputs ->
              exists h,
                id_hashes Demo.job !! dotted (WorkflowStep.name step) o
                  = Some h
                /\ AssetStore._assets (JobRun.target_store w')
                     !! ("result:" ++ h)
                   = Some (Asset.DataAsset ("result:" ++ h) v
                             (Metadata.mk Demo.job
                                (dotted (WorkflowStep.name step) o))).
Proof.
  intros self w'.
  destruct (run_stores_the_outputs_of_each_step (list Z) Demo.policy
              Demo.job_methods Demo.peers self) as (Hscan & Hrun & _).
  split.
  - destruct (Hscan Demo.step_A [] [] Demo.empty_world
                (JobRun.tick Demo.empty_world)
                (JobRun.tick (JobRun.tick Demo.empty_world))
                [("in", [1; 2; 3]%Z)] Demo.identity_asset
                [("y", [1; 2; 3]%Z)])
      as (w3 & Hs & _ & Hout & _).
    + vm_compute. reflexivity.
    + vm_compute. reflexivity.
    + reflexivity.
    + split; [|apply NoDup_singleton].
      intros o v [Heq|[]]. injection Heq as <- <-. exists "0a1b".
      split; [vm_compute; reflexivity|].
      split; vm_compute; reflexivity.
    + exists w3. split; [exact Hs|].
      destruct (Hout "y" [1; 2; 3]%Z (or_introl eq_refl)) as (h & Hh & Hl).
      vm_compute in Hh. injection Hh as <-. exact Hl.
  - destruct (Hrun 5 Demo.empty_world w' Done)
      as (done & _ & Hd & _ & Hst & _).
    + vm_compute. reflexivity.
    + exists done. split; [exact (Hd eq_refl)|].
      intros step outputs Hin. exact (proj2 (Hst step outputs Hin)).
Defined.

(** C5 as it is worded fails when the job is run a second time at the
    same site.  The first run executes step [A] and stores its result
    under [result:0a1b].  The second run finds the job legal, fetches the
    input, retrieves the compute asset and executes the step (the log
    gains a second [Executing "A"]); the compute asset produces the
    output [y]; and [store] raises [KeyError] for the identifier that is
    already there.  [run] ends with that error, and the runner has stored
    nothing: the target store is the one the second run began with. *)
Lemma second_run_executes_the_step_and_stores_nothing :
  let self := JobRun.init Demo.s1 (Demo.submission Demo.s1) in
  let first := JobRun.run self 5 Demo.empty_world in
  let second := JobRun.run self 5 (snd first) in
  fst first = Ok Done
  /\ JobRun.log (snd first) = [Executing "A"]
  /\ fst (JobRun._get_step_inputs self Demo.step_A (id_hashes Demo.job)
            (snd first))
     = Ok (Some [("in", [1; 2; 3]%Z)])
  /\ Asset.run Demo.identity_asset [("in", [1; 2; 3]%Z)]
     = Ok [("y", [1; 2; 3]%Z)]
  /\ fst second = Raise KeyError
  /\ JobRun.log (snd second) = [Executing "A"; Executing "A"]
  /\ JobRun.target_store (snd second) = JobRun.target_store (snd first).
Proof. vm_compute. repeat split; reflexivity. Qed.

(** ** The earlier runner: what an executed step stores *)

Section PocRunFacts.
Context {Any : Type} {JM : Poc.JobMethods} {K : Poc.Kernels Any}.

(** Every built-in kernel writes one output, named [y]; a step with any
    other compute asset raises [RuntimeError]. *)
Lemma poc_run_step_outputs (step : Poc.WorkflowStep.t) (inputs : bundle Any) :
  (forall outputs,
      Poc.JobRun.run_step step inputs = Ok outputs ->
      exists v, outputs = [("y", v)])
  /\ (~ In (Poc.WorkflowStep.compute_asset step)
          ["Combine"; "Anonymise"; "Aggregate"; "Addition"] ->
      Poc.JobRun.run_step step inputs = Raise RuntimeError).
Proof.
  unfold Poc.JobRun.run_step. split.
  - intros outputs.
    repeat match goal with
    | |- context [String.eqb ?a ?b] => destruct (String.eqb a b)
    end;
    repeat match goal with
    | |- context [mbind _ ?m] =>
        destruct m; cbn [mbind result_bind]; try (intros; discriminate)
    end;
    intros H; first [discriminate H | injection H as <-; eauto].
  - intros Hnot.
    repeat match goal with
    | |- context [String.eqb ?a ?b] =>
        destruct (String.eqb a b) eqn:?
    end; try reflexivity; exfalso; apply Hnot;
    match goal with
    | H : String.eqb _ _ = true |- _ => apply String.eqb_eq in H; rewrite H
    end; cbn; auto.
Qed.

Lemma poc_target_store_store_unfold key (value : Any) metadata
    (w : Poc.JobRun.world Any) :
  Poc.JobRun.target_store_store key value metadata w =
  match Poc.AssetStore._assets (Poc.JobRun.target_store w) !! key with
  | Some _ => (Raise KeyError, w)
  | None =>
      (Ok tt,
       Poc.JobRun.mkWorld
         (Poc.AssetStore.mk
            (Poc.AssetStore.name (Poc.JobRun.target_store w))
            (<[key := value]>
               (Poc.AssetStore._assets (Poc.JobRun.target_store w)))
            (<[key := metadata]>
               (Poc.AssetStore._metadata (Poc.JobRun.target_store w))))
         (Poc.JobRun.now w) (Poc.JobRun.log w))
  end.
Proof.
  unfold Poc.JobRun.target_store_store. rewrite poc_store_unfold.
  destruct (Poc.AssetStore._assets (Poc.JobRun.target_store w) !! key);
    [|reflexivity].
  by destruct w.
Qed.

End PocRunFacts.

(** X15.  When the earlier runner executes a step to the end, it has
    stored exactly one asset: the item [<step>.y] has a key in the job,
    the key was free in the target store, and the store now holds under
    that key the value the kernel produced and the metadata made of the
    step's sub-job and the item; nothing else in the store changed, and
    the log gained the step. *)
Theorem poc_executed_step_stores_y
    (Any : Type) (JM : Poc.JobMethods) (K : Poc.Kernels Any)
    (self : Poc.JobRun.t) (step : Poc.WorkflowStep.t) (inputs : bundle Any)
    (w w' : Poc.JobRun.world Any) :
  Poc.JobRun.execute_step self (Poc.keys (Poc.JobRun._job self)) step
    inputs w = (Ok tt, w') ->
  exists v key,
    Poc.JobRun.run_step step inputs = Ok [("y", v)]
    /\ Poc.keys (Poc.JobRun._job self)
         !! dotted (Poc.WorkflowStep.name step) "y" = Some key
    /\ Poc.AssetStore._assets (Poc.JobRun.target_store w) !! key = None
    /\ Poc.AssetStore._assets (Poc.JobRun.target_store w')
       = <[key := v]> (Poc.AssetStore._assets (Poc.JobRun.target_store w))
    /\ Poc.AssetStore._metadata (Poc.JobRun.target_store w')
       = <[key := Poc.Metadata.mk (Poc.subjob (Poc.JobRun._job self) step)
                    (dotted (Poc.WorkflowStep.name step) "y")]>
           (Poc.AssetStore._metadata (Poc.JobRun.target_store w))
    /\ Poc.JobRun.log w'
       = (Poc.JobRun.log w ++ [Executing (Poc.WorkflowStep.name step)])%list.
Proof.
  intros H. unfold Poc.JobRun.execute_step in H.
  unfold py_bind at 1, Poc.JobRun.emit, py_modify in H.
  unfold py_bind at 1, py_lift in H.
  destruct (Poc.JobRun.run_step step inputs) as [outputs|e] eqn:Er;
    [|discriminate H].
  destruct (proj1 (poc_run_step_outputs step inputs) outputs Er) as [v ->].
  cbn [Poc.JobRun.save_outputs] in H. unfold py_bind at 1, py_lift in H.
  destruct (getitem (Poc.keys (Poc.JobRun._job self))
              (dotted (Poc.WorkflowStep.name step) "y")) as [key|e] eqn:Ek;
    [|discriminate H].
  apply getitem_Ok in Ek.
  unfold py_bind at 1 in H. rewrite poc_target_store_store_unfold in H.
  cbn [Poc.JobRun.target_store Poc.JobRun.log Poc.JobRun.now] in H.
  destruct (Poc.AssetStore._assets (Poc.JobRun.target_store w) !! key)
    as [old|] eqn:Eold; [discriminate H|].
  unfold py_ret in H. injection H as <-.
  exists v, key. repeat split; auto.
Qed.

Lemma poc_executed_step_stores_y_witness :
  let inputs := [("x1", PocDemo.VList [PocDemo.VInt 11; PocDemo.VInt 12])] in
  let w' :=
    snd (Poc.JobRun.execute_step PocDemo.run2 (Poc.keys PocDemo.job)
           PocDemo.step_A inputs PocDemo.empty_world) in
  exists v key,
    Poc.JobRun.run_step PocDemo.step_A inputs = Ok [("y", v)]
    /\ Poc.keys (Poc.JobRun._job PocDemo.run2)
         !! dotted (Poc.WorkflowStep.name PocDemo.step_A) "y" = Some key
    /\ Poc.AssetStore._assets (Poc.JobRun.target_store PocDemo.empty_world)
         !! key = None
    /\ Poc.AssetStore._assets (Poc.JobRun.target_store w')
       = <[key := v]>
           (Poc.AssetStore._assets
              (Poc.JobRun.target_store PocDemo.empty_world))
    /\ Poc.AssetStore._metadata (Poc.JobRun.target_store w')
       = <[key := Poc.Metadata.mk
                    (Poc.subjob (Poc.JobRun._job PocDemo.run2) PocDemo.step_A)
                    (dotted (Poc.WorkflowStep.name PocDemo.step_A) "y")]>
           (Poc.AssetStore._metadata
              (Poc.JobRun.target_store PocDemo.empty_world))
    /\ Poc.JobRun.log w'
       = (Poc.JobRun.log PocDemo.empty_world
          ++ [Executing (Poc.WorkflowStep.name PocDemo.step_A)])%list.
Proof.
  intros inputs w'.
  apply (poc_executed_step_stores_y PocDemo.value PocDemo.job_methods
           PocDemo.kernels PocDemo.run2 PocDemo.step_A inputs
           PocDemo.empty_world w').
  vm_compute. reflexivity.
Defined.

(** ** The registry, over histories of calls *)

(** X16.  Registering an asset and locating it compose: after a
    successful [register_asset], [get_asset_location] returns the site it
    was registered at, where it raised [KeyError] before; the location of
    every other asset is what it was; a second registration of the
    identifier raises [RuntimeError] and changes nothing; and the
    registered parties and sites are untouched. *)
Theorem register_asset_then_locate
    (self self' : Registry.t) (asset_id site_name : string) :
  Registry.register_asset asset_id site_name self = (Ok tt, self') ->
  Registry.get_asset_location asset_id self = (Raise KeyError, self)
  /\ Registry.get_asset_location asset_id self' = (Ok site_name, self')
  /\ (forall other,
        other <> asset_id ->
        fst (Registry.get_asset_location other self')
        = fst (Registry.get_asset_location other self))
  /\ (forall site_name',
        Registry.register_asset asset_id site_name' self'
        = (Raise RuntimeError, self'))
  /\ Registry._store self' = Registry._store self.
Proof.
  unfold Registry.register_asset, Registry.get_asset_location. py_unfold.
  destruct (Registry._asset_locations self !! asset_id) as [old|] eqn:E.
  - rewrite bool_decide_eq_true_2 by (by eexists). discriminate.
  - rewrite bool_decide_eq_false_2 by (by intros [? ?]).
    intros H. injection H as <-. cbn [Registry._asset_locations].
    rewrite lookup_insert_eq.
    split; [reflexivity|]. split; [reflexivity|]. split; [|split].
    + intros other Hne. by rewrite lookup_insert_ne.
    + intros n'. rewrite bool_decide_eq_true_2; [reflexivity | by eexists].
    + reflexivity.
Qed.

Lemma register_asset_then_locate_witness :
  let registered :=
    Registry.register_asset "data_x" "site1" Registry.init in
  Registry.get_asset_location "data_x" Registry.init
    = (Raise KeyError, Registry.init)
  /\ Registry.get_asset_location "data_x" (snd registered)
     = (Ok "site1", snd registered)
  /\ Registry.register_asset "data_x" "site2" (snd registered)
     = (Raise RuntimeError, snd registered).
Proof.
  intros registered.
  destruct (register_asset_then_locate Registry.init (snd registered)
              "data_x" "site1") as (H1 & H2 & _ & H4 & _).
  { vm_compute. reflexivity. }
  split; [exact H1|]. split; [exact H2 | exact (H4 "site2")].
Defined.

Lemma party_names_app l l' :
  RegistryCalls.party_names (l ++ l')
  = (RegistryCalls.party_names l ++ RegistryCalls.party_names l')%list.
Proof.
  induction l as [|[p|s] l IH]; cbn [RegistryCalls.party_names app];
    [reflexivity| |exact IH].
  by rewrite IH.
Qed.

Lemma site_names_app l l' :
  RegistryCalls.site_names (l ++ l')
  = (RegistryCalls.site_names l ++ RegistryCalls.site_names l')%list.
Proof.
  induction l as [|[p|s] l IH]; cbn [RegistryCalls.site_names app];
    [reflexivity|exact IH|].
  by rewrite IH.
Qed.

Lemma party_registered_names (self : Registry.t) (n : string) :
  Registry.party_registered self n
  <-> In n (RegistryCalls.party_names
              (Registry.CanonicalStore.objects (Registry._store self))).
Proof.
  unfold Registry.party_registered.
  induction (Registry.CanonicalStore.objects (Registry._store self))
    as [|[p|s] l IH]; cbn [RegistryCalls.party_names In].
  - split; [intros (p & [] & _) | intros []].
  - split.
    + intros (q & [Hq|Hq] & Hn); [left; congruence|].
      right. apply IH. eauto.
    + intros [<-|H]; [exists p; auto|].
      apply IH in H as (q & Hq & Hn). exists q. auto.
  - split.
    + intros (q & [Hq|Hq] & Hn); [discriminate Hq|]. apply IH. eauto.
    + intros H. apply IH in H as (q & Hq & Hn). exists q. auto.
Qed.

Lemma site_registered_names (self : Registry.t) (n : string) :
  Registry.site_registered self n
  <-> In n (RegistryCalls.site_names
              (Registry.CanonicalStore.objects (Registry._store self))).
Proof.
  unfold Registry.site_registered.
  induction (Registry.CanonicalStore.objects (Registry._store self))
    as [|[p|s] l IH]; cbn [RegistryCalls.site_names In].
  - split; [intros (p & [] & _) | intros []].
  - split.
    + intros (q & [Hq|Hq] & Hn); [discriminate Hq|]. apply IH. eauto.
    + intros H. apply IH in H as (q & Hq & Hn). exists q. auto.
  - split.
    + intros (q & [Hq|Hq] & Hn); [left; congruence|].
      right. apply IH. eauto.
    + intros [<-|H]; [exists s; auto|].
      apply IH in H as (q & Hq & Hn). exists q. auto.
Qed.

(** The two outcomes of [register_party], and the three of
    [register_site]. *)
Lemma register_party_cases (self : Registry.t) d :
  (Registry.party_registered self (Registry.PartyDescription.name d)
   /\ Registry.register_party d self = (Raise RuntimeError, self))
  \/ (~ Registry.party_registered self (Registry.PartyDescription.name d)
      /\ Registry.register_party d self
         = (Ok tt, Registry.inserted (Registry.Party d) self)).
Proof.
  destruct (party_lookup_cases self (Registry.PartyDescription.name d))
    as [[Hy [o Hl]]|[Hn Hl]]; [left; split; [exact Hy|]
                              |right; split; [exact Hn|]];
    unfold Registry.register_party, Registry._in_store;
    unfold py_bind at 1 2; rewrite Hl; reflexivity.
Qed.

Lemma register_site_cases (self : Registry.t) d :
  Registry.register_site d self = (Raise RuntimeError, self)
  \/ (~ Registry.site_registered self (Registry.SiteDescription.name d)
      /\ Registry.party_registered self
           (Registry.SiteDescription.owner_name d)
      /\ Registry.party_registered self
           (Registry.SiteDescription.admin_name d)
      /\ Registry.register_site d self
         = (Ok tt, Registry.inserted (Registry.Site d) self)).
Proof.
  destruct (site_lookup_cases self (Registry.SiteDescription.name d))
    as [[_ [o Hl]]|[Hs Hl]].
  { left. unfold Registry.register_site, Registry._in_store.
    unfold py_bind at 1 2. rewrite Hl. reflexivity. }
  destruct (party_lookup_cases self (Registry.SiteDescription.owner_name d))
    as [[Ho [o Hlo]]|[_ Hlo]].
  2:{ left. unfold Registry.register_site, Registry._in_store.
      unfold py_bind at 1 2. rewrite Hl. cbn [py_ret].
      unfold py_bind at 1. rewrite Hlo. reflexivity. }
  destruct (party_lookup_cases self (Registry.SiteDescription.admin_name d))
    as [[Ha [a Hla]]|[_ Hla]].
  2:{ left. unfold Registry.register_site, Registry._in_store.
      unfold py_bind at 1 2. rewrite Hl. cbn [py_ret].
      unfold py_bind at 1. rewrite Hlo.
      unfold py_bind at 1. rewrite Hla. reflexivity. }
  right. split; [exact Hs|]. split; [exact Ho|]. split; [exact Ha|].
  unfold Registry.register_site, Registry._in_store.
  unfold py_bind at 1 2. rewrite Hl. cbn [py_ret].
  unfold py_bind at 1. rewrite Hlo.
  unfold py_bind at 1. rewrite Hla. reflexivity.
Qed.

Lemma register_asset_keeps_store (self : Registry.t) i n :
  Registry._store (snd (Registry.register_asset i n self))
  = Registry._store self.
Proof.
  unfold Registry.register_asset. py_unfold.
  by destruct (bool_decide _).
Qed.

Lemma party_registered_inserted (self : Registry.t) o n :
  Registry.party_registered self n ->
  Registry.party_registered (Registry.inserted o self) n.
Proof.
  intros (p & Hp & Hn). exists p. split; [|exact Hn].
  cbn [Registry.inserted Registry._store Registry.CanonicalStore.objects
       Registry.CanonicalStore.contents].
  apply in_or_app. by left.
Qed.

Lemma do_call_consistent (self : Registry.t) c :
  RegistryCalls.consistent self ->
  RegistryCalls.consistent (snd (RegistryCalls.do_call c self)).
Proof.
  intros (Hp & Hs & Hr). destruct c as [d|d|i n]; cbn [RegistryCalls.do_call].
  - destruct (register_party_cases self d) as [[_ ->]|[Hn ->]]; cbn [snd];
      [exact (conj Hp (conj Hs Hr))|].
    unfold RegistryCalls.consistent.
    cbn [Registry.inserted Registry._store Registry.CanonicalStore.objects
         Registry.CanonicalStore.contents].
    rewrite party_names_app, site_names_app.
    cbn [RegistryCalls.party_names RegistryCalls.site_names].
    rewrite app_nil_r. split; [|split; [exact Hs|]].
    + apply NoDup_app. split; [exact Hp|]. split; [|apply NoDup_singleton].
      intros x Hx Hx'. apply list_elem_of_In in Hx, Hx'.
      destruct Hx' as [<-|[]]. apply Hn. by apply party_registered_names.
    + intros s Hin. apply in_app_or in Hin as [Hin|[Hin|[]]];
        [|discriminate Hin].
      destruct (Hr s Hin) as [Ho Ha].
      split; by apply (party_registered_inserted self).
  - destruct (register_site_cases self d) as [->|(Hn & Ho & Ha & ->)];
      cbn [snd]; [exact (conj Hp (conj Hs Hr))|].
    unfold RegistryCalls.consistent.
    cbn [Registry.inserted Registry._store Registry.CanonicalStore.objects
         Registry.CanonicalStore.contents].
    rewrite party_names_app, site_names_app.
    cbn [RegistryCalls.party_names RegistryCalls.site_names].
    rewrite app_nil_r. split; [exact Hp|]. split.
    + apply NoDup_app. split; [exact Hs|]. split; [|apply NoDup_singleton].
      intros x Hx Hx'. apply list_elem_of_In in Hx, Hx'.
      destruct Hx' as [<-|[]]. apply Hn. by apply site_registered_names.
    + intros s Hin. apply in_app_or in Hin as [Hin|[Hin|[]]].
      * destruct (Hr s Hin) as [Ho' Ha'].
        split; by apply (party_registered_inserted self).
      * injection Hin as <-.
        split; by apply (party_registered_inserted self).
  - unfold RegistryCalls.consistent, Registry.party_registered.
    rewrite register_asset_keeps_store. exact (conj Hp (conj Hs Hr)).
Qed.

Lemma after_consistent (history : list RegistryCalls.call) :
  RegistryCalls.consistent (RegistryCalls.after history).
Proof.
  induction history as [|c l IH] using rev_ind.
  - split; [apply NoDup_nil_2|]. split; [apply NoDup_nil_2|]. intros s [].
  - unfold RegistryCalls.after. rewrite foldl_app. cbn [foldl].
    by apply do_call_consistent.
Qed.

(** X17.  After any history of [register_party], [register_site] and
    [register_asset] calls on a new registry, whichever of them raised:
    no two registered parties have the same name, no two registered sites
    have the same name, and the owner and the admin named by every
    registered site are registered parties. *)
Theorem registry_history_is_consistent (history : list RegistryCalls.call) :
  NoDup (RegistryCalls.party_names
           (Registry.CanonicalStore.objects
              (Registry._store (RegistryCalls.after history))))
  /\ NoDup (RegistryCalls.site_names
              (Registry.CanonicalStore.objects
                 (Registry._store (RegistryCalls.after history))))
  /\ forall s,
       In (Registry.Site s)
          (Registry.CanonicalStore.objects
             (Registry._store (RegistryCalls.after history))) ->
       Registry.party_registered (RegistryCalls.after history)
         (Registry.SiteDescription.owner_name s)
       /\ Registry.party_registered (RegistryCalls.after history)
            (Registry.SiteDescription.admin_name s).
Proof. exact (after_consistent history). Qed.

(** ** The earlier client, on a replica of a consistent registry *)

Lemma ddm_get_party_cases (n : string)
    (objects : list Registry.RegisteredObject) :
  (exists p, In (Registry.Party p) objects
             /\ Registry.PartyDescription.name p = n
             /\ DDMClient._get_party objects n = Some p)
  \/ ((forall p, In (Registry.Party p) objects ->
                 Registry.PartyDescription.name p <> n)
      /\ DDMClient._get_party objects n = None).
Proof.
  unfold DDMClient._get_party.
  induction objects as [|[p|s] rest IH]; cbn [DDMClient._get_party_loop].
  - right. split; [intros p []|reflexivity].
  - destruct (String.eqb (Registry.PartyDescription.name p) n) eqn:E.
    + apply String.eqb_eq in E. left. exists p. repeat split; auto. by left.
    + apply String.eqb_neq in E.
      destruct IH as [(q & Hin & Hn & Hl)|[Hnone Hl]].
      * left. exists q. repeat split; auto. by right.
      * right. split; [|exact Hl].
        intros q [Hq|Hq]; [congruence | by apply Hnone].
  - destruct IH as [(q & Hin & Hn & Hl)|[Hnone Hl]].
    + left. exists q. repeat split; auto. by right.
    + right. split; [|exact Hl].
      intros q [Hq|Hq]; [discriminate | by apply Hnone].
Qed.

Lemma ddm_get_site_by_namespace (ns : string)
    (objects : list Registry.RegisteredObject) :
  (exists s, In (Registry.Site s) objects
             /\ Registry.SiteDescription.namespace s = Some ns
             /\ DDMClient._get_site objects "namespace" (Registry.AStr ns)
                = Ok (Some s))
  \/ ((forall s, In (Registry.Site s) objects ->
                 Registry.SiteDescription.namespace s <> Some ns)
      /\ DDMClient._get_site objects "namespace" (Registry.AStr ns)
         = Ok None).
Proof.
  unfold DDMClient._get_site.
  induction objects as [|[p|s] rest IH];
    cbn [DDMClient._get_site_loop Registry.getattr String.eqb Ascii.eqb
         Bool.eqb mbind result_bind].
  - right. split; [intros s []|reflexivity].
  - destruct IH as [(q & Hin & Hn & Hl)|[Hnone Hl]].
    + left. exists q. repeat split; auto. by right.
    + right. split; [|exact Hl].
      intros q [Hq|Hq]; [discriminate | by apply Hnone].
  - destruct (Registry.SiteDescription.namespace s) as [x|] eqn:Ex;
      cbn [Registry.of_option Registry.attr_eqb negb andb].
    + destruct (String.eqb x ns) eqn:E.
      * apply String.eqb_eq in E. subst x. left. exists s.
        repeat split; auto. by left.
      * apply String.eqb_neq in E.
        destruct IH as [(q & Hin & Hn & Hl)|[Hnone Hl]].
        -- left. exists q. repeat split; auto. by right.
        -- right. split; [|exact Hl].
           intros q [Hq|Hq]; [|by apply Hnone].
           injection Hq as <-. congruence.
    + destruct IH as [(q & Hin & Hn & Hl)|[Hnone Hl]].
      * left. exists q. repeat split; auto. by right.
      * right. split; [|exact Hl].
        intros q [Hq|Hq]; [|by apply Hnone].
        injection Hq as <-. congruence.
Qed.

Lemma ddm_get_site_by_name (n : string)
    (objects : list Registry.RegisteredObject) :
  (exists s, In (Registry.Site s) objects
             /\ Registry.SiteDescription.name s = n
             /\ DDMClient._get_site objects "name" (Registry.AStr n)
                = Ok (Some s))
  \/ ((forall s, In (Registry.Site s) objects ->
                 Registry.SiteDescription.name s <> n)
      /\ DDMClient._get_site objects "name" (Registry.AStr n) = Ok None).
Proof.
  unfold DDMClient._get_site.
  induction objects as [|[p|s] rest IH];
    cbn [DDMClient._get_site_loop Registry.getattr String.eqb Ascii.eqb
         Bool.eqb mbind result_bind Registry.attr_eqb negb andb].
  - right. split; [intros s []|reflexivity].
  - destruct IH as [(q & Hin & Hn & Hl)|[Hnone Hl]].
    + left. exists q. repeat split; auto. by right.
    + right. split; [|exact Hl].
      intros q [Hq|Hq]; [discriminate | by apply Hnone].
  - destruct (String.eqb (Registry.SiteDescription.name s) n) eqn:E.
    + apply String.eqb_eq in E. left. exists s. repeat split; auto. by left.
    + apply String.eqb_neq in E.
      destruct IH as [(q & Hin & Hn & Hl)|[Hnone Hl]].
      * left. exists q. repeat split; auto. by right.
      * right. split; [|exact Hl].
        intros q [Hq|Hq]; [|by apply Hnone].
        injection Hq as <-. congruence.
Qed.

(** X18.  On the objects of a registry reached by any history of calls,
    [get_public_key_for_ns] of the earlier client never meets a site
    whose owner is missing: when a site manages the namespace, the answer
    is the public key of a registered party that is the owner of a site
    managing it; when no site manages the namespace, the method raises
    [RuntimeError]. *)
Theorem ddm_public_key_is_the_owners
    (history : list RegistryCalls.call) (namespace : string) :
  let objects :=
    Registry.CanonicalStore.objects
      (Registry._store (RegistryCalls.after history)) in
  ((exists s, In (Registry.Site s) objects
              /\ Registry.SiteDescription.namespace s = Some namespace) ->
   exists s p,
     In (Registry.Site s) objects
     /\ Registry.SiteDescription.namespace s = Some namespace
     /\ In (Registry.Party p) objects
     /\ Registry.PartyDescription.name p
        = Registry.SiteDescription.owner_name s
     /\ DDMClient.get_public_key_for_ns objects namespace
        = Ok (Registry.PartyDescription.public_key p))
  /\ ((forall s, In (Registry.Site s) objects ->
                 Registry.SiteDescription.namespace s <> Some namespace) ->
      DDMClient.get_public_key_for_ns objects namespace
      = Raise RuntimeError).
Proof.
  intros objects. unfold DDMClient.get_public_key_for_ns.
  destruct (after_consistent history) as (_ & _ & Href).
  fold objects in Href. split.
  - intros (s0 & Hin0 & Hns0).
    destruct (ddm_get_site_by_namespace namespace objects)
      as [(s & Hin & Hns & Hl)|[Hnone _]];
      [|by destruct (Hnone s0 Hin0)].
    rewrite Hl. cbn [mbind result_bind].
    destruct (ddm_get_party_cases (Registry.SiteDescription.owner_name s)
                objects) as [(p & Hp & Hn & Hg)|[Hnone _]].
    + rewrite Hg. exists s, p. auto.
    + destruct (Href s Hin) as [(p & Hp & Hn) _]. by destruct (Hnone p Hp).
  - intros Hnone.
    destruct (ddm_get_site_by_namespace namespace objects)
      as [(s & Hin & Hns & _)|[_ Hl]];
      [by destruct (Hnone s Hin)|].
    rewrite Hl. reflexivity.
Qed.

Lemma ddm_public_key_is_the_owners_witness :
  let p1 := Registry.PartyDescription.mk "p1" (RSAPublicKey.mk 3233 17) in
  let site1 := Registry.SiteDescription.mk "s1" "p1" "p1" (Some "ns1") in
  let history :=
    [RegistryCalls.CallRegisterSite site1;
     RegistryCalls.CallRegisterParty p1;
     RegistryCalls.CallRegisterSite site1] in
  let objects :=
    Registry.CanonicalStore.objects
      (Registry._store (RegistryCalls.after history)) in
  exists s p,
    In (Registry.Site s) objects
    /\ Registry.SiteDescription.namespace s = Some "ns1"
    /\ In (Registry.Party p) objects
    /\ Registry.PartyDescription.name p
       = Registry.SiteDescription.owner_name s
    /\ DDMClient.get_public_key_for_ns objects "ns1"
       = Ok (Registry.PartyDescription.public_key p).
Proof.
  intros p1 site1 history objects.
  apply (proj1 (ddm_public_key_is_the_owners history "ns1")).
  exists site1. split; [|reflexivity].
  vm_compute. right. left. reflexivity.
Defined.

(** X19.  On the objects of a registry reached by any history of calls,
    [get_site_administrator] answers, for the name of a registered site,
    with the admin of the one site of that name, and that admin is a
    registered party; for any other name it raises [RuntimeError]. *)
Theorem ddm_site_administrator_is_registered
    (history : list RegistryCalls.call) (site_name : string) :
  let objects :=
    Registry.CanonicalStore.objects
      (Registry._store (RegistryCalls.after history)) in
  (forall s,
      In (Registry.Site s) objects ->
      Registry.SiteDescription.name s = site_name ->
      DDMClient.get_site_administrator objects site_name
      = Ok (Registry.SiteDescription.admin_name s)
      /\ Registry.party_registered (RegistryCalls.after history)
           (Registry.SiteDescription.admin_name s))
  /\ ((forall s, In (Registry.Site s) objects ->
                 Registry.SiteDescription.name s <> site_name) ->
      DDMClient.get_site_administrator objects site_name
      = Raise RuntimeError).
Proof.
  intros objects. unfold DDMClient.get_site_administrator.
  destruct (after_consistent history) as (_ & Hnodup & Href).
  fold objects in Hnodup, Href. split.
  - intros s Hin Hn. split; [|by apply Href].
    destruct (ddm_get_site_by_name site_name objects)
      as [(s' & Hin' & Hn' & Hl)|[Hnone _]];
      [|by destruct (Hnone s Hin)].
    rewrite Hl. cbn [mbind result_bind]. f_equal. f_equal.
    clear Hl Href. revert Hnodup Hin Hin'.
    induction objects as [|[p|x] rest IH];
      cbn [RegistryCalls.site_names]; intros Hnodup Hin Hin'.
    + destruct Hin.
    + destruct Hin as [Hin|Hin]; [discriminate Hin|].
      destruct Hin' as [Hin'|Hin']; [discriminate Hin'|]. by apply IH.
    + apply NoDup_cons in Hnodup as [Hx Hnodup].
      assert (forall y, In (Registry.Site y) rest ->
                Registry.SiteDescription.name y
                <> Registry.SiteDescription.name x) as Hfresh.
      { intros y Hy Heq. apply Hx. rewrite <- Heq. apply list_elem_of_In.
        clear -Hy. induction rest as [|[p|z] rest IH];
          cbn [RegistryCalls.site_names]; [destruct Hy| |].
        - destruct Hy as [Hy|Hy]; [discriminate Hy | by apply IH].
        - destruct Hy as [Hy|Hy]; [injection Hy as ->; by left|].
          right. by apply IH. }
      destruct Hin as [Hin|Hin], Hin' as [Hin'|Hin'].
      * congruence.
      * injection Hin as <-. destruct (Hfresh s' Hin'). congruence.
      * injection Hin' as <-. destruct (Hfresh s Hin). congruence.
      * by apply IH.
  - intros Hnone.
    destruct (ddm_get_site_by_name site_name objects)
      as [(s & Hin & Hn & _)|[_ Hl]];
      [by destruct (Hnone s Hin)|].
    rewrite Hl. reflexivity.
Qed.

Lemma ddm_site_administrator_is_registered_witness :
  let p1 := Registry.PartyDescription.mk "p1" (RSAPublicKey.mk 3233 17) in
  let site1 := Registry.SiteDescription.mk "s1" "p1" "p1" (Some "ns1") in
  let history :=
    [RegistryCalls.CallRegisterParty p1;
     RegistryCalls.CallRegisterSite site1] in
  DDMClient.get_site_administrator
    (Registry.CanonicalStore.objects
       (Registry._store (RegistryCalls.after history))) "s1"
  = Ok "p1"
  /\ Registry.party_registered (RegistryCalls.after history) "p1".
Proof.
  intros p1 site1 history.
  apply (proj1 (ddm_site_administrator_is_registered history "s1") site1).
  - vm_compute. right. left. reflexivity.
  - reflexivity.
Defined.

(** ** The registry client of the later generation *)

Lemma list_sites_with_runners_iff (objects : list RegisteredObject)
    (i : Identifier.t) :
  In i (list_sites_with_runners objects)
  <-> exists d, In (Site d) objects
                /\ SiteDescription.id d = i
                /\ SiteDescription.runner d = true.
Proof.
  induction objects as [|[p|s] rest IH]; cbn [list_sites_with_runners].
  - split; [intros [] | intros (d & [] & _)].
  - rewrite IH. split.
    + intros (d & Hd & R). exists d. split; [by right | exact R].
    + intros (d & [Hd|Hd] & R); [discriminate Hd|]. eauto.
  - destruct (SiteDescription.runner s) eqn:Er; cbn [In]; rewrite IH; split.
    + intros [<-|(d & Hd & R)]; [exists s; auto|].
      exists d. split; [by right | exact R].
    + intros (d & [Hd|Hd] & Hi & Hr); [injection Hd as <-; by left|].
      right. eauto.
    + intros (d & Hd & R). exists d. split; [by right | exact R].
    + intros (d & [Hd|Hd] & Hi & Hr); [injection Hd as <-; congruence|].
      eauto.
Qed.

(** X20.  [list_sites_with_runners] lists exactly the identifiers of the
    sites among the replica's objects that have a runner; and on the
    objects held after any history of registrations and deregistrations,
    every site it lists has a store as well. *)
Theorem sites_with_runners_are_listed :
  (forall objects i,
      In i (list_sites_with_runners objects)
      <-> exists d, In (Site d) objects
                    /\ SiteDescription.id d = i
                    /\ SiteDescription.runner d = true)
  /\ (forall history i,
        In i (list_sites_with_runners (objects_after history)) ->
        exists d, In (Site d) (objects_after history)
                  /\ SiteDescription.id d = i
                  /\ SiteDescription.runner d = true
                  /\ SiteDescription.store d = true).
Proof.
  split; [exact list_sites_with_runners_iff|].
  intros history i Hi.
  apply list_sites_with_runners_iff in Hi as (d & Hd & Hid & Hr).
  exists d. repeat split; auto.
  destruct (objects_after_constructed history d Hd)
    as (a & o & ad & ep & r & s & ns & E).
  eapply site_init_invariant; eauto.
Qed.

Lemma sites_with_runners_are_listed_witness :
  exists d,
    In (Site d)
       (objects_after
          [RegisterSite "site:ns1:s0" "party:ns1:p1" "party:ns1:p1"
             "http://s0" false true None;
           RegisterSite "site:ns1:s1" "party:ns1:p1" "party:ns1:p1"
             "http://s1" true true (Some "ns1")])
    /\ SiteDescription.id d = "site:ns1:s1"
    /\ SiteDescription.runner d = true
    /\ SiteDescription.store d = true.
Proof.
  apply (proj2 sites_with_runners_are_listed).
  vm_compute. left. reflexivity.
Defined.

Lemma get_site_by_id_cases (i : Identifier.t) (objects : list RegisteredObject) :
  (exists d, In (Site d) objects
             /\ SiteDescription.id d = i
             /\ RegistryClient._get_site "id" (RegistryClient.AStr i) objects
                = Ok (Some d))
  \/ ((forall d, In (Site d) objects -> SiteDescription.id d <> i)
      /\ RegistryClient._get_site "id" (RegistryClient.AStr i) objects
         = Ok None).
Proof.
  induction objects as [|[p|s] rest IH];
    cbn [RegistryClient._get_site RegistryClient.getattr String.eqb
         Ascii.eqb Bool.eqb mbind result_bind RegistryClient.attr_eqb
         negb andb].
  - right. split; [intros d []|reflexivity].
  - destruct IH as [(q & Hin & Hn & Hl)|[Hnone Hl]].
    + left. exists q. repeat split; auto. by right.
    + right. split; [|exact Hl].
      intros q [Hq|Hq]; [discriminate | by apply Hnone].
  - destruct (String.eqb (SiteDescription.id s) i) eqn:E.
    + apply String.eqb_eq in E. left. exists s. repeat split; auto. by left.
    + apply String.eqb_neq in E.
      destruct IH as [(q & Hin & Hn & Hl)|[Hnone Hl]].
      * left. exists q. repeat split; auto. by right.
      * right. split; [|exact Hl].
        intros q [Hq|Hq]; [|by apply Hnone].
        injection Hq as <-. congruence.
Qed.

(** X21.  [get_site_by_id] returns a site description only if it is among
    the replica's objects and has the identifier asked for; it finds one
    whenever some site has that identifier; and when none has, it raises
    [KeyError].  It raises nothing else. *)
Theorem get_site_by_id_finds_the_site
    (site_id : Identifier.t) (objects : list RegisteredObject) :
  (forall d,
      RegistryClient.get_site_by_id site_id objects = Ok d ->
      In (Site d) objects /\ SiteDescription.id d = site_id)
  /\ ((exists d, In (Site d) objects /\ SiteDescription.id d = site_id) ->
      exists d, RegistryClient.get_site_by_id site_id objects = Ok d)
  /\ ((forall d, In (Site d) objects -> SiteDescription.id d <> site_id) ->
      RegistryClient.get_site_by_id site_id objects = Raise KeyError)
  /\ (forall e,
        RegistryClient.get_site_by_id site_id objects = Raise e ->
        e = KeyError).
Proof.
  unfold RegistryClient.get_site_by_id.
  destruct (get_site_by_id_cases site_id objects)
    as [(s & Hin & Hid & ->)|[Hnone ->]]; cbn [mbind result_bind].
  - split; [|split; [|split]].
    + intros d H. injection H as <-. by split.
    + intros _. by exists s.
    + intros Hnone. by destruct (Hnone s Hin).
    + intros e H. discriminate H.
  - split; [|split; [|split]].
    + intros d H. discriminate H.
    + intros (d & Hd & Hid). by destruct (Hnone d Hd).
    + reflexivity.
    + intros e H. by injection H as <-.
Qed.

Lemma get_site_by_id_finds_the_site_witness :
  let s1 :=
    SiteDescription.mk "site:ns1:s1" "party:ns1:p1" "party:ns1:p1"
      "http://s1" true true (Some "ns1") in
  (exists d,
     RegistryClient.get_site_by_id "site:ns1:s1"
       [Party (PartyDescription.mk "party:ns1:p1" (RSAPublicKey.mk 3233 17));
        Site s1] = Ok d)
  /\ RegistryClient.get_site_by_id "site:ns1:s2" [Site s1] = Raise KeyError.
Proof.
  intros s1. split.
  - apply (proj1 (proj2 (get_site_by_id_finds_the_site "site:ns1:s1" _))).
    exists s1. split; [right; left|]; reflexivity.
  - apply (proj1 (proj2 (proj2
             (get_site_by_id_finds_the_site "site:ns1:s2" [Site s1])))).
    intros d [Hd|[]]. injection Hd as <-. discriminate.
Defined.

(** ** The legality check of the earlier runner *)

(** X22.  When [_is_legal] of local_workflow_runner.py returns [True],
    then for every step planned at this runner: the runner's
    administrator may access the step; and for every input of the step,
    the administrator may access the input item, the party the input is
    downloaded from is determined, and that party may access the source
    item. *)
Theorem poc_is_legal_checks_inputs_and_step
    (Any : Type) (PM : Poc.PolicyManager) (DC : Poc.JobRun.DDMClient Any)
    (self : Poc.JobRun.t) :
  Poc.JobRun._is_legal self = Ok true ->
  exists perms,
    Poc.calculate_permissions (Poc.JobRun._job self) = Ok perms
    /\ forall step,
         In step (map snd (Poc.Workflow.steps (Poc.JobRun._workflow self))) ->
         Poc.JobRun._runners self !! Poc.WorkflowStep.name step
           = Some (Poc.JobRun._this_runner self) ->
         (exists p, perms !! Poc.WorkflowStep.name step = Some p
                    /\ Poc.may_access p (Poc.JobRun._administrator self)
                       = true)
         /\ forall inp_name inp_src,
              In (inp_name, inp_src) (Poc.WorkflowStep.inputs step) ->
              (exists p,
                  perms !! dotted (Poc.WorkflowStep.name step) inp_name
                    = Some p
                  /\ Poc.may_access p (Poc.JobRun._administrator self)
                     = true)
              /\ exists src_party p,
                   Poc.JobRun.source_party self inp_src = Ok src_party
                   /\ perms !! inp_src = Some p
                   /\ Poc.may_access p src_party = true.
Proof.
  unfold Poc.JobRun._is_legal.
  destruct (Poc.calculate_permissions (Poc.JobRun._job self)) as [perms|e];
    cbn [mbind result_bind]; [|intros; discriminate].
  intros H. exists perms. split; [reflexivity|].
  match type of H with
  | context [for_return ?body ?l] =>
      set (body_ := body) in H; destruct (for_return body_ l) as [r|e] eqn:E
  end; cbn [mbind result_bind] in H; [|discriminate].
  destruct r as [b|].
  { injection H as ->.
    apply for_return_Some in E as (step & _ & Hb). exfalso.
    unfold body_ in Hb.
    destruct (getitem (Poc.JobRun._runners self)
                (Poc.WorkflowStep.name step))
      as [runner|]; cbn [mbind result_bind] in Hb; [|discriminate].
    destruct (String.eqb runner (Poc.JobRun._this_runner self));
      [|discriminate].
    match type of Hb with
    | context [for_return ?b (Poc.WorkflowStep.inputs step)] =>
        set (body_in := b) in Hb;
        destruct (for_return body_in (Poc.WorkflowStep.inputs step))
          as [r_in|e] eqn:Ein
    end; cbn [mbind result_bind] in Hb; [|discriminate].
    destruct r_in as [b'|].
    - injection Hb as ->.
      apply for_return_Some in Ein as ([n src] & _ & Hx).
      unfold body_in in Hx.
      destruct (getitem perms (dotted (Poc.WorkflowStep.name step) n))
        as [p|]; cbn [mbind result_bind] in Hx; [|discriminate].
      destruct (negb (Poc.may_access p (Poc.JobRun._administrator self)));
        [congruence|].
      fold (Poc.JobRun.source_party self src) in Hx.
      destruct (Poc.JobRun.source_party self src) as [src_party|];
        cbn [mbind result_bind] in Hx; [|discriminate].
      destruct (getitem perms src) as [sp|]; cbn [mbind result_bind] in Hx;
        [|discriminate].
      destruct (negb (Poc.may_access sp src_party)); congruence.
    - destruct (getitem perms (Poc.WorkflowStep.name step)) as [sp|];
        cbn [mbind result_bind] in Hb; [|discriminate].
      destruct (negb (Poc.may_access sp (Poc.JobRun._administrator self)));
        congruence. }
  intros step Hstep Hrun.
  pose proof (for_return_None _ _ E step Hstep) as Hb.
  unfold body_ in Hb. rewrite (getitem_Some _ _ _ Hrun) in Hb.
  cbn [mbind result_bind] in Hb. rewrite String.eqb_refl in Hb.
  match type of Hb with
  | context [for_return ?b (Poc.WorkflowStep.inputs step)] =>
      set (body_in := b) in Hb;
      destruct (for_return body_in (Poc.WorkflowStep.inputs step))
        as [r_in|e] eqn:Ein
  end; cbn [mbind result_bind] in Hb; [|discriminate].
  destruct r_in as [b'|]; [discriminate|].
  destruct (getitem perms (Poc.WorkflowStep.name step)) as [sp|] eqn:Esp;
    cbn [mbind result_bind] in Hb; [|discriminate].
  destruct (Poc.may_access sp (Poc.JobRun._administrator self)) eqn:Ems;
    cbn [negb] in Hb; [|discriminate].
  split.
  { exists sp. split; [by apply getitem_Ok | exact Ems]. }
  intros n src Hin.
  pose proof (for_return_None _ _ Ein (n, src) Hin) as Hx.
  unfold body_in in Hx.
  destruct (getitem perms (dotted (Poc.WorkflowStep.name step) n))
    as [p|] eqn:Ep; cbn [mbind result_bind] in Hx; [|discriminate].
  destruct (Poc.may_access p (Poc.JobRun._administrator self)) eqn:Em;
    cbn [negb] in Hx; [|discriminate].
  split.
  { exists p. split; [by apply getitem_Ok | exact Em]. }
  fold (Poc.JobRun.source_party self src) in Hx.
  destruct (Poc.JobRun.source_party self src) as [src_party|];
    cbn [mbind result_bind] in Hx; [|discriminate].
  destruct (getitem perms src) as [q|] eqn:Eq;
    cbn [mbind result_bind] in Hx; [|discriminate].
  destruct (Poc.may_access q src_party) eqn:Emq; cbn [negb] in Hx;
    [|discriminate].
  exists src_party, q. split; [reflexivity|].
  split; [by apply getitem_Ok | exact Emq].
Qed.

Lemma poc_is_legal_checks_inputs_and_step_witness :
  exists perms,
    Poc.calculate_permissions (Poc.JobRun._job PocDemo.run2) = Ok perms
    /\ forall step,
         In step
            (map snd
               (Poc.Workflow.steps (Poc.JobRun._workflow PocDemo.run2))) ->
         Poc.JobRun._runners PocDemo.run2 !! Poc.WorkflowStep.name step
           = Some (Poc.JobRun._this_runner PocDemo.run2) ->
         (exists p, perms !! Poc.WorkflowStep.name step = Some p
                    /\ Poc.may_access p
                         (Poc.JobRun._administrator PocDemo.run2) = true)
         /\ forall inp_name inp_src,
              In (inp_name, inp_src) (Poc.WorkflowStep.inputs step) ->
              (exists p,
                  perms !! dotted (Poc.WorkflowStep.name step) inp_name
                    = Some p
                  /\ Poc.may_access p
                       (Poc.JobRun._administrator PocDemo.run2) = true)
              /\ exists src_party p,
                   Poc.JobRun.source_party PocDemo.run2 inp_src
                     = Ok src_party
                   /\ perms !! inp_src = Some p
                   /\ Poc.may_access p src_party = true.
Proof.
  apply (poc_is_legal_checks_inputs_and_step PocDemo.value PocDemo.policy
           PocDemo.ddm_client PocDemo.run2).
  vm_compute. reflexivity.
Defined.
